(** * MetaReasoner: the council engine and the rating engine

    A shallow embedding of [backend/council.py], of the store of
    [backend/storage.py] (its writes, the reading of a conversation and
    the rating computation) and of the endpoint [send_message] of
    [backend/main.py], with the properties of the specification proved
    about it.

    Conventions of the embedding.
    - A Python [str] is a list of Unicode code points ([text]).  The
      character classes used by [re], [str.strip] and [str.upper] are
      fixed on ASCII and left to a table ([Unicode]) above it, so every
      statement holds for every version of the Unicode database.
    - A Python [float] is a binary64 number, Rocq's primitive [float];
      [round] is defined on it exactly.  A Python [int] is an integer
      without a bound.
    - A [dict] whose iteration order is observed is an association list
      in insertion order; a [dict] that is only looked up is a [gmap].
    - A raised exception is [None] in the [option] monad.
    - What [json.loads] returns is a value of any JSON type ([json]):
      the engine carries it as it is, and the operations of Python it
      applies to it ([bool], iteration, [.get], [in], [+], [*], [<],
      [float]) are defined on every such value, with the exception they
      raise.  Outside numbers, where the result depends on more of the
      interpreter than is embedded here, they are left to an interface
      ([Python]): the statements hold for every interpreter.
    - The libraries are interfaces too: the model backends
      ([OpenRouter]), [json.loads] ([JsonLib]), the power function
      ([Libm]) and the conversion of a text that is stored in a column
      of real numbers ([Sqlite]).
    - [sorted] and [list.sort] are a stable insertion sort, which is
      what every stable sort computes when no key is a NaN.
    - A table of the database is the list of its rows in the order of
      their row ids; a [SELECT] is a filter, in that order, and an
      [ORDER BY] a stable sort of it.  A write returns the store after
      its commit, or [None] when a statement raises, which commits
      nothing.  The clock is an argument of the functions that read it. *)

From Stdlib Require Import ZArith NArith List String Ascii Lia Bool.
From Stdlib Require Import Sorting.Sorted Sorting.Permutation.
From Stdlib Require Import Floats.
From stdpp Require Import base option list gmap.

Set Default Proof Using "Type".
Local Open Scope list_scope.

(** ** Text *)

Abbreviation text := (list N).

(** A literal of the source, as code points. *)
Definition str (s : string) : text := map N_of_ascii (list_ascii_of_string s).

Definition nl : text := [10%N].
Definition dquote : text := [34%N].

(** What Python knows about the code points above ASCII: [str.isdecimal]
    (the class [\d] of [re]), [str.isspace] (the class [\s], and what
    [str.strip] removes) and the full upper-case mapping of [str.upper]. *)
Class Unicode := {
  uni_isdecimal : N -> bool;
  uni_isspace : N -> bool;
  uni_upper : N -> text
}.

(** The table used to run the definitions on ASCII examples. *)
Definition ascii_tables : Unicode :=
  {| uni_isdecimal := fun _ => false;
     uni_isspace := fun _ => false;
     uni_upper := fun c => [c] |}.

Section Text.
Context {U : Unicode}.

Definition is_digit (c : N) : bool :=
  if (c <? 128)%N then (48 <=? c)%N && (c <=? 57)%N else uni_isdecimal c.

Definition is_space (c : N) : bool :=
  if (c <? 128)%N
  then ((9 <=? c)%N && (c <=? 13)%N) || ((28 <=? c)%N && (c <=? 32)%N)
  else uni_isspace c.

(** The class [[A-Z]] of [re]: a range of code points. *)
Definition is_AZ (c : N) : bool := (65 <=? c)%N && (c <=? 90)%N.

Definition upper_char (c : N) : text :=
  if (c <? 128)%N
  then (if (97 <=? c)%N && (c <=? 122)%N then [(c - 32)%N] else [c])
  else uni_upper c.

Definition upper (s : text) : text := concat (map upper_char s).

(** [s.startswith(p)] *)
Fixpoint startswith (p s : text) : bool :=
  match p, s with
  | [], _ => true
  | a :: p', b :: s' => if decide (a = b) then startswith p' s' else false
  | _ :: _, [] => false
  end.

(** [s.endswith(p)] *)
Definition endswith (p s : text) : bool := startswith (rev p) (rev s).

(** [p in s] *)
Fixpoint contains (p s : text) : bool :=
  startswith p s ||
  match s with
  | [] => false
  | _ :: s' => contains p s'
  end.

(** [s.split(sep)] for a non-empty [sep]: the occurrences are found from
    the left and do not overlap.  [skip] counts the characters of an
    occurrence that are still to be passed over, [cur] is the current
    part, reversed. *)
Fixpoint split_go (sep : text) (skip : nat) (s cur : text) : list text :=
  match s with
  | [] => [rev cur]
  | c :: s' =>
      match skip with
      | S k => split_go sep k s' cur
      | O =>
          if startswith sep s
          then rev cur :: split_go sep (length sep - 1) s' []
          else split_go sep 0 s' (c :: cur)
      end
  end.

Definition split (sep s : text) : list text := split_go sep 0 s [].

(** The longest prefix of [s] in the class [p], and the rest. *)
Fixpoint span (p : N -> bool) (s : text) : text * text :=
  match s with
  | [] => ([], [])
  | c :: s' =>
      if p c then (let (a, b) := span p s' in (c :: a, b)) else ([], s)
  end.

Definition lstrip (s : text) : text := snd (span is_space s).
Definition rstrip (s : text) : text := rev (lstrip (rev s)).

(** [s.strip()] *)
Definition strip (s : text) : text := rstrip (lstrip s).

(** [sep.join(parts)] *)
Fixpoint join (sep : text) (parts : list text) : text :=
  match parts with
  | [] => []
  | [p] => p
  | p :: rest => p ++ sep ++ join sep rest
  end.

End Text.

(** ** The text-ranking parse ([parse_ranking_from_text]) *)

Definition FINAL_RANKING : text := str "FINAL RANKING:".
Definition RESPONSE_ : text := str "Response ".

Section Parse.
Context {U : Unicode}.

(** [re.match(r'Response [A-Z]', s)]: the matched text. *)
Definition match_label (s : text) : option text :=
  if startswith RESPONSE_ s
  then match drop 9 s with
       | c :: _ => if is_AZ c then Some (RESPONSE_ ++ [c]) else None
       | [] => None
       end
  else None.

(** [re.match(r'\d+\.\s*Response [A-Z]', s)]: the matched text.  The two
    greedy repetitions never give a character back: what follows [\d+]
    is a full stop, which is not a digit, and what follows [\s*] is the
    letter R, which is not white space. *)
Definition match_numbered (s : text) : option text :=
  let (ds, r1) := span is_digit s in
  match ds, r1 with
  | _ :: _, c :: r2 =>
      if decide (c = 46%N)
      then let (ws, r3) := span is_space r2 in
           match match_label r3 with
           | Some lab => Some (ds ++ [46%N] ++ ws ++ lab)
           | None => None
           end
      else None
  | _, _ => None
  end.

(** [re.findall(r'\d+\.\s*Response [A-Z]', s)]: the matches from the
    left, each search starting where the previous match ended. *)
Fixpoint findall_go (skip : nat) (s : text) : list text :=
  match s with
  | [] => []
  | _ :: s' =>
      match skip with
      | S k => findall_go k s'
      | O =>
          match match_numbered s with
          | Some m => m :: findall_go (length m - 1) s'
          | None => findall_go 0 s'
          end
      end
  end.

Definition findall_numbered (s : text) : list text := findall_go 0 s.

(** [re.search(r'Response [A-Z]', s)]: the leftmost match, [None] when
    there is none. *)
Fixpoint search_label (s : text) : option text :=
  match match_label s with
  | Some lab => Some lab
  | None =>
      match s with
      | [] => None
      | _ :: s' => search_label s'
      end
  end.

(** [parse_ranking_from_text].  [.group()] on a failed search raises
    [AttributeError]: the comprehension is a [mapM]. *)
Definition parse_ranking_from_text (ranking_text : text) : option (list text) :=
  if contains FINAL_RANKING ranking_text then
    let parts := split FINAL_RANKING ranking_text in
    if (2 <=? length parts)%nat then
      let ranking_section := List.last parts [] in
      let numbered_matches := findall_numbered ranking_section in
      match numbered_matches with
      | _ :: _ => mapM search_label numbered_matches
      | [] => Some []
      end
    else Some []
  else Some [].

End Parse.

(** *** The ranking of a tail, in the words of the specification *)

Section ParseSpec.
Context {U : Unicode}.

(** [m] is an entry "<number>. Response <letter>" and [lab] its
    "Response <letter>" token. *)
Definition numbered_entry (m lab : text) : Prop :=
  exists ds ws c,
    m = ds ++ [46%N] ++ ws ++ RESPONSE_ ++ [c]
    /\ lab = RESPONSE_ ++ [c]
    /\ ds <> []
    /\ Forall (fun d => is_digit d = true) ds
    /\ Forall (fun w => is_space w = true) ws
    /\ is_AZ c = true.

(** [labs] are the tokens of the entries found in [s] in textual order:
    at each position, an entry that starts there is taken whole, and a
    character at which no entry starts is passed over. *)
Inductive ranked_labels : text -> list text -> Prop :=
  | RL_end : ranked_labels [] []
  | RL_entry m lab rest labs :
      numbered_entry m lab ->
      ranked_labels rest labs ->
      ranked_labels (m ++ rest) (lab :: labs)
  | RL_skip c s labs :
      (forall m lab rest, c :: s = m ++ rest -> ~ numbered_entry m lab) ->
      ranked_labels s labs ->
      ranked_labels (c :: s) labs.

(** The token an entry ends with: its last ten characters. *)
Definition label_of_match (m : text) : text := drop (length m - 10) m.

End ParseSpec.

(** ** Numbers *)

(** [float(z)] for a Python [int]: the nearest binary64 number.  (Python
    raises [OverflowError] where this is infinite, from [2^1024] on.) *)
Definition float_of_Z (z : Z) : float :=
  SF2Prim (binary_normalize prec emax z 0 false).

(** The integer nearest to [m * 2^e], ties to the even one. *)
Definition round_half_even (m e : Z) : Z :=
  if (0 <=? e)%Z then (m * 2 ^ e)%Z
  else
    let d := (2 ^ (- e))%Z in
    let q := (m / d)%Z in
    match (2 * (m mod d) ?= d)%Z with
    | Lt => q
    | Gt => (q + 1)%Z
    | Eq => if Z.even q then q else (q + 1)%Z
    end.

(** [round(x, 2)]: the binary64 number nearest to the decimal that is
    nearest to the exact value of [x] with two digits after the point.
    From [2^46] on the spacing of binary64 numbers exceeds 0.01 and [x]
    is its own rounding; below, the hundredths are an integer under
    [2^53] and the division is correctly rounded. *)
Definition py_round2 (x : float) : float :=
  match Prim2SF x with
  | S754_finite s m e =>
      if (abs x <? 0x1p46)%float
      then let r := (float_of_Z (round_half_even (Z.pos m * 100) e) / 100)%float in
           if s then (- r)%float else r
      else x
  | _ => x
  end.

(** [round(x)]: the nearest integer, ties to even; [ValueError] on a NaN
    and [OverflowError] on an infinity. *)
Definition py_round (x : float) : option Z :=
  match Prim2SF x with
  | S754_zero _ => Some 0%Z
  | S754_finite s m e => Some (cond_Zopp s (round_half_even (Z.pos m) e))
  | _ => None
  end.

(** ** Sorting *)

(** [sorted] and [list.sort] are stable.  On keys that [<] orders as a
    strict weak order, which is every list of keys without a NaN, a
    stable sort has one possible result, and it is modelled by insertion
    from the right: a new element [x] passes the elements that have to
    stay ahead of it. *)
Section Sort.
Context {A : Type} (pass : A -> A -> bool).

Fixpoint insert_sorted (x : A) (l : list A) : list A :=
  match l with
  | [] => [x]
  | y :: l' => if pass x y then y :: insert_sorted x l' else x :: l
  end.

Definition stable_sort (l : list A) : list A := foldr insert_sorted [] l.

End Sort.

(** [sorted(l, key=key, reverse=True)] with float keys. *)
Definition sort_desc {A} (key : A -> float) (l : list A) : list A :=
  stable_sort (fun x y => (key x <? key y)%float) l.

(** ** Dictionaries in insertion order *)

Section Dict.
Context {K : Type} `{EqDecision K} {V : Type}.

Fixpoint dict_get (k : K) (d : list (K * V)) : option V :=
  match d with
  | [] => None
  | (k', v) :: d' => if decide (k = k') then Some v else dict_get k d'
  end.

(** [d[k] = v] *)
Fixpoint dict_set (k : K) (v : V) (d : list (K * V)) : list (K * V) :=
  match d with
  | [] => [(k, v)]
  | (k', v') :: d' =>
      if decide (k = k') then (k', v) :: d' else (k', v') :: dict_set k v d'
  end.

(** [d[k] = f(d[k])] on a [defaultdict] whose default is [dflt] *)
Definition dict_update (k : K) (f : V -> V) (dflt : V) (d : list (K * V)) : list (K * V) :=
  dict_set k (f (default dflt (dict_get k d))) d.

(** Reading [d[k]] on a [defaultdict]: a missing key is inserted. *)
Definition dict_touch (k : K) (dflt : V) (d : list (K * V)) : list (K * V) :=
  match dict_get k d with
  | Some _ => d
  | None => d ++ [(k, dflt)]
  end.

End Dict.

(** [foldlM] in the exception monad: a [for] loop whose body may raise. *)
Fixpoint foldM {A B : Type} (f : B -> A -> option B) (b : B) (l : list A) : option B :=
  match l with
  | [] => Some b
  | x :: l' => match f b x with Some b' => foldM f b' l' | None => None end
  end.

(** [enumerate(l, start)] *)
Fixpoint enumerate_from {A : Type} (start : Z) (l : list A) : list (Z * A) :=
  match l with
  | [] => []
  | x :: l' => (start, x) :: enumerate_from (start + 1) l'
  end.

(** ** JSON values, as Python holds them *)

(** What [json.loads] returns: [None], a [bool], an [int], a [float], a
    [str], a [list] or a [dict], whose keys are strings. *)
#[warnings="-register-all"]
Inductive json :=
  | JNull
  | JBool (b : bool)
  | JInt (z : Z)
  | JFloat (f : float)
  | JString (s : text)
  | JArray (items : list json)
  | JObject (fields : list (text * json)).

(** [bool(v)] *)
Definition truthy (v : json) : bool :=
  match v with
  | JNull => false
  | JBool b => b
  | JInt z => negb (z =? 0)%Z
  | JFloat f => negb (f =? 0)%float
  | JString s => match s with [] => false | _ :: _ => true end
  | JArray items => match items with [] => false | _ :: _ => true end
  | JObject fields => match fields with [] => false | _ :: _ => true end
  end.

(** [iter(v)]: the elements of a list, the characters of a string and
    the keys of a dictionary; [None] is the [TypeError] of a value that
    is not iterable. *)
Definition iterate (v : json) : option (list json) :=
  match v with
  | JArray items => Some items
  | JString s => Some (map (fun c => JString [c]) s)
  | JObject fields => Some (map (fun kv : text * json => JString kv.1) fields)
  | _ => None
  end.

(** [v.get(key, dflt)]: [None] is the [AttributeError] of a value that
    is not a dictionary. *)
Definition py_get (key : text) (dflt : json) (v : json) : option json :=
  match v with
  | JObject fields => Some (default dflt (dict_get key fields))
  | _ => None
  end.

(** [key in v] for a string [key]: a key of a dictionary, a substring
    of a string, an element of a list; [None] is the [TypeError] of any
    other value. *)
Definition py_in (key : text) (v : json) : option bool :=
  match v with
  | JObject fields => Some (bool_decide (is_Some (dict_get key fields)))
  | JString s => Some (contains key s)
  | JArray items =>
      Some (existsb (fun x => match x with
                              | JString s => bool_decide (s = key)
                              | _ => false
                              end) items)
  | _ => None
  end.

(** *** Numbers *)

(** A number of Python: an [int] or a [float]. *)
Inductive number :=
  | NInt (z : Z)
  | NFloat (f : float).

(** The values that are numbers; a [bool] is the [int] 0 or 1. *)
Definition as_number (v : json) : option number :=
  match v with
  | JBool b => Some (NInt (if b then 1 else 0))
  | JInt z => Some (NInt z)
  | JFloat f => Some (NFloat f)
  | _ => None
  end.

Definition of_number (n : number) : json :=
  match n with
  | NInt z => JInt z
  | NFloat f => JFloat f
  end.

(** [float(z)] for an [int]: [None] is the [OverflowError] of an
    integer whose nearest binary64 number is infinite. *)
Definition float_of_int (z : Z) : option float :=
  let f := float_of_Z z in
  if is_infinity f then None else Some f.

(** [float(n)] *)
Definition to_float (n : number) : option float :=
  match n with
  | NInt z => float_of_int z
  | NFloat f => Some f
  end.

(** An arithmetic operator on two numbers: exact on two integers; when
    an operand is a [float], the other is converted and the operation is
    that of binary64. *)
Definition num_op (int_op : Z -> Z -> Z) (float_op : float -> float -> float)
    (a b : number) : option number :=
  match a, b with
  | NInt x, NInt y => Some (NInt (int_op x y))
  | _, _ => x ← to_float a; y ← to_float b; Some (NFloat (float_op x y))
  end.

(** [a + b] and [a * b] on numbers *)
Definition num_add : number -> number -> option number := num_op Z.add PrimFloat.add.
Definition num_mul : number -> number -> option number := num_op Z.mul PrimFloat.mul.

Definition num_is_nan (n : number) : bool :=
  match n with
  | NInt _ => false
  | NFloat f => is_nan f
  end.

(** The place of a number that is not a NaN on the line of the real
    numbers and the two infinities: -1, 0 or 1 for minus infinity, a
    finite number and plus infinity, and for a finite number its value
    times [2^1074], which is an integer, [2^-1074] being the smallest
    positive binary64 number. *)
Definition num_place (n : number) : Z * Z :=
  match n with
  | NInt z => (0, z * 2 ^ 1074)%Z
  | NFloat f =>
      match Prim2SF f with
      | S754_zero _ => (0, 0)%Z
      | S754_infinity s => (if s then (-1)%Z else 1%Z, 0%Z)
      | S754_nan => (0, 0)%Z
      | S754_finite s m e => (0%Z, cond_Zopp s (Z.pos m * 2 ^ (e + 1074))%Z)
      end
  end.

(** [a < b] on numbers: the comparison of the exact values, also of an
    [int] with a [float]; false when one of them is a NaN. *)
Definition num_ltb (a b : number) : bool :=
  negb (num_is_nan a) && negb (num_is_nan b)
  && (Z.ltb (num_place a).1 (num_place b).1
      || (Z.eqb (num_place a).1 (num_place b).1 && Z.ltb (num_place a).2 (num_place b).2)).

(** *** The rest of the interpreter *)

(** What is not embedded: [+] and [*] when an operand is not a number
    ([None] when they raise), [str(v)] for a value that is not a string,
    [float(s)] for a string ([None] when it raises), and the order in
    which [sorted(..., reverse=True)] puts elements whose keys are not
    all numbers or hold a NaN: the positions, in the list given, of the
    elements of the result, from their keys ([None] when a comparison
    raises). *)
Class Python := {
  add_other : json -> json -> option json;
  mul_other : json -> json -> option json;
  str_other : json -> text;
  float_of_str : text -> option float;
  sorted_other : list json -> option (list nat)
}.

(** An interpreter for the examples, which is right on what they use:
    a string and a number do not add, and [float("8")] is 8.0. *)
Definition sample_python : Python :=
  {| add_other := fun _ _ => None;
     mul_other := fun _ _ => None;
     str_other := fun _ => [];
     float_of_str := fun s => if decide (s = str "8") then Some 8%float else None;
     sorted_other := fun _ => None |}.

Section PythonOps.
Context {P : Python}.

(** [a + b] *)
Definition py_add (a b : json) : option json :=
  match as_number a, as_number b with
  | Some x, Some y => of_number <$> num_add x y
  | _, _ => add_other a b
  end.

(** [a * b] *)
Definition py_mul (a b : json) : option json :=
  match as_number a, as_number b with
  | Some x, Some y => of_number <$> num_mul x y
  | _, _ => mul_other a b
  end.

(** [f"{v}"] *)
Definition py_format (v : json) : text :=
  match v with
  | JString s => s
  | _ => str_other v
  end.

(** [float(v)]: [None] is the [TypeError] of a value that is neither a
    number nor a string, the [ValueError] of a string that is not a
    number and the [OverflowError] of an integer. *)
Definition py_float (v : json) : option float :=
  match v with
  | JString s => float_of_str s
  | _ => n ← as_number v; to_float n
  end.

End PythonOps.

(** ** Round 2 data *)

(** One element of [stage2_results].  The rubric is the value of the
    key [evaluations] of the reply, whatever it is; [JNull] is the
    [None] of an output without a rubric. *)
Record stage2_result := {
  s2_model : text;
  s2_ranking : text;
  s2_parsed_ranking : list text;
  s2_rubric : json
}.

(** One element of the aggregate ranking. *)
Record aggregate_entry := {
  agg_model : text;
  total_score : float;
  average_rank : float;
  rankings_count : Z
}.

(** ** The aggregate scorer ([calculate_aggregate_rankings]) *)

(** [model_scores] and [model_counts] *)
Record tally := {
  model_scores : list (text * float);
  model_counts : list (text * Z)
}.

Definition empty_tally : tally := {| model_scores := []; model_counts := [] |}.

(** The running total and the evaluation count of a model, zero for a
    model that is not in the dictionaries. *)
Definition score_of (t : tally) (m : text) : float :=
  default 0%float (dict_get m (model_scores t)).
Definition count_of (t : tally) (m : text) : Z :=
  default 0%Z (dict_get m (model_counts t)).

(** [model_scores[subject] += weighted; model_counts[subject] += 1] *)
Definition add_score (subject : text) (weighted : float) (t : tally) : tally :=
  {| model_scores := dict_update subject (fun v => (v + weighted)%float) 0%float (model_scores t);
     model_counts := dict_update subject (fun c => (c + 1)%Z) 0%Z (model_counts t) |}.

Definition weight_of (evaluator_model subject_model : text) : float :=
  if decide (evaluator_model = subject_model) then 0.5%float else 1%float.

Definition mock_score (num_options position : Z) : float :=
  float_of_Z ((num_options - position + 1) * 10).

(** The body of [for position, label in enumerate(parsed_ranking, start=1)]. *)
Definition score_position (num_options : Z) (label_to_model : gmap text text)
    (evaluator_model : text) (t : tally) (pl : Z * text) : tally :=
  match label_to_model !! pl.2 with
  | Some subject_model =>
      add_score subject_model
        (mock_score num_options pl.1 * weight_of evaluator_model subject_model)%float t
  | None => t
  end.

Section Scorer.
Context {U : Unicode} {P : Python}.

(** [float(ev.get(key, dflt))] *)
Definition score_field (key : text) (dflt : json) (ev : json) : option float :=
  v ← py_get key dflt ev;
  py_float v.

(** The body of [for ev in rubric]: the label is looked up first, and
    the scores of an entry whose label names no candidate are not
    read. *)
Definition score_rubric_entry (label_to_model : gmap text text) (evaluator_model : text)
    (t : tally) (ev : json) : option tally :=
  label_short ← py_get (str "response_label") (JString []) ev;
  let label := RESPONSE_ ++ py_format label_short in
  match label_to_model !! label with
  | Some subject_model =>
      accuracy ← score_field (str "accuracy") (JInt 0) ev;
      reasoning ← score_field (str "reasoning") (JInt 0) ev;
      completeness ← score_field (str "completeness") (JInt 0) ev;
      clarity ← score_field (str "clarity") (JInt 0) ev;
      confidence ← score_field (str "confidence") (JFloat 1) ev;
      let raw_score := ((accuracy + reasoning + completeness + clarity) * confidence)%float in
      let weight := weight_of evaluator_model subject_model in
      Some (add_score subject_model (raw_score * weight)%float t)
  | None => Some t
  end.

(** The ranking the fallback branch scores: [parsed_ranking], or the
    text parse of the raw reply when that is empty. *)
Definition fallback_ranking (ranking : stage2_result) : option (list text) :=
  match s2_parsed_ranking ranking with
  | [] => parse_ranking_from_text (s2_ranking ranking)
  | parsed_ranking => Some parsed_ranking
  end.

(** The body of [for ranking in stage2_results]. *)
Definition score_evaluator (num_options : Z) (label_to_model : gmap text text)
    (t : tally) (ranking : stage2_result) : option tally :=
  let evaluator_model := s2_model ranking in
  let rubric := s2_rubric ranking in
  if truthy rubric then
    evs ← iterate rubric;
    foldM (score_rubric_entry label_to_model evaluator_model) t evs
  else
    parsed_ranking ← fallback_ranking ranking;
    Some (fold_left (score_position num_options label_to_model evaluator_model)
            (enumerate_from 1 parsed_ranking) t).

Definition aggregate_of (t : tally) : list aggregate_entry :=
  map (fun mt : text * float =>
         {| agg_model := mt.1;
            total_score := py_round2 mt.2;
            average_rank := py_round2 mt.2;
            rankings_count := default 0%Z (dict_get mt.1 (model_counts t)) |})
      (model_scores t).

Definition calculate_aggregate_rankings (stage2_results : list stage2_result)
    (label_to_model : gmap text text) : option (list aggregate_entry) :=
  let num_options := Z.of_nat (size label_to_model) in
  t ← foldM (score_evaluator num_options label_to_model) empty_tally stage2_results;
  Some (sort_desc total_score (aggregate_of t)).

End Scorer.

(** ** Round 2: reading one evaluator reply ([stage2_collect_rankings]) *)

(** [json.loads]: [None] is the exception it raises on a text that is
    not a JSON document. *)
Class JsonLib := { json_loads : text -> option json }.

Section Round2Reply.
Context {U : Unicode} {J : JsonLib} {P : Python}.

(** The reply without its Markdown fence. *)
Definition strip_fences (full_text : text) : text :=
  let clean_text := strip full_text in
  let clean_text :=
    if startswith (str "```json") clean_text then drop 7 clean_text
    else if startswith (str "```") clean_text then drop 3 clean_text
    else clean_text in
  let clean_text :=
    if endswith (str "```") clean_text
    then take (length clean_text - 3) clean_text
    else clean_text in
  strip clean_text.

(** The key of the sort:
    [(x.get('accuracy', 0) + x.get('reasoning', 0) + x.get('completeness', 0)
      + x.get('clarity', 0)) * x.get('confidence', 1.0)],
    on the values as they are in the entry. *)
Definition sort_key (x : json) : option json :=
  accuracy ← py_get (str "accuracy") (JInt 0) x;
  reasoning ← py_get (str "reasoning") (JInt 0) x;
  sum ← py_add accuracy reasoning;
  completeness ← py_get (str "completeness") (JInt 0) x;
  sum ← py_add sum completeness;
  clarity ← py_get (str "clarity") (JInt 0) x;
  sum ← py_add sum clarity;
  confidence ← py_get (str "confidence") (JFloat 1) x;
  py_mul sum confidence.

(** A key that [<] orders among its like: a number that is not a NaN. *)
Definition ordered_key (key : json) : option number :=
  n ← as_number key;
  if num_is_nan n then None else Some n.

(** [sorted(rubric, key=..., reverse=True)]: the keys are computed
    first, one for each element; on keys that are numbers the result is
    that of the stable sort, and on other keys that of the interpreter. *)
Definition sorted_evals (rubric : json) : option (list json) :=
  evs ← iterate rubric;
  keys ← mapM sort_key evs;
  match mapM ordered_key keys with
  | Some scores =>
      Some (map fst (stable_sort (fun x y : json * number => num_ltb x.2 y.2)
                       (zip evs scores)))
  | None =>
      positions ← sorted_other keys;
      Some (omap (fun i => evs !! i) positions)
  end.

(** [[f"Response {ev.get('response_label')}" for ev in sorted_evals if 'response_label' in ev]] *)
Definition rubric_ranking (evals : list json) : option (list text) :=
  tokens ← mapM (fun ev =>
                   labelled ← py_in (str "response_label") ev;
                   if labelled : bool then
                     label ← py_get (str "response_label") JNull ev;
                     Some [RESPONSE_ ++ py_format label]
                   else Some []) evals;
  Some (concat tokens).

(** The [try] block: the rubric and the ranking derived from it.  The
    rubric is assigned before the sort, and an exception of the sort or
    of the comprehension leaves the ranking empty. *)
Definition try_rubric (full_text : text) : json * list text :=
  match json_loads (strip_fences full_text) with
  | Some (JObject data) =>
      match dict_get (str "evaluations") data with
      | Some rubric => (rubric, default [] (sorted_evals rubric ≫= rubric_ranking))
      | None => (JNull, [])
      end
  | _ => (JNull, [])
  end.

(** The body of the loop over the replies, for one successful reply. *)
Definition evaluate_reply (model full_text : text) : option stage2_result :=
  let (rubric, parsed_ranking) := try_rubric full_text in
  parsed_ranking ← match parsed_ranking with
                   | [] => parse_ranking_from_text full_text
                   | _ :: _ => Some parsed_ranking
                   end;
  Some {| s2_model := model;
          s2_ranking := full_text;
          s2_parsed_ranking := parsed_ranking;
          s2_rubric := rubric |}.

End Round2Reply.

(** ** Configuration ([config.py]) *)

Definition COUNCIL_MODELS : list text :=
  [str "openai/gpt-5.1"; str "google/gemini-3-pro-preview";
   str "anthropic/claude-sonnet-4.5"; str "x-ai/grok-4"].

Definition ROUTER_MODEL : text := str "google/gemini-2.5-flash".

Definition COUNCIL_PRESETS : list (text * list text) :=
  [(str "CODING", [str "deepseek/deepseek-coder"; str "anthropic/claude-3.5-sonnet"; str "openai/gpt-4o"]);
   (str "MATH", [str "openai/o1-mini"; str "google/gemini-1.5-pro"; str "anthropic/claude-3.5-sonnet"]);
   (str "CREATIVE_WRITING", [str "anthropic/claude-3-opus"; str "google/gemini-2.5-flash"; str "mistralai/mixtral-8x7b-instruct"]);
   (str "FACTUAL_RESEARCH", [str "perplexity/llama-3.1-sonar-large-128k-online"; str "openai/gpt-4o"; str "x-ai/grok-2"]);
   (str "REASONING", [str "openai/o1"; str "anthropic/claude-3.5-sonnet"; str "google/gemini-1.5-pro"]);
   (str "GENERAL", COUNCIL_MODELS)].

Definition CHAIRMAN_MODEL : text := str "google/gemini-3-pro-preview".

Definition STAGE1_SYSTEM_PROMPT : text :=
  str "You are an expert advisor. Respond directly to the prompt without ANY AI "
  ++ str "affirmations, filler, or conversational padding "
  ++ str "(e.g., no 'Certainly!', 'Of course!', 'Great question!', 'I\'d be happy to', 'Here is', 'I hope this helps'). "
  ++ str "Use a strict academic register. Focus entirely on data and logic.".

Definition STAGE2_SYSTEM_PROMPT : text :=
  str "You are a critical evaluator. Respond directly without ANY AI affirmations, "
  ++ str "filler, or conversational padding. Use a strict academic register. "
  ++ str "Be bluntly critical of the responses you are evaluating. Do not use diplomatic "
  ++ str "softening or false praise. Focus entirely on flaws, data, and logic. "
  ++ str "RETURN ONLY A RAW JSON OBJECT with no markdown fences, no preamble, and no explanation. "
  ++ str "The schema must be EXACTLY: {" ++ dquote ++ str "evaluations" ++ dquote ++ str ": [{"
  ++ dquote ++ str "response_label" ++ dquote ++ str ": " ++ dquote ++ str "A" ++ dquote ++ str ", "
  ++ dquote ++ str "accuracy" ++ dquote ++ str ": 8, "
  ++ dquote ++ str "reasoning" ++ dquote ++ str ": 9, "
  ++ dquote ++ str "completeness" ++ dquote ++ str ": 7, "
  ++ dquote ++ str "clarity" ++ dquote ++ str ": 8, "
  ++ dquote ++ str "confidence" ++ dquote ++ str ": 0.9}, ...]} "
  ++ str "where scores are 1-10 and confidence is 0.0-1.0 representing how certain you are in your own assessment.".

(** ** The model backends ([openrouter.py], an interface) *)

(** A chat message, [{"role": ..., "content": ...}]. *)
Record message := { role : text; content : text }.

(** The reply of a backend: a dictionary of text fields. *)
Definition reply := list (text * text).

(** The three calls of the collaborator, on a network state [W] that each
    call may change: a single call, the concurrent fan-out (a dictionary
    from model to optional reply, in its iteration order) and the
    streaming call, whose fragments are [None] when the stream raises. *)
Class OpenRouter (W : Type) := {
  net_query_model : text -> list message -> float -> W -> option reply * W;
  net_query_models_parallel : list text -> list message -> W -> list (text * option reply) * W;
  net_stream_model : text -> list message -> W -> option (list text) * W
}.

(** An outbound call, as recorded in the log of the run. *)
Inductive event :=
  | CallQueryModel (model : text) (messages : list message) (timeout : float)
  | CallQueryModelsParallel (models : list text) (messages : list message)
  | CallStreamModel (model : text) (messages : list message).

Record world (W : Type) := { net : W; calls : list event }.
Arguments net {W} _.
Arguments calls {W} _.

(** A coroutine of the engine: it reads and changes the world, and
    returns or raises. *)
Definition M (W A : Type) : Type := world W -> option (A * world W).

Definition ret {W A} (a : A) : M W A := fun w => Some (a, w).

Definition bindM {W A B} (m : M W A) (k : A -> M W B) : M W B :=
  fun w => match m w with
           | Some (a, w') => k a w'
           | None => None
           end.

(** An exception of the pure code, raised into the coroutine. *)
Definition lift {W A} (o : option A) : M W A :=
  fun w => match o with Some a => Some (a, w) | None => None end.

Notation "x <- m ;; k" := (bindM m (fun x => k))
  (at level 100, m at next level, right associativity).

Section Calls.
Context {W : Type} {O : OpenRouter W}.

Definition query_model (model : text) (messages : list message) (timeout : float)
  : M W (option reply) :=
  fun w => let (r, n) := net_query_model model messages timeout (net w) in
           Some (r, {| net := n; calls := calls w ++ [CallQueryModel model messages timeout] |}).

Definition query_models_parallel (models : list text) (messages : list message)
  : M W (list (text * option reply)) :=
  fun w => let (r, n) := net_query_models_parallel models messages (net w) in
           Some (r, {| net := n; calls := calls w ++ [CallQueryModelsParallel models messages] |}).

Definition stream_model (model : text) (messages : list message) : M W (list text) :=
  fun w => let (r, n) := net_stream_model model messages (net w) in
           match r with
           | Some chunks =>
               Some (chunks, {| net := n; calls := calls w ++ [CallStreamModel model messages] |})
           | None => None
           end.

End Calls.

(** ** The rounds ([council.py]) *)

(** One element of [stage1_results]. *)
Record stage1_result := { s1_model : text; s1_response : text }.

(** The result of Round 3: [{"model", "done", "response"}], where the
    key [done] is missing from the error result. *)
Record final_result := {
  fr_model : text;
  fr_done : option bool;
  fr_response : text
}.

(** What the synthesis generator yields. *)
Inductive chunk :=
  | Token (t : text)
  | Sentinel (r : final_result).

(** The metadata dictionary; a key that is missing is [None]. *)
Record metadata := {
  md_label_to_model : option (gmap text text);
  md_aggregate_rankings : option (list aggregate_entry);
  md_detected_category : text
}.

Definition MANUAL_OVERRIDE : text := str "MANUAL_OVERRIDE".
Definition GENERAL : text := str "GENERAL".

Definition error_result : final_result :=
  {| fr_model := str "error";
     fr_done := None;
     fr_response := str "At least two models are required for consensus. Please try again." |}.

Section Council.
Context {U : Unicode} {J : JsonLib} {P : Python} {W : Type} {O : OpenRouter W}.

(** [stage1_collect_responses] *)
Definition stage1_collect_responses (user_query : text) (council_models : option (list text))
  : M W (list stage1_result) :=
  let messages :=
    [ {| role := str "system"; content := STAGE1_SYSTEM_PROMPT |};
      {| role := str "user"; content := user_query |} ] in
  let active_models := default COUNCIL_MODELS council_models in
  responses <- query_models_parallel active_models messages ;;
  ret (omap (fun mr : text * option reply =>
               match mr.2 with
               | Some response =>
                   Some {| s1_model := mr.1;
                           s1_response := default [] (dict_get (str "content") response) |}
               | None => None
               end) responses).

(** [[chr(65 + i) for i in range(n)]] *)
Definition labels (n : nat) : list text :=
  map (fun i => [N.of_nat (65 + i)]) (seq 0 n).

(** The dictionary comprehension over [zip(labels, stage1_results)]. *)
Definition make_label_to_model (stage1_results : list stage1_result) : gmap text text :=
  fold_left (fun m lr => <[RESPONSE_ ++ lr.1 := s1_model lr.2]> m)
            (zip (labels (length stage1_results)) stage1_results) ∅.

Definition ranking_prompt (user_query : text) (stage1_results : list stage1_result) : text :=
  let responses_text :=
    join (nl ++ nl)
      (map (fun lr => RESPONSE_ ++ lr.1 ++ str ":" ++ nl ++ s1_response lr.2)
           (zip (labels (length stage1_results)) stage1_results)) in
  str "You are evaluating different responses to the following question:" ++ nl
  ++ nl
  ++ str "Question: " ++ user_query ++ nl
  ++ nl
  ++ str "Here are the responses from different models (anonymized):" ++ nl
  ++ nl
  ++ responses_text ++ nl
  ++ nl
  ++ str "Now provide your evaluation:".

(** [stage2_collect_rankings] *)
Definition stage2_collect_rankings (user_query : text) (stage1_results : list stage1_result)
    (council_models : option (list text))
  : M W (list stage2_result * gmap text text) :=
  let label_to_model := make_label_to_model stage1_results in
  let messages :=
    [ {| role := str "system"; content := STAGE2_SYSTEM_PROMPT |};
      {| role := str "user"; content := ranking_prompt user_query stage1_results |} ] in
  let active_models := default COUNCIL_MODELS council_models in
  responses <- query_models_parallel active_models messages ;;
  stage2_results <-
    lift (mapM (fun mr : text * reply =>
                  evaluate_reply mr.1 (default [] (dict_get (str "content") mr.2)))
               (omap (fun mr : text * option reply =>
                        match mr.2 with Some r => Some (mr.1, r) | None => None end)
                     responses)) ;;
  ret (stage2_results, label_to_model).

Definition chairman_prompt (user_query : text) (stage1_results : list stage1_result)
    (stage2_results : list stage2_result) : text :=
  let stage1_text :=
    join (nl ++ nl)
      (map (fun r => str "Model: " ++ s1_model r ++ nl ++ str "Response: " ++ s1_response r)
           stage1_results) in
  let stage2_text :=
    join (nl ++ nl)
      (map (fun r => str "Model: " ++ s2_model r ++ nl ++ str "Ranking: " ++ s2_ranking r)
           stage2_results) in
  str "You are the Chairman of MetaReasoner. Multiple AI models have provided responses to a user's question, and then ranked each other's responses." ++ nl
  ++ nl
  ++ str "Original Question: " ++ user_query ++ nl
  ++ nl
  ++ str "STAGE 1 - Individual Responses:" ++ nl
  ++ stage1_text ++ nl
  ++ nl
  ++ str "STAGE 2 - Peer Rankings:" ++ nl
  ++ stage2_text ++ nl
  ++ nl
  ++ str "Your task as Chairman is to synthesize all of this information into a single, comprehensive, accurate answer to the user's original question. Consider:" ++ nl
  ++ str "- The individual responses and their insights" ++ nl
  ++ str "- The peer rankings and what they reveal about response quality" ++ nl
  ++ str "- Any patterns of agreement or disagreement" ++ nl
  ++ nl
  ++ str "Provide a clear, well-reasoned final answer that represents the council's collective wisdom:".

(** [stage3_synthesize_final]: everything the generator yields. *)
Definition stage3_synthesize_final (user_query : text) (stage1_results : list stage1_result)
    (stage2_results : list stage2_result) : M W (list chunk) :=
  let messages :=
    [ {| role := str "user";
         content := chairman_prompt user_query stage1_results stage2_results |} ] in
  chunks <- stream_model CHAIRMAN_MODEL messages ;;
  ret (map Token chunks
       ++ [Sentinel {| fr_model := CHAIRMAN_MODEL;
                       fr_done := Some true;
                       fr_response := concat chunks |}]).

Definition classify_prompt (user_query : text) : text :=
  str "Analyze the following user query and classify it into EXACTLY ONE of the following categories:" ++ nl
  ++ str "CODING" ++ nl
  ++ str "MATH" ++ nl
  ++ str "CREATIVE_WRITING" ++ nl
  ++ str "FACTUAL_RESEARCH" ++ nl
  ++ str "REASONING" ++ nl
  ++ str "GENERAL" ++ nl
  ++ nl
  ++ str "Query: " ++ user_query ++ nl
  ++ nl
  ++ str "Return ONLY the category name. No other text.".

(** The loop [for cat in COUNCIL_PRESETS.keys()] of [classify_query]. *)
Fixpoint first_category (cats : list text) (content : text) : option text :=
  match cats with
  | [] => None
  | cat :: cats' => if contains cat content then Some cat else first_category cats' content
  end.

(** [classify_query] *)
Definition classify_query (user_query : text) : M W text :=
  let messages := [ {| role := str "user"; content := classify_prompt user_query |} ] in
  response <- query_model ROUTER_MODEL messages 10 ;;
  match response with
  | Some ((_ :: _) as response) =>
      let content := upper (strip (default [] (dict_get (str "content") response))) in
      let content :=
        if contains nl content then strip (hd [] (split nl content)) else content in
      ret (default GENERAL (first_category (map fst COUNCIL_PRESETS) content))
  | _ => ret GENERAL
  end.

(** [get_council_for_query] *)
Definition get_council_for_query (user_query : text) (user_override : option (list text))
  : M W (list text * text) :=
  match user_override with
  | Some ((_ :: _) as user_override) => ret (user_override, MANUAL_OVERRIDE)
  | _ =>
      category <- classify_query user_query ;;
      ret (default (default [] (dict_get GENERAL COUNCIL_PRESETS))
                   (dict_get category COUNCIL_PRESETS), category)
  end.

(** The loop of [run_full_council] over the synthesis generator. *)
Definition last_done (chunks : list chunk) : option final_result :=
  fold_left (fun acc c =>
               match c with
               | Sentinel r => if default false (fr_done r) then Some r else acc
               | Token _ => acc
               end) chunks None.

(** [run_full_council] *)
Definition run_full_council (user_query : text) (council_models : option (list text))
  : M W (list stage1_result * list stage2_result * option final_result * metadata) :=
  resolved <- get_council_for_query user_query council_models ;;
  let '(resolved_models, detected_category) := resolved in
  stage1_results <- stage1_collect_responses user_query (Some resolved_models) ;;
  if (length stage1_results <? 2)%nat then
    ret (stage1_results, [], Some error_result,
         {| md_label_to_model := None;
            md_aggregate_rankings := None;
            md_detected_category := detected_category |})
  else
    round2 <- stage2_collect_rankings user_query stage1_results (Some resolved_models) ;;
    let '(stage2_results, label_to_model) := round2 in
    aggregate_rankings <- lift (calculate_aggregate_rankings stage2_results label_to_model) ;;
    chunks <- stage3_synthesize_final user_query stage1_results stage2_results ;;
    let stage3_result := last_done chunks in
    ret (stage1_results, stage2_results, stage3_result,
         {| md_label_to_model := Some label_to_model;
            md_aggregate_rankings := Some aggregate_rankings;
            md_detected_category := detected_category |}).

End Council.

(** ** The rating engine ([storage.py]) *)

(** The columns of the table [rankings] the computation reads. *)
Record ranking_row := {
  message_id : Z;
  evaluator_model : text;
  subject_model : text;
  rank_position : Z
}.

(** The columns of the table [model_responses] the computation reads. *)
Record response_row := {
  mr_message_id : Z;
  mr_model : text;
  mr_stage : Z
}.

(** The persisted history: the rows of the two tables, in the order of
    their row ids. *)
Record database := {
  rankings : list ranking_row;
  model_responses : list response_row
}.

(** The order of the BINARY collation on text: lexicographic on the
    code points. *)
Fixpoint text_ltb (a b : text) : bool :=
  match a, b with
  | _, [] => false
  | [], _ :: _ => true
  | x :: a', y :: b' => (x <? y)%N || ((x =? y)%N && text_ltb a' b')
  end.

(** [ORDER BY message_id, evaluator_model, rank_position ASC] *)
Definition row_ltb (a b : ranking_row) : bool :=
  (message_id a <? message_id b)%Z
  || ((message_id a =? message_id b)%Z
      && (text_ltb (evaluator_model a) (evaluator_model b)
          || (bool_decide (evaluator_model a = evaluator_model b)
              && (rank_position a <? rank_position b)%Z))).

(** The first [SELECT]: the rows whose rank position is not the sentinel
    99, in the order of the [ORDER BY]; rows it leaves tied come in
    table order. *)
Definition select_rankings (db : database) : list ranking_row * database :=
  (stable_sort (fun x y => row_ltb y x)
     (filter (fun r => rank_position r ≠ 99%Z) (rankings db)), db).

(** The second [SELECT]: the Round-1 rows. *)
Definition select_stage1 (db : database) : list response_row * database :=
  (filter (fun r => mr_stage r = 1%Z) (model_responses db), db).

(** [float.__pow__]: [None] is [OverflowError]. *)
Class Libm := { py_pow : float -> float -> option float }.

(** [x / y] on floats: [None] is [ZeroDivisionError]. *)
Definition py_div (x y : float) : option float :=
  if (y =? 0)%float then None else Some (x / y)%float.

(** [elo], [wins] and [losses] *)
Record ratings := {
  elo : list (text * float);
  wins : list (text * Z);
  losses : list (text * Z)
}.

(** One element of the result. *)
Record rating_record := {
  rr_model : text;
  rr_elo : Z;
  rr_wins : Z;
  rr_losses : Z;
  rr_appearances : Z
}.

Definition K_FACTOR : float := 32%float.
Definition BASE_RATING : float := 1000%float.

Section Elo.
Context {L : Libm}.

(** [1.0 / (1.0 + 10.0 ** ((other - own) / 400.0))] *)
Definition expected (own other : float) : option float :=
  p ← py_pow 10 ((other - own) / 400)%float;
  py_div 1 (1 + p)%float.

(** The body of the loop over [j], for the rows at [i] and [j]. *)
Definition elo_pair (a : ranking_row) (st : ratings) (b : ranking_row) : option ratings :=
  let model_a := subject_model a in
  let model_b := subject_model b in
  let rank_a := rank_position a in
  let rank_b := rank_position b in
  if decide (rank_a = rank_b) then Some st
  else
    let winner := if (rank_a <? rank_b)%Z then model_a else model_b in
    let loser := if (rank_a <? rank_b)%Z then model_b else model_a in
    let elo1 := dict_touch winner BASE_RATING (elo st) in
    let rating_w := default BASE_RATING (dict_get winner elo1) in
    let elo2 := dict_touch loser BASE_RATING elo1 in
    let rating_l := default BASE_RATING (dict_get loser elo2) in
    expected_w ← expected rating_w rating_l;
    expected_l ← expected rating_l rating_w;
    let elo3 := dict_set winner (rating_w + K_FACTOR * (1 - expected_w))%float elo2 in
    let elo4 := dict_set loser (rating_l + K_FACTOR * (0 - expected_l))%float elo3 in
    Some {| elo := elo4;
            wins := dict_update winner (fun c => (c + 1)%Z) 0%Z (wins st);
            losses := dict_update loser (fun c => (c + 1)%Z) 0%Z (losses st) |}.

(** The two nested loops over one group: [i] runs over the rows, [j]
    over the rows after [i]. *)
Fixpoint elo_group (st : ratings) (ranks : list ranking_row) : option ratings :=
  match ranks with
  | [] => Some st
  | a :: rest =>
      st' ← foldM (elo_pair a) st rest;
      elo_group st' rest
  end.

(** [groups[(message_id, evaluator_model)].append(r)] over the rows. *)
Definition group_rows (ranking_rows : list ranking_row)
  : list (Z * text * list ranking_row) :=
  fold_left (fun groups r =>
               dict_update (message_id r, evaluator_model r) (fun l => l ++ [r]) [] groups)
            ranking_rows [].

(** The loop over the Round-1 rows: the appearance counts, and the
    rating of every model that appears initialised. *)
Definition count_appearances (stage1_rows : list response_row)
  : list (text * Z) * list (text * float) :=
  fold_left (fun acc r =>
               (dict_update (mr_model r) (fun c => (c + 1)%Z) 0%Z acc.1,
                dict_touch (mr_model r) BASE_RATING acc.2))
            stage1_rows ([], []).

(** The loop that builds [results]; [round] may raise. *)
Definition rating_results (st : ratings) (appearances : list (text * Z))
  : option (list rating_record) :=
  mapM (fun mr : text * float =>
          r ← py_round mr.2;
          Some {| rr_model := mr.1;
                  rr_elo := r;
                  rr_wins := default 0%Z (dict_get mr.1 (wins st));
                  rr_losses := default 0%Z (dict_get mr.1 (losses st));
                  rr_appearances := default 0%Z (dict_get mr.1 appearances) |})
       (elo st).

(** The computation on the fetched rows. *)
Definition elo_from_rows (ranking_rows : list ranking_row) (stage1_rows : list response_row)
  : option (list rating_record) :=
  let (appearances, elo0) := count_appearances stage1_rows in
  let groups := group_rows ranking_rows in
  st ← foldM elo_group {| elo := elo0; wins := []; losses := [] |} (map snd groups);
  results ← rating_results st appearances;
  Some (stable_sort (fun x y => (rr_elo x <? rr_elo y)%Z) results).

(** [calculate_elo_ratings], on the persisted history: the result, or
    [None] when it raises, and the history after the call. *)
Definition calculate_elo_ratings (db : database) : option (list rating_record) * database :=
  let (ranking_rows, db1) := select_rankings db in
  let (stage1_rows, db2) := select_stage1 db1 in
  (elo_from_rows ranking_rows stage1_rows, db2).

End Elo.

(** ** The scenario of the test suite: one evaluator, two candidates *)

Definition two_candidates : gmap text text :=
  <[str "Response B" := str "model_2"]> (<[str "Response A" := str "model_1"]> ∅).

(** [model_1] ranks itself first and [model_2] second. *)
Definition self_first_evaluation : stage2_result :=
  {| s2_model := str "model_1";
     s2_ranking := str "FINAL RANKING:" ++ nl ++ str "1. Response A" ++ nl ++ str "2. Response B";
     s2_parsed_ranking := [str "Response A"; str "Response B"];
     s2_rubric := JNull |}.

(** An evaluator that ranks the first candidate only. *)
Definition first_only_evaluation : stage2_result :=
  {| s2_model := str "model_1";
     s2_ranking := str "FINAL RANKING:" ++ nl ++ str "1. Response A";
     s2_parsed_ranking := [str "Response A"];
     s2_rubric := JNull |}.

(** ** Sample replies *)

(** ["name": value] *)
Definition json_field (name value : text) : text :=
  dquote ++ name ++ dquote ++ str ": " ++ value.

(** A rubric entry as the evaluator writes it. *)
Definition json_entry (label accuracy reasoning completeness clarity confidence : text) : text :=
  str "{" ++ json_field (str "response_label") (dquote ++ label ++ dquote) ++ str ", "
  ++ json_field (str "accuracy") accuracy ++ str ", "
  ++ json_field (str "reasoning") reasoning ++ str ", "
  ++ json_field (str "completeness") completeness ++ str ", "
  ++ json_field (str "clarity") clarity ++ str ", "
  ++ json_field (str "confidence") confidence ++ str "}".

(** A reply with a rubric of three entries, the last two of the same
    score. *)
Definition rubric_reply : text :=
  str "```json" ++ nl
  ++ str "{" ++ json_field (str "evaluations") (str "[") 
  ++ json_entry (str "A") (str "8") (str "9") (str "7") (str "8") (str "0.5") ++ str ", "
  ++ json_entry (str "B") (str "9") (str "9") (str "9") (str "9") (str "1.0") ++ str ", "
  ++ json_entry (str "C") (str "9") (str "9") (str "9") (str "9") (str "1.0")
  ++ str "]}" ++ nl ++ str "```".

(** An entry as [json.loads] reads it: the scores are integers, the
    confidence is a fraction. *)
Definition entry (label : text) (a r c cl : Z) (conf : float) : json :=
  JObject [ (str "response_label", JString label); (str "accuracy", JInt a);
            (str "reasoning", JInt r); (str "completeness", JInt c);
            (str "clarity", JInt cl); (str "confidence", JFloat conf) ].

Definition sample_rubric : json :=
  JArray [entry (str "A") 8 9 7 8 0.5; entry (str "B") 9 9 9 9 1; entry (str "C") 9 9 9 9 1].

(** A reply that is a JSON object with an [evaluations] array whose one
    entry has no label, and whose text holds a ranking marker. *)
Definition unlabelled_reply : text :=
  str "{" ++ json_field (str "evaluations") (str "[{")
  ++ json_field (str "accuracy") (str "7") ++ str ", "
  ++ json_field (str "note") (dquote ++ str "FINAL RANKING: 1. Response A" ++ dquote)
  ++ str "}]}".

Definition unlabelled_entry : json :=
  JObject [ (str "accuracy", JInt 7);
            (str "note", JString (str "FINAL RANKING: 1. Response A")) ].

(** A reply whose [evaluations] is a number, and one whose only entry
    has a label and a score that is a string. *)
Definition number_reply : text :=
  str "{" ++ json_field (str "evaluations") (str "5") ++ str "}".

Definition string_score_reply : text :=
  str "{" ++ json_field (str "evaluations") (str "[{")
  ++ json_field (str "response_label") (dquote ++ str "A" ++ dquote) ++ str ", "
  ++ json_field (str "accuracy") (dquote ++ str "8" ++ dquote)
  ++ str "}]}".

Definition string_score_entry : json :=
  JObject [ (str "response_label", JString (str "A")); (str "accuracy", JString (str "8")) ].

(** [json.loads] on the sample replies. *)
Definition sample_json : JsonLib :=
  {| json_loads := fun t =>
       if decide (t = strip_fences (U := ascii_tables) rubric_reply)
       then Some (JObject [(str "evaluations", sample_rubric)])
       else if decide (t = unlabelled_reply)
       then Some (JObject [(str "evaluations", JArray [unlabelled_entry])])
       else if decide (t = number_reply)
       then Some (JObject [(str "evaluations", JInt 5)])
       else if decide (t = string_score_reply)
       then Some (JObject [(str "evaluations", JArray [string_score_entry])])
       else None |}.

(** ** A network on which every call fails *)

Definition dead_network : OpenRouter unit :=
  {| net_query_model := fun _ _ _ w => (None, w);
     net_query_models_parallel := fun models _ w => (map (fun m => (m, None)) models, w);
     net_stream_model := fun _ _ w => (None, w) |}.

Definition three_models : list text := [str "model_1"; str "model_2"; str "model_3"].

(** The messages of the two calls made before Round 2. *)
Definition classify_messages (user_query : text) : list message :=
  [ {| role := str "user"; content := classify_prompt user_query |} ].

Definition stage1_messages (user_query : text) : list message :=
  [ {| role := str "system"; content := STAGE1_SYSTEM_PROMPT |};
    {| role := str "user"; content := user_query |} ].

(** A network on which [model_timeout] fails and any other model
    answers. *)
Definition partial_network : OpenRouter unit :=
  {| net_query_model := fun _ _ _ w => (None, w);
     net_query_models_parallel := fun models _ w =>
       (map (fun m => (m, if decide (m = str "model_timeout")
                          then None
                          else Some [(str "content", str "Success content")])) models, w);
     net_stream_model := fun _ _ w => (None, w) |}.

(** ** The pairs of a group, and sample histories *)

(** The pairs [(ranks[i], ranks[j])] with [i < j], in the order of the
    two loops. *)
Fixpoint pairs_of (ranks : list ranking_row) : list (ranking_row * ranking_row) :=
  match ranks with
  | [] => []
  | a :: rest => map (pair a) rest ++ pairs_of rest
  end.

(** The update of the ratings for the pair [p]. *)
Definition elo_step {L : Libm} (st : ratings) (p : ranking_row * ranking_row) : option ratings :=
  elo_pair p.1 st p.2.

(** The ratings before any update. *)
Definition no_ratings : ratings := {| elo := []; wins := []; losses := [] |}.

(** A power function that raises on every argument. *)
Definition pow_raises : Libm := {| py_pow := fun _ _ => None |}.

(** The power function at the exponent 0, where [10.0 ** 0.0] is [1.0];
    it raises elsewhere. *)
Definition pow_at_zero : Libm :=
  {| py_pow := fun _ x => if (x =? 0)%float then Some 1%float else None |}.

Definition row (m : Z) (evaluator subject : text) (position : Z) : ranking_row :=
  {| message_id := m; evaluator_model := evaluator;
     subject_model := subject; rank_position := position |}.

(** One round with the candidates [a], [b] and [c]: the evaluator [a]
    ranks [a] first and [b] second, and nobody ranks [c]. *)
Definition sample_history : database :=
  {| rankings := [row 1 (str "a") (str "b") 2; row 1 (str "a") (str "a") 1;
                  row 1 (str "b") (str "c") 99];
     model_responses :=
       [ {| mr_message_id := 1; mr_model := str "a"; mr_stage := 1 |};
         {| mr_message_id := 1; mr_model := str "b"; mr_stage := 1 |};
         {| mr_message_id := 1; mr_model := str "c"; mr_stage := 1 |};
         {| mr_message_id := 1; mr_model := str "a"; mr_stage := 2 |} ] |}.

(** ** Notions used in the statements *)

(** Every model with a total has been evaluated at least once. *)
Definition tally_ok (t : tally) : Prop :=
  forall m, (0 <= count_of t m)%Z
            /\ (In m (map fst (model_scores t)) -> (1 <= count_of t m)%Z).

(** A subject a label names. *)
Definition names (label_to_model : gmap text text) (lab m : text) : Prop := label_to_model !! lab = Some m.

(** *** The typed reading of a rubric *)

(** An entry whose scores are numbers and whose label is a string.  A
    field is [None] when the key is missing from the object; a score is
    the [float] its number converts to. *)
Record rubric_entry := {
  response_label : option text;
  accuracy : option float;
  reasoning : option float;
  completeness : option float;
  clarity : option float;
  confidence : option float
}.

(** The score under [key]: [Some None] when the key is missing, [None]
    when the value is not a number or is an integer that is too large
    for a [float]. *)
Definition as_score (key : text) (fields : list (text * json)) : option (option float) :=
  match dict_get key fields with
  | None => Some None
  | Some v => n ← as_number v; f ← to_float n; Some (Some f)
  end.

(** The typed reading of an entry, [None] when it has none. *)
Definition as_entry (ev : json) : option rubric_entry :=
  match ev with
  | JObject fields =>
      label ← match dict_get (str "response_label") fields with
              | None => Some None
              | Some (JString s) => Some (Some s)
              | Some _ => None
              end;
      a ← as_score (str "accuracy") fields;
      r ← as_score (str "reasoning") fields;
      c ← as_score (str "completeness") fields;
      cl ← as_score (str "clarity") fields;
      conf ← as_score (str "confidence") fields;
      Some {| response_label := label; accuracy := a; reasoning := r;
              completeness := c; clarity := cl; confidence := conf |}
  | _ => None
  end.

(** The typed reading of a rubric: an array of such entries. *)
Definition as_rubric (rubric : json) : option (list rubric_entry) :=
  match rubric with
  | JArray items => mapM as_entry items
  | _ => None
  end.

(** The values that are dictionaries. *)
Definition is_object (v : json) : bool :=
  match v with
  | JObject _ => true
  | _ => false
  end.

(** The token of an entry that has a label. *)
Definition entry_token {P : Python} (ev : json) : option text :=
  match ev with
  | JObject fields =>
      match dict_get (str "response_label") fields with
      | Some label => Some (RESPONSE_ ++ py_format label)
      | None => None
      end
  | _ => None
  end.

(** The scorer on the typed reading of an entry. *)
Definition score_entry (label_to_model : gmap text text) (evaluator_model : text)
    (t : tally) (ev : rubric_entry) : tally :=
  match label_to_model !! (RESPONSE_ ++ default [] (response_label ev)) with
  | Some subject_model =>
      add_score subject_model
        ((default 0 (accuracy ev) + default 0 (reasoning ev)
          + default 0 (completeness ev) + default 0 (clarity ev))
         * default 1 (confidence ev)
         * weight_of evaluator_model subject_model)%float t
  | None => t
  end.

Section Refers.
Context {U : Unicode} {P : Python}.

(** The label of an entry, as the scorer and the store make it; [None]
    for a value that is not a dictionary. *)
Definition entry_label (ev : json) : option text :=
  label_short ← py_get (str "response_label") (JString []) ev;
  Some (RESPONSE_ ++ py_format label_short).

(** What one evaluator's output refers to: the entries of its rubric
    when it has one, the labels of its ordinal ranking otherwise. *)
Definition refers_to (label_to_model : gmap text text) (ranking : stage2_result) (m : text) : Prop :=
  if truthy (s2_rubric ranking) then
    exists evs ev label,
      iterate (s2_rubric ranking) = Some evs /\ In ev evs
      /\ entry_label ev = Some label /\ names label_to_model label m
  else
    exists labs lab, fallback_ranking ranking = Some labs /\ In lab labs
                     /\ names label_to_model lab m.

(** The rubric of an output is one the scorer does not raise on: it is
    false as a condition, or an array of entries with a typed reading. *)
Definition scorable (ranking : stage2_result) : Prop :=
  truthy (s2_rubric ranking) = false \/ is_Some (as_rubric (s2_rubric ranking)).

End Refers.

(** The scores one ordinal ranking gives to [subject], in the order of
    the positions. *)
Definition position_scores (n : Z) (label_to_model : gmap text text)
    (evaluator_model subject : text) (pls : list (Z * text)) : list float :=
  omap (fun pl : Z * text =>
          if decide (label_to_model !! pl.2 = Some subject)
          then Some (float_of_Z ((n - pl.1 + 1) * 10)
                     * (if decide (evaluator_model = subject) then 0.5 else 1))%float
          else None) pls.

(** A number that is not a NaN, placed in the lexicographic order of
    three integers: the class (infinite, finite or zero, with the sign),
    then the exponent and the mantissa. *)
Definition sf_key (x : spec_float) : Z * Z * Z :=
  match x with
  | S754_zero _ => (0, 0, 0)%Z
  | S754_infinity s => (if s then (-2)%Z else 2%Z, 0%Z, 0%Z)
  | S754_nan => (0, 0, 0)%Z
  | S754_finite s m e => if s then ((-1)%Z, (- e)%Z, Z.neg m) else (1%Z, e, Z.pos m)
  end.

Definition lex_lt (a b : Z * Z * Z) : Prop :=
  (a.1.1 < b.1.1 \/ (a.1.1 = b.1.1 /\ (a.1.2 < b.1.2 \/ (a.1.2 = b.1.2 /\ a.2 < b.2))))%Z.

Section Order.
Context {A : Type} (pass : A -> A -> bool).

(** [a] may stand ahead of [b] in the result. *)
Definition in_order (a b : A) : Prop := pass a b = false.

(** [x] ties with [k]: neither passes the other. *)
Definition ties (k x : A) : bool := negb (pass k x) && negb (pass x k).

End Order.

(** A model is untouched: its rating is the base rating and it has no
    win and no loss. *)
Definition untouched (model : text) (st : ratings) : Prop :=
  dict_get model (elo st) = Some BASE_RATING
  /\ dict_get model (wins st) = None
  /\ dict_get model (losses st) = None.

(** ** Sample texts *)

Definition critique_text : text :=
  nl ++ str "I have reviewed the answers. Response A is okay, but Response B is better." ++ nl
  ++ str "Response C is also good." ++ nl ++ nl.

Definition ranking_tail : text :=
  nl ++ str "1. Response B" ++ nl ++ str "2. Response C" ++ nl.

Definition unmarked_text : text :=
  str "I think Response A is the best overall, followed by Response B.".

Definition repeated_text : text :=
  str "FINAL RANKING:" ++ nl ++ str "1. Response A" ++ nl ++ str "2. Response A".

(** * The rest of the engine *)

(** ** The conversation title ([generate_conversation_title]) *)

(** [s.strip(chars)]: the characters of [chars] are removed from both
    ends. *)
Definition in_chars (chars : text) (c : N) : bool := existsb (N.eqb c) chars.
Definition lstrip_chars (chars s : text) : text := snd (span (in_chars chars) s).
Definition rstrip_chars (chars s : text) : text := rev (lstrip_chars chars (rev s)).
Definition strip_chars (chars s : text) : text := rstrip_chars chars (lstrip_chars chars s).

Definition TITLE_MODEL : text := str "google/gemini-2.5-flash".
Definition NEW_CONVERSATION : text := str "New Conversation".

(** The double quote and the apostrophe, the characters the title is
    stripped of. *)
Definition QUOTES : text := [34%N; 39%N].

Definition title_prompt (user_query : text) : text :=
  str "Generate a very short title (3-5 words maximum) that summarizes the following question." ++ nl
  ++ str "The title should be concise and descriptive. Do not use quotes or punctuation in the title." ++ nl
  ++ nl
  ++ str "Question: " ++ user_query ++ nl
  ++ nl
  ++ str "Title:".

Definition title_messages (user_query : text) : list message :=
  [ {| role := str "user"; content := title_prompt user_query |} ].

(** The title made of the reply: stripped, without quotes at its ends,
    cut to 47 characters and an ellipsis when longer than 50. *)
Definition clean_title {U : Unicode} (response : reply) : text :=
  let title := strip (default NEW_CONVERSATION (dict_get (str "content") response)) in
  let title := strip_chars QUOTES title in
  if (50 <? length title)%nat then take 47 title ++ str "..." else title.

Section Title.
Context {U : Unicode} {W : Type} {O : OpenRouter W}.

(** [generate_conversation_title] *)
Definition generate_conversation_title (user_query : text) : M W text :=
  response <- query_model TITLE_MODEL (title_messages user_query) 30 ;;
  match response with
  | None => ret NEW_CONVERSATION
  | Some response => ret (clean_title response)
  end.

End Title.

(** ** The messages of Round 2 and Round 3 *)

Definition stage2_messages (user_query : text) (stage1_results : list stage1_result)
  : list message :=
  [ {| role := str "system"; content := STAGE2_SYSTEM_PROMPT |};
    {| role := str "user"; content := ranking_prompt user_query stage1_results |} ].


(** The replies of a fan-out that are not [None]. *)
Definition successes (responses : list (text * option reply)) : list (text * reply) :=
  omap (fun mr : text * option reply =>
          match mr.2 with Some r => Some (mr.1, r) | None => None end) responses.

(** ** The evaluations a model receives *)

(** The number of times one evaluator's output refers to [m]: in the
    entries of its rubric when it has one, in its ordinal ranking
    otherwise. *)
Definition evaluations_by {U : Unicode} {P : Python} (label_to_model : gmap text text)
    (ranking : stage2_result) (m : text) : nat :=
  if truthy (s2_rubric ranking) then
    length (filter (fun ev => entry_label ev ≫= (label_to_model !!.) = Some m)
              (default [] (iterate (s2_rubric ranking))))
  else
    length (filter (fun lab => label_to_model !! lab = Some m)
              (default [] (fallback_ranking ranking))).

(** A fenced rubric and a reply that names a category. *)
Definition fenced (body : text) : text := str "```json" ++ body ++ str "```".

(** A network on which every model answers with the same ranking, the
    router answers [MATH] and the chairman streams two fragments. *)
Definition live_network : OpenRouter unit :=
  {| net_query_model := fun _ _ _ w => (Some [(str "content", str " MATH" ++ nl)], w);
     net_query_models_parallel := fun models _ w =>
       (map (fun m => (m, Some [(str "content",
                                 str "FINAL RANKING:" ++ nl ++ str "1. Response B" ++ nl
                                 ++ str "2. Response A")])) models, w);
     net_stream_model := fun _ _ w => (Some [str "The answer"; str " is 42."], w) |}.

(** The scores the typed reading of a rubric gives to [subject], in the
    order of its entries. *)
Definition rubric_points (label_to_model : gmap text text)
    (evaluator_model subject : text) (rubric : list rubric_entry) : list float :=
  omap (fun ev : rubric_entry =>
          if decide (label_to_model !! (RESPONSE_ ++ default [] (response_label ev))
                     = Some subject)
          then Some ((default 0 (accuracy ev) + default 0 (reasoning ev)
                      + default 0 (completeness ev) + default 0 (clarity ev))
                     * default 1 (confidence ev)
                     * (if decide (evaluator_model = subject) then 0.5 else 1))%float
          else None) rubric.

(** The typed reading of a sample entry. *)
Definition typed_entry (label : text) (a r c cl conf : float) : rubric_entry :=
  {| response_label := Some label; accuracy := Some a; reasoning := Some r;
     completeness := Some c; clarity := Some cl; confidence := Some conf |}.

(** [model_2] scores three responses with a rubric, two of which are
    candidates. *)
Definition rubric_evaluation : stage2_result :=
  {| s2_model := str "model_2";
     s2_ranking := rubric_reply;
     s2_parsed_ranking := [str "Response B"; str "Response C"; str "Response A"];
     s2_rubric := sample_rubric |}.

(** ** The books of the rating engine *)

(** The sum of the values of a dictionary of counters. *)
Definition sum_values (d : list (text * Z)) : Z := foldr Z.add 0%Z (map snd d).

(** The three dictionaries agree: no key twice, every model with a win
    or a loss has a rating, and there are as many wins as losses. *)
Definition books_balance (st : ratings) : Prop :=
  List.NoDup (map fst (elo st))
  /\ List.NoDup (map fst (wins st))
  /\ List.NoDup (map fst (losses st))
  /\ (forall m, In m (map fst (wins st)) -> In m (map fst (elo st)))
  /\ (forall m, In m (map fst (losses st)) -> In m (map fst (elo st)))
  /\ sum_values (wins st) = sum_values (losses st).

(** ** The store ([storage.py]) *)

(** A row of the table [conversations]. *)
Record conversation_row := {
  conv_id : text;
  conv_title : text;
  conv_created_at : text;
  conv_query_type : text
}.

(** A row of the table [messages]. *)
Record message_row := {
  msg_id : Z;
  msg_conversation_id : text;
  msg_role : text;
  msg_content : text;
  msg_created_at : text
}.

(** A row of the table [model_responses]: the columns the rating
    computation reads, and the response.  The columns the program never
    writes are left out, and so is the row id, which is the position in
    the table. *)
Record stored_response := {
  sr_row : response_row;
  sr_response : text
}.

(** A value of the database. *)
Inductive sql_value :=
  | SqlNull
  | SqlInteger (z : Z)
  | SqlReal (f : float)
  | SqlText (t : text).

(** A row of the table [rankings]: the columns the rating computation
    reads, and the five columns of the scores. *)
Record stored_ranking := {
  rk_row : ranking_row;
  accuracy_score : sql_value;
  reasoning_score : sql_value;
  completeness_score : sql_value;
  clarity_score : sql_value;
  rk_confidence : sql_value
}.

(** The four tables, each in the order of its row ids, and the entry of
    [sqlite_sequence] for [messages]: the largest id it has given out. *)
Record store := {
  conversations_table : list conversation_row;
  messages_table : list message_row;
  messages_seq : Z;
  responses_table : list stored_response;
  rankings_table : list stored_ranking
}.

(** What the rating computation reads of the store. *)
Definition history (s : store) : database :=
  {| rankings := map rk_row (rankings_table s);
     model_responses := map sr_row (responses_table s) |}.

(** Binding a [str] to a statement encodes it as UTF-8: [None] is the
    [UnicodeEncodeError] of a surrogate code point. *)
Definition utf8_encodable (t : text) : bool :=
  forallb (fun c => negb ((55296 <=? c)%N && (c <=? 57343)%N)) t.

Definition bind_text (t : text) : option text :=
  if utf8_encodable t then Some t else None.

(** Binding a value of Python to a statement: [None] is NULL, and so is
    a NaN; a [bool] is an integer; an integer has to fit in 64 bits
    ([OverflowError]); a list or a dictionary is not supported
    ([ProgrammingError]). *)
Definition bind_value (v : json) : option sql_value :=
  match v with
  | JNull => Some SqlNull
  | JBool b => Some (SqlInteger (if b then 1 else 0))
  | JInt z =>
      if ((-9223372036854775808 <=? z) && (z <=? 9223372036854775807))%Z
      then Some (SqlInteger z) else None
  | JFloat f => Some (if is_nan f then SqlNull else SqlReal f)
  | JString s => SqlText <$> bind_text s
  | JArray _ | JObject _ => None
  end.

(** What SQLite makes of a text stored in a column of real numbers: the
    number it is the literal of, when it is one. *)
Class Sqlite := { numeric_literal : text -> option float }.

(** An SQLite for the examples, which is right on what they use: the
    text "8" is the literal of 8.0. *)
Definition sample_sqlite : Sqlite :=
  {| numeric_literal := fun t => if decide (t = str "8") then Some 8%float else None |}.

(** The affinity of a column declared REAL: an integer is stored as the
    nearest real number, and a text that is the literal of a number as
    that number. *)
Definition real_affinity {D : Sqlite} (v : sql_value) : sql_value :=
  match v with
  | SqlInteger z => SqlReal (float_of_Z z)
  | SqlText t =>
      match numeric_literal t with
      | Some f => SqlReal f
      | None => SqlText t
      end
  | _ => v
  end.

(** [ev.get(key)], bound to a column of real numbers. *)
Definition bind_score {D : Sqlite} (key : text) (ev : json) : option sql_value :=
  v ← py_get key JNull ev;
  real_affinity <$> bind_value v.

(** The id an AUTOINCREMENT key gives to a new row: one more than the
    largest id the table has held; [None] when that is the largest
    64-bit integer. *)
Definition next_rowid (seq : Z) (ids : list Z) : option Z :=
  let largest := foldr Z.max seq ids in
  if (largest =? 9223372036854775807)%Z then None else Some (largest + 1)%Z.

(** [l.index(x)]: [None] is [ValueError]. *)
Fixpoint index_of (x : text) (l : list text) : option nat :=
  match l with
  | [] => None
  | y :: l' => if decide (y = x) then Some 0 else S <$> index_of x l'
  end.

Definition UNKNOWN_ : text := str "unknown_".

(** The row of a Round-1 response. *)
Definition stage1_row (message : Z) (r : stage1_result) : option stored_response :=
  model ← bind_text (s1_model r);
  response ← bind_text (s1_response r);
  Some {| sr_row := {| mr_message_id := message; mr_model := model; mr_stage := 1 |};
          sr_response := response |}.

(** The body of [for ev in rubric]. *)
Definition rubric_row {P : Python} {D : Sqlite} (message : Z) (label_to_model : gmap text text)
    (evaluator : text) (parsed_ranking : list text) (ev : json)
  : option stored_ranking :=
  label_short ← py_get (str "response_label") (JString []) ev;
  let label := RESPONSE_ ++ py_format label_short in
  let subject := default (UNKNOWN_ ++ py_format label_short) (label_to_model !! label) in
  let rank_pos := match index_of label parsed_ranking with
                  | Some i => (Z.of_nat i + 1)%Z
                  | None => 99%Z
                  end in
  evaluator ← bind_text evaluator;
  subject ← bind_text subject;
  accuracy ← bind_score (str "accuracy") ev;
  reasoning ← bind_score (str "reasoning") ev;
  completeness ← bind_score (str "completeness") ev;
  clarity ← bind_score (str "clarity") ev;
  confidence ← bind_score (str "confidence") ev;
  Some {| rk_row := {| message_id := message; evaluator_model := evaluator;
                       subject_model := subject; rank_position := rank_pos |};
          accuracy_score := accuracy;
          reasoning_score := reasoning;
          completeness_score := completeness;
          clarity_score := clarity;
          rk_confidence := confidence |}.

(** The body of [for i, label in enumerate(parsed_ranking)]. *)
Definition ordinal_row (message : Z) (label_to_model : gmap text text)
    (evaluator : text) (il : Z * text) : option stored_ranking :=
  let subject := default (UNKNOWN_ ++ il.2) (label_to_model !! il.2) in
  evaluator ← bind_text evaluator;
  subject ← bind_text subject;
  Some {| rk_row := {| message_id := message; evaluator_model := evaluator;
                       subject_model := subject; rank_position := (il.1 + 1)%Z |};
          accuracy_score := SqlNull;
          reasoning_score := SqlNull;
          completeness_score := SqlNull;
          clarity_score := SqlNull;
          rk_confidence := SqlNull |}.

(** The body of [for r in stage2]: the row of the evaluation and the
    rows of its ranking. *)
Definition stage2_rows {P : Python} {D : Sqlite} (message : Z)
    (label_to_model : gmap text text) (r : stage2_result)
  : option (stored_response * list stored_ranking) :=
  evaluator ← bind_text (s2_model r);
  ranking ← bind_text (s2_ranking r);
  rows ← (if truthy (s2_rubric r) then
            evs ← iterate (s2_rubric r);
            mapM (rubric_row message label_to_model (s2_model r) (s2_parsed_ranking r)) evs
          else
            mapM (ordinal_row message label_to_model (s2_model r))
                 (enumerate_from 0 (s2_parsed_ranking r)));
  Some ({| sr_row := {| mr_message_id := message; mr_model := evaluator; mr_stage := 2 |};
           sr_response := ranking |}, rows).

(** The row of the synthesis, when there is one. *)
Definition stage3_rows (message : Z) (stage3 : option final_result)
  : option (list stored_response) :=
  match stage3 with
  | Some f =>
      model ← bind_text (fr_model f);
      response ← bind_text (fr_response f);
      Some [ {| sr_row := {| mr_message_id := message; mr_model := model; mr_stage := 3 |};
                sr_response := response |} ]
  | None => Some []
  end.

(** [add_assistant_message], at the time [created_at]: the store after
    the commit, or [None] when a statement raises, which leaves the
    store as it was. *)
Definition add_assistant_message {P : Python} {D : Sqlite} (created_at conversation_id : text)
    (stage1 : list stage1_result) (stage2 : list stage2_result)
    (stage3 : option final_result) (s : store) : option store :=
  conversation ← bind_text conversation_id;
  message ← next_rowid (messages_seq s) (map msg_id (messages_table s));
  let label_to_model := make_label_to_model stage1 in
  rows1 ← mapM (stage1_row message) stage1;
  rows2 ← mapM (stage2_rows message label_to_model) stage2;
  rows3 ← stage3_rows message stage3;
  Some {| conversations_table := conversations_table s;
          messages_table :=
            messages_table s
            ++ [ {| msg_id := message; msg_conversation_id := conversation;
                    msg_role := str "assistant"; msg_content := [];
                    msg_created_at := created_at |} ];
          messages_seq := message;
          responses_table := responses_table s ++ rows1 ++ map fst rows2 ++ rows3;
          rankings_table := rankings_table s ++ concat (map snd rows2) |}.

(** ** The other writes *)

(** A synthesis read back from the table. *)
Record stage3_view := { v3_model : text; v3_response : text }.

(** An entry of a rubric read back from the table. *)
Record rubric_view := {
  rv_response_label : text;
  rv_accuracy : sql_value;
  rv_reasoning : sql_value;
  rv_completeness : sql_value;
  rv_clarity : sql_value;
  rv_confidence : sql_value
}.

(** An evaluation read back; [None] is a key that is missing. *)
Record stage2_view := {
  v2_model : text;
  v2_ranking : text;
  v2_parsed_ranking : option (list text);
  v2_rubric : option (list rubric_view)
}.

(** A message of a conversation, as [get_conversation] returns it. *)
Inductive message_view :=
  | UserMessage (content : text)
  | AssistantMessage (stage1 : list stage1_result) (stage2 : list stage2_view)
      (stage3 : option stage3_view).

(** What [create_conversation] and [get_conversation] return. *)
Record conversation := {
  c_id : text;
  c_created_at : text;
  c_title : text;
  c_messages : list message_view
}.

(** [create_conversation], at the time [created_at]: [None] is the
    [IntegrityError] of an id that is taken. *)
Definition create_conversation (created_at conversation_id : text) (s : store)
  : option (conversation * store) :=
  cid ← bind_text conversation_id;
  if existsb (fun c => bool_decide (conv_id c = cid)) (conversations_table s) then None
  else
    Some ({| c_id := conversation_id; c_created_at := created_at;
             c_title := NEW_CONVERSATION; c_messages := [] |},
          {| conversations_table :=
               conversations_table s
               ++ [ {| conv_id := cid; conv_title := NEW_CONVERSATION;
                       conv_created_at := created_at; conv_query_type := GENERAL |} ];
             messages_table := messages_table s;
             messages_seq := messages_seq s;
             responses_table := responses_table s;
             rankings_table := rankings_table s |}).

(** [add_user_message], at the time [created_at]. *)
Definition add_user_message (created_at conversation_id content : text) (s : store)
  : option store :=
  conversation ← bind_text conversation_id;
  content ← bind_text content;
  message ← next_rowid (messages_seq s) (map msg_id (messages_table s));
  Some {| conversations_table := conversations_table s;
          messages_table :=
            messages_table s
            ++ [ {| msg_id := message; msg_conversation_id := conversation;
                    msg_role := str "user"; msg_content := content;
                    msg_created_at := created_at |} ];
          messages_seq := message;
          responses_table := responses_table s;
          rankings_table := rankings_table s |}.

(** [update_conversation_title] *)
Definition update_conversation_title (conversation_id title : text) (s : store)
  : option store :=
  title ← bind_text title;
  cid ← bind_text conversation_id;
  Some {| conversations_table :=
            map (fun c => if decide (conv_id c = cid)
                          then {| conv_id := conv_id c; conv_title := title;
                                  conv_created_at := conv_created_at c;
                                  conv_query_type := conv_query_type c |}
                          else c) (conversations_table s);
          messages_table := messages_table s;
          messages_seq := messages_seq s;
          responses_table := responses_table s;
          rankings_table := rankings_table s |}.

(** ** Reading a conversation back ([get_conversation]) *)

(** [s.replace(old, new)], for an [old] that is not empty. *)
Definition replace (old new s : text) : text := join new (split old s).

(** [ORDER BY created_at ASC, id ASC] *)
Definition message_ltb (a b : message_row) : bool :=
  text_ltb (msg_created_at a) (msg_created_at b)
  || (bool_decide (msg_created_at a = msg_created_at b) && (msg_id a <? msg_id b)%Z).

(** The dictionary comprehension over [enumerate(stage1)]. *)
Definition make_model_to_label (stage1 : list stage1_result) : gmap text text :=
  fold_left (fun m lr => <[s1_model lr.2 := RESPONSE_ ++ lr.1]> m)
            (zip (labels (length stage1)) stage1) ∅.

(** The body of [for rank in rank_rows], on [parsed_ranking] and
    [rubric]. *)
Definition read_rank (model_to_label : gmap text text)
    (acc : list text * list rubric_view) (rank : stored_ranking)
  : list text * list rubric_view :=
  let subject := subject_model (rk_row rank) in
  let label := default subject (model_to_label !! subject) in
  (if decide (rank_position (rk_row rank) = 99%Z) then acc.1 else acc.1 ++ [label],
   match accuracy_score rank with
   | SqlNull => acc.2
   | a =>
       acc.2 ++ [ {| rv_response_label := replace RESPONSE_ [] label;
                     rv_accuracy := a;
                     rv_reasoning := reasoning_score rank;
                     rv_completeness := completeness_score rank;
                     rv_clarity := clarity_score rank;
                     rv_confidence := rk_confidence rank |} ]
   end).

(** The body of [for r in s2_rows]. *)
Definition read_evaluation (s : store) (message : Z) (model_to_label : gmap text text)
    (r : stored_response) : stage2_view :=
  let evaluator := mr_model (sr_row r) in
  let rank_rows :=
    stable_sort (fun x y => (rank_position (rk_row y) <? rank_position (rk_row x))%Z)
      (filter (fun k => message_id (rk_row k) = message
                        /\ evaluator_model (rk_row k) = evaluator) (rankings_table s)) in
  let (parsed_ranking, rubric) := fold_left (read_rank model_to_label) rank_rows ([], []) in
  {| v2_model := evaluator;
     v2_ranking := sr_response r;
     v2_parsed_ranking := match parsed_ranking with [] => None | _ :: _ => Some parsed_ranking end;
     v2_rubric := match rubric with [] => None | _ :: _ => Some rubric end |}.

(** The body of [for msg in msg_rows]. *)
Definition read_message (s : store) (msg : message_row) : message_view :=
  if decide (msg_role msg = str "user") then UserMessage (msg_content msg)
  else
    let of_stage (n : Z) :=
      filter (fun r => mr_message_id (sr_row r) = msg_id msg /\ mr_stage (sr_row r) = n)
             (responses_table s) in
    let stage1 :=
      map (fun r => {| s1_model := mr_model (sr_row r); s1_response := sr_response r |})
          (of_stage 1%Z) in
    let model_to_label := make_model_to_label stage1 in
    let stage2 := map (read_evaluation s (msg_id msg) model_to_label) (of_stage 2%Z) in
    let stage3 :=
      match of_stage 3%Z with
      | r :: _ => Some {| v3_model := mr_model (sr_row r); v3_response := sr_response r |}
      | [] => None
      end in
    AssistantMessage stage1 stage2 stage3.

(** [get_conversation]: [Some None] is the [None] of a conversation
    that is not found, [None] a raised exception. *)
Definition get_conversation (conversation_id : text) (s : store)
  : option (option conversation) :=
  cid ← bind_text conversation_id;
  match List.find (fun c => bool_decide (conv_id c = cid)) (conversations_table s) with
  | None => Some None
  | Some conv_row =>
      let msg_rows :=
        stable_sort (fun x y => message_ltb y x)
          (filter (fun m => msg_conversation_id m = cid) (messages_table s)) in
      Some (Some {| c_id := conv_id conv_row;
                    c_created_at := conv_created_at conv_row;
                    c_title := conv_title conv_row;
                    c_messages := map (read_message s) msg_rows |})
  end.

(** ** The endpoint ([send_message] of [main.py]) *)

(** The body of the response. *)
Record send_message_response := {
  smr_stage1 : list stage1_result;
  smr_stage2 : list stage2_result;
  smr_stage3 : option final_result;
  smr_metadata : metadata
}.

(** What the endpoint answers: the response, or the [HTTPException]. *)
Inductive answer :=
  | Answered (r : send_message_response)
  | HttpError (status_code : Z) (detail : text).

Section Endpoint.
Context {U : Unicode} {J : JsonLib} {P : Python} {D : Sqlite} {W : Type} {O : OpenRouter W}.

(** The title of a first message: generated, then written. *)
Definition title_first_message (conversation_id content : text) (s : store) (w : world W)
  : option (world W) * store :=
  match generate_conversation_title content w with
  | None => (None, s)
  | Some (title, w1) =>
      match update_conversation_title conversation_id title s with
      | None => (None, s)
      | Some s1 => (Some w1, s1)
      end
  end.

(** [send_message], with the times of its two writes: the answer and
    the world after it, or [None] when an exception escapes, and the
    store as the last commit left it. *)
Definition send_message (user_time assistant_time conversation_id content : text)
    (council_models : option (list text)) (s : store) (w : world W)
  : option (answer * world W) * store :=
  match get_conversation conversation_id s with
  | None => (None, s)
  | Some None => (Some (HttpError 404 (str "Conversation not found"), w), s)
  | Some (Some conversation) =>
      let is_first_message := (length (c_messages conversation) =? 0)%nat in
      match add_user_message user_time conversation_id content s with
      | None => (None, s)
      | Some s1 =>
          match (if is_first_message
                 then title_first_message conversation_id content s1 w
                 else (Some w, s1)) with
          | (None, s2) => (None, s2)
          | (Some w1, s2) =>
              match run_full_council content council_models w1 with
              | None => (None, s2)
              | Some ((stage1_results, stage2_results, stage3_result, metadata), w2) =>
                  match add_assistant_message assistant_time conversation_id
                          stage1_results stage2_results stage3_result s2 with
                  | None => (None, s2)
                  | Some s3 =>
                      (Some (Answered {| smr_stage1 := stage1_results;
                                         smr_stage2 := stage2_results;
                                         smr_stage3 := stage3_result;
                                         smr_metadata := metadata |}, w2), s3)
                  end
              end
          end
      end
  end.

End Endpoint.

(** ** Stores the program can reach *)

(** The ids of the messages are distinct and not above the sequence,
    and every row of a response or of a ranking belongs to a message. *)
Definition store_ok (s : store) : Prop :=
  List.NoDup (map msg_id (messages_table s))
  /\ Forall (fun m => (msg_id m <= messages_seq s)%Z) (messages_table s)
  /\ Forall (fun r => In (mr_message_id (sr_row r)) (map msg_id (messages_table s)))
            (responses_table s)
  /\ Forall (fun k => In (message_id (rk_row k)) (map msg_id (messages_table s)))
            (rankings_table s).

(** An empty store, the Round-1 results of two candidates and a
    synthesis. *)
Definition empty_store : store :=
  {| conversations_table := []; messages_table := []; messages_seq := 0;
     responses_table := []; rankings_table := [] |}.

Definition sample_stage1 : list stage1_result :=
  [ {| s1_model := str "model_1"; s1_response := str "One" |};
    {| s1_model := str "model_2"; s1_response := str "Two" |} ].

Definition sample_synthesis : final_result :=
  {| fr_model := CHAIRMAN_MODEL; fr_done := Some true; fr_response := str "Both" |}.

(** What Round 2 makes of the reply with the unlabelled rubric. *)
Definition unlabelled_evaluation : stage2_result :=
  {| s2_model := str "model_2"; s2_ranking := unlabelled_reply;
     s2_parsed_ranking := [str "Response A"]; s2_rubric := JArray [unlabelled_entry] |}.

(** The row of a position of an ordinal ranking, when its texts can be
    bound. *)
Definition ordinal_row_of (message : Z) (label_to_model : gmap text text) (evaluator : text)
    (il : Z * text) : stored_ranking :=
  {| rk_row := {| message_id := message; evaluator_model := evaluator;
                  subject_model := default (UNKNOWN_ ++ il.2) (label_to_model !! il.2);
                  rank_position := (il.1 + 1)%Z |};
     accuracy_score := SqlNull;
     reasoning_score := SqlNull;
     completeness_score := SqlNull;
     clarity_score := SqlNull;
     rk_confidence := SqlNull |}.

(** * Properties *)

(** ** Text *)

Section TextProps.
Context {U : Unicode}.

Lemma startswith_spec (p s : text) :
  startswith p s = true <-> exists r, s = p ++ r.
Proof.
  revert s. induction p as [|a p IH]; intros s; simpl.
  - split; [intros _; exists s; reflexivity | reflexivity].
  - destruct s as [|b s].
    + split; [discriminate | intros [r Hr]; discriminate].
    + destruct (decide (a = b)) as [->|Hne].
      * rewrite IH. split; intros [r Hr]; exists r; [subst; reflexivity | congruence].
      * split; [discriminate | intros [r Hr]; congruence].
Qed.

Lemma startswith_app (p r : text) : startswith p (p ++ r) = true.
Proof. apply startswith_spec. eauto. Qed.

Lemma contains_spec (p s : text) :
  contains p s = true <-> exists a b, s = a ++ p ++ b.
Proof.
  induction s as [|c s IH].
  - simpl. rewrite orb_false_r, startswith_spec. split.
    + intros [r Hr]. exists [], r. exact Hr.
    + intros (a & b & H). destruct a; [eauto | discriminate].
  - cbn [contains]. rewrite orb_true_iff, startswith_spec, IH. split.
    + intros [[r Hr] | (a & b & H)].
      * exists [], r. exact Hr.
      * exists (c :: a), b. simpl. congruence.
    + intros (a & b & H). destruct a as [|c' a]; simpl in H.
      * left. eauto.
      * right. exists a, b. congruence.
Qed.

Lemma contains_app_r (p a s : text) : contains p s = true -> contains p (a ++ s) = true.
Proof.
  rewrite !contains_spec. intros (x & y & ->). exists (a ++ x), y.
  rewrite <- app_assoc. reflexivity.
Qed.

Lemma contains_app_l (p s b : text) : contains p s = true -> contains p (s ++ b) = true.
Proof.
  rewrite !contains_spec. intros (x & y & ->). exists x, (y ++ b).
  rewrite <- !app_assoc. reflexivity.
Qed.

Lemma split_go_skip (sep x s cur : text) :
  split_go sep (length x) (x ++ s) cur = split_go sep 0 s cur.
Proof.
  induction x as [|c x IH]; simpl; [destruct s; reflexivity | exact IH].
Qed.

Lemma split_go_none (sep s cur : text) :
  contains sep s = false -> split_go sep 0 s cur = [rev cur ++ s].
Proof.
  revert cur. induction s as [|c s IH]; intros cur H.
  - simpl. rewrite app_nil_r. reflexivity.
  - cbn [contains] in H. apply orb_false_iff in H as [H1 H2].
    cbn [split_go]. rewrite H1, IH by exact H2.
    simpl. rewrite <- app_assoc. reflexivity.
Qed.

Lemma span_spec (p : N -> bool) (s ds r : text) :
  span p s = (ds, r) ->
  s = ds ++ r /\ Forall (fun c => p c = true) ds
  /\ match r with [] => True | x :: _ => p x = false end.
Proof.
  revert ds r. induction s as [|c s IH]; intros ds r; simpl.
  - intros [= <- <-]. repeat split. constructor.
  - destruct (p c) eqn:Hc.
    + destruct (span p s) as [a b]. intros [= <- <-].
      destruct (IH a b eq_refl) as (-> & Hf & Hr).
      repeat split; [constructor; assumption | assumption].
    + intros [= <- <-]. repeat split; [constructor | exact Hc].
Qed.

Lemma span_app (p : N -> bool) (ds : text) (x : N) (r : text) :
  Forall (fun c => p c = true) ds -> p x = false ->
  span p (ds ++ x :: r) = (ds, x :: r).
Proof.
  intros Hf Hx. induction Hf as [|d ds Hd Hf IH]; simpl.
  - rewrite Hx. reflexivity.
  - rewrite Hd, IH. reflexivity.
Qed.

End TextProps.


(** ** The text-ranking parse *)

Section ParseProps.
Context {U : Unicode}.

Lemma FINAL_RANKING_unfold :
  FINAL_RANKING = 70%N :: tl FINAL_RANKING /\ length (tl FINAL_RANKING) = 13.
Proof. split; reflexivity. Qed.

(** The marker has no border: an occurrence cannot start inside another. *)
Lemma marker_border (pre tail : text) :
  startswith FINAL_RANKING (pre ++ FINAL_RANKING ++ tail) = true ->
  pre = [] \/ exists pre2, pre = FINAL_RANKING ++ pre2.
Proof.
  intros H. apply startswith_spec in H as [r Hr].
  destruct (decide (length pre < 14)) as [Hlt|Hge].
  - left.
    assert (Hk : FINAL_RANKING !! length pre = Some 70%N).
    { rewrite <- (lookup_app_l FINAL_RANKING r) by exact Hlt.
      rewrite <- Hr. rewrite lookup_app_r by lia.
      rewrite Nat.sub_diag. reflexivity. }
    destruct pre as [|c0 pre]; [reflexivity|]. exfalso.
    simpl in Hlt, Hk.
    do 13 (destruct pre as [|? pre]; [vm_compute in Hk; discriminate|]).
    simpl in Hlt. lia.
  - right. exists (drop 14 pre).
    rewrite <- (take_drop 14 pre) in Hr at 1.
    rewrite <- app_assoc in Hr.
    apply app_inj_1 in Hr as [Hr _].
    + rewrite <- Hr. symmetry. apply take_drop.
    + rewrite length_take. change (length FINAL_RANKING) with 14. lia.
Qed.

Lemma last_cons_nonempty {A} (a : A) (l : list A) (d : A) :
  l <> [] -> List.last (a :: l) d = List.last l d.
Proof. destruct l; [congruence | reflexivity]. Qed.

Lemma split_go_marker_here (s cur : text) :
  split_go FINAL_RANKING 0 (FINAL_RANKING ++ s) cur
  = rev cur :: split_go FINAL_RANKING 0 s [].
Proof.
  change (FINAL_RANKING ++ s) with (70%N :: (tl FINAL_RANKING ++ s)).
  cbn [split_go].
  change (70%N :: (tl FINAL_RANKING ++ s)) with (FINAL_RANKING ++ s).
  rewrite startswith_app.
  change (length FINAL_RANKING - 1) with (length (tl FINAL_RANKING)).
  apply (f_equal (cons (rev cur))), split_go_skip.
Qed.

(** The last part of the split is the text after the last marker. *)
Lemma split_marker_last (n : nat) :
  forall pre tail cur,
    length pre <= n ->
    contains FINAL_RANKING tail = false ->
    List.last (split_go FINAL_RANKING 0 (pre ++ FINAL_RANKING ++ tail) cur) [] = tail
    /\ 2 <= length (split_go FINAL_RANKING 0 (pre ++ FINAL_RANKING ++ tail) cur).
Proof.
  assert (Hbase : forall tail cur, contains FINAL_RANKING tail = false ->
    List.last (split_go FINAL_RANKING 0 (FINAL_RANKING ++ tail) cur) [] = tail
    /\ 2 <= length (split_go FINAL_RANKING 0 (FINAL_RANKING ++ tail) cur)).
  { intros tail cur Ht. rewrite split_go_marker_here, split_go_none by exact Ht.
    simpl. split; [reflexivity | lia]. }
  induction n as [|n IH]; intros pre tail cur Hn Ht.
  - destruct pre; [|simpl in Hn; lia]. apply Hbase, Ht.
  - destruct pre as [|c pre]; [apply Hbase, Ht|].
    destruct (startswith FINAL_RANKING ((c :: pre) ++ FINAL_RANKING ++ tail)) eqn:Hs.
    + destruct (marker_border (c :: pre) tail Hs) as [Hnil | [pre2 Hp]]; [discriminate|].
      rewrite Hp, <- app_assoc, split_go_marker_here.
      assert (Hlen : length pre2 <= n).
      { apply (f_equal length) in Hp. rewrite length_app in Hp.
        change (length FINAL_RANKING) with 14 in Hp. simpl in Hp, Hn. lia. }
      destruct (IH pre2 tail [] Hlen Ht) as [H1 H2].
      split.
      * rewrite last_cons_nonempty; [exact H1|].
        intros E. rewrite E in H2. simpl in H2. lia.
      * cbn [length]. lia.
    + cbn [app split_go]. cbn [app] in Hs. rewrite Hs.
      apply IH; [simpl in Hn; lia | exact Ht].
Qed.

Lemma is_digit_ascii (d : N) : is_digit d = true -> (d < 128)%N -> (48 <= d <= 57)%N.
Proof.
  unfold is_digit. intros H Hd.
  apply N.ltb_lt in Hd. rewrite Hd in H.
  apply andb_true_iff in H as [H1 H2].
  apply N.leb_le in H1, H2. lia.
Qed.

Lemma is_space_ascii (w : N) :
  is_space w = true -> (w < 128)%N -> (9 <= w <= 13)%N \/ (28 <= w <= 32)%N.
Proof.
  unfold is_space. intros H Hw.
  apply N.ltb_lt in Hw. rewrite Hw in H.
  apply orb_true_iff in H as [H|H]; apply andb_true_iff in H as [H1 H2];
    apply N.leb_le in H1, H2; lia.
Qed.

Lemma match_label_spec (s lab : text) :
  match_label s = Some lab <->
  exists c rest, s = RESPONSE_ ++ c :: rest /\ is_AZ c = true /\ lab = RESPONSE_ ++ [c].
Proof.
  unfold match_label. split.
  - destruct (startswith RESPONSE_ s) eqn:Hs; [|discriminate].
    apply startswith_spec in Hs as [r ->].
    change (drop 9 (RESPONSE_ ++ r)) with r.
    destruct r as [|c rest]; [discriminate|].
    destruct (is_AZ c) eqn:Hc; [|discriminate].
    intros [= <-]. eauto.
  - intros (c & rest & -> & Hc & ->).
    rewrite startswith_app.
    change (drop 9 (RESPONSE_ ++ c :: rest)) with (c :: rest).
    cbv beta iota. rewrite Hc. reflexivity.
Qed.

(** No label starts at a digit, a full stop or a white-space character. *)
Lemma match_label_not_R (c : N) (s : text) : c <> 82%N -> match_label (c :: s) = None.
Proof.
  intros Hc. unfold match_label.
  destruct (startswith RESPONSE_ (c :: s)) eqn:Hs; [|reflexivity].
  apply startswith_spec in Hs as [r Hr].
  change RESPONSE_ with (82%N :: tl RESPONSE_) in Hr.
  injection Hr as Hr _. congruence.
Qed.

Lemma digit_not_R (d : N) : is_digit d = true -> d <> 82%N.
Proof. intros H ->. vm_compute in H. discriminate. Qed.

Lemma space_not_R (w : N) : is_space w = true -> w <> 82%N.
Proof. intros H ->. vm_compute in H. discriminate. Qed.

Lemma match_numbered_sound (s m : text) :
  match_numbered s = Some m ->
  exists lab rest, s = m ++ rest /\ numbered_entry m lab.
Proof.
  unfold match_numbered.
  destruct (span is_digit s) as [ds r1] eqn:Hd.
  apply span_spec in Hd as (-> & Hds & _).
  destruct ds as [|d ds]; [discriminate|].
  destruct r1 as [|c r2]; [discriminate|].
  destruct (decide (c = 46%N)) as [->|]; [|discriminate].
  destruct (span is_space r2) as [ws r3] eqn:Hw.
  apply span_spec in Hw as (-> & Hws & _).
  destruct (match_label r3) as [lab|] eqn:Hl; [|discriminate].
  apply match_label_spec in Hl as (c & rest & -> & Hc & ->).
  intros Heq. apply (inj Some) in Heq. subst m.
  exists (RESPONSE_ ++ [c]), rest. split.
  - rewrite <- !app_assoc. reflexivity.
  - exists (d :: ds), ws, c. repeat split; try assumption. discriminate.
Qed.

Lemma match_numbered_complete (m lab rest : text) :
  numbered_entry m lab -> match_numbered (m ++ rest) = Some m.
Proof.
  intros (ds & ws & c & -> & -> & Hne & Hds & Hws & Hc).
  unfold match_numbered.
  rewrite <- !app_assoc. cbn [app].
  rewrite (span_app is_digit ds 46%N) by (assumption || reflexivity).
  destruct ds as [|d ds]; [congruence|].
  destruct (decide (46%N = 46%N)); [|congruence].
  change (RESPONSE_ ++ c :: rest) with (82%N :: tl RESPONSE_ ++ c :: rest).
  rewrite (span_app is_space ws 82%N) by (assumption || reflexivity).
  change (82%N :: tl RESPONSE_ ++ c :: rest) with (RESPONSE_ ++ c :: rest).
  assert (Hl : match_label (RESPONSE_ ++ c :: rest) = Some (RESPONSE_ ++ [c]))
    by (apply match_label_spec; eauto).
  rewrite Hl. reflexivity.
Qed.

(** The search inside a match finds its token. *)
Lemma search_label_entry (m lab : text) :
  numbered_entry m lab -> search_label m = Some lab /\ label_of_match m = lab.
Proof.
  intros (ds & ws & c & -> & -> & _ & Hds & Hws & Hc). split.
  - induction Hds as [|d ds Hd Hds IH].
    + cbn [app search_label]. rewrite match_label_not_R by discriminate.
      induction Hws as [|w ws Hw Hws IHw].
      * cbn [app]. destruct (RESPONSE_ ++ [c]) eqn:E; [discriminate|]. rewrite <- E.
        assert (Hl : match_label (RESPONSE_ ++ [c]) = Some (RESPONSE_ ++ [c]))
          by (apply match_label_spec; eauto).
        unfold search_label. rewrite E at 1. rewrite <- E, Hl. reflexivity.
      * cbn [app search_label]. rewrite match_label_not_R by (apply space_not_R; exact Hw).
        exact IHw.
    + cbn [app search_label]. rewrite match_label_not_R by (apply digit_not_R; exact Hd).
      exact IH.
  - unfold label_of_match.
    replace (ds ++ [46%N] ++ ws ++ RESPONSE_ ++ [c])
      with ((ds ++ [46%N] ++ ws) ++ (RESPONSE_ ++ [c]))
      by (rewrite <- !app_assoc; reflexivity).
    rewrite (length_app (ds ++ [46%N] ++ ws)).
    change (length (RESPONSE_ ++ [c])) with 10.
    rewrite Nat.add_sub. apply drop_app_length.
Qed.

Lemma findall_go_skip (x s : text) :
  findall_go (length x) (x ++ s) = findall_go 0 s.
Proof. induction x as [|c x IH]; simpl; [destruct s; reflexivity | exact IH]. Qed.

Lemma numbered_entry_nonempty (m lab : text) : numbered_entry m lab -> m <> [].
Proof. intros (ds & ws & c & -> & _ & Hne & _). destruct ds; [congruence | discriminate]. Qed.

(** The matches of [findall] and the tokens searched in them are the
    ranking of the specification. *)
Lemma findall_ranked (n : nat) :
  forall s, length s <= n ->
    exists labs, mapM search_label (findall_numbered s) = Some labs
                 /\ labs = map label_of_match (findall_numbered s)
                 /\ ranked_labels s labs.
Proof.
  unfold findall_numbered.
  induction n as [|n IH]; intros s Hn.
  - destruct s; [|simpl in Hn; lia]. exists []. repeat split. constructor.
  - destruct s as [|c s].
    { exists []. repeat split. constructor. }
    cbn [findall_go].
    destruct (match_numbered (c :: s)) as [m|] eqn:Hm.
    + destruct (match_numbered_sound _ _ Hm) as (lab & rest & Hs & He).
      pose proof (numbered_entry_nonempty _ _ He) as Hne.
      destruct m as [|c' m']; [congruence|].
      injection Hs as <- ->.
      replace (length (c :: m') - 1) with (length m') by (simpl; lia).
      rewrite findall_go_skip.
      destruct (IH rest) as (labs & H1 & H2 & H3).
      { simpl in Hn. rewrite length_app in Hn. lia. }
      destruct (search_label_entry _ _ He) as [Hsl Hlm].
      exists (lab :: labs). split; [|split].
      * cbn [mapM]. rewrite Hsl, H1. reflexivity.
      * cbn [map]. rewrite Hlm, H2. reflexivity.
      * apply (RL_entry (c :: m') lab rest labs He H3).
    + destruct (IH s) as (labs & H1 & H2 & H3); [simpl in Hn; lia|].
      exists labs. repeat split; try assumption.
      apply RL_skip; [|exact H3].
      intros m lab rest Hs He.
      rewrite Hs, (match_numbered_complete m lab rest He) in Hm. discriminate.
Qed.

(** The ranking of the specification is a function of the text. *)
Lemma ranked_labels_unique (s : text) (labs : list text) :
  ranked_labels s labs -> labs = map label_of_match (findall_numbered s).
Proof.
  unfold findall_numbered. induction 1 as [|m lab rest labs He Hr IH|c s labs Hno Hr IH].
  - reflexivity.
  - pose proof (numbered_entry_nonempty _ _ He) as Hne.
    pose proof (match_numbered_complete m lab rest He) as Hm.
    destruct m as [|c m']; [congruence|].
    cbn [app findall_go]. cbn [app] in Hm. rewrite Hm.
    replace (length (c :: m') - 1) with (length m') by (simpl; lia).
      rewrite findall_go_skip.
    cbn [map]. rewrite (proj2 (search_label_entry _ _ He)), IH. reflexivity.
  - cbn [findall_go].
    destruct (match_numbered (c :: s)) as [m|] eqn:Hm; [|exact IH].
    destruct (match_numbered_sound _ _ Hm) as (lab & rest & Hs & He).
    destruct (Hno m lab rest Hs He).
Qed.

(** Every token of the ranking is written in the text. *)
Lemma ranked_labels_contained (s : text) (labs : list text) :
  ranked_labels s labs -> forall lab, In lab labs -> contains lab s = true.
Proof.
  induction 1 as [|m lab0 rest labs He Hr IH|c s labs Hno Hr IH]; intros lab Hin.
  - destruct Hin.
  - destruct Hin as [<-|Hin].
    + destruct He as (ds & ws & c & -> & -> & _).
      apply contains_spec. exists (ds ++ [46%N] ++ ws), rest.
      rewrite <- !app_assoc. reflexivity.
    + apply contains_app_r. apply IH. exact Hin.
  - apply (contains_app_r lab [c] s). apply IH. exact Hin.
Qed.

(** The parse of a text with a marker, by the tail after the last one. *)
Lemma parse_with_marker (pre tail : text) :
  contains FINAL_RANKING tail = false ->
  parse_ranking_from_text (pre ++ FINAL_RANKING ++ tail)
  = Some (map label_of_match (findall_numbered tail)).
Proof.
  intros Ht. unfold parse_ranking_from_text.
  assert (Hc : contains FINAL_RANKING (pre ++ FINAL_RANKING ++ tail) = true)
    by (apply contains_spec; eauto).
  rewrite Hc. unfold split.
  destruct (split_marker_last (length pre) pre tail [] (le_n _) Ht) as [H1 H2].
  rewrite H1. apply Nat.leb_le in H2. rewrite H2.
  destruct (findall_ranked (length tail) tail (le_n _)) as (labs & Hm & Hl & _).
  rewrite <- Hl.
  destruct (findall_numbered tail) eqn:E; [subst labs; reflexivity | exact Hm].
Qed.

Lemma parse_without_marker (ranking_text : text) :
  contains FINAL_RANKING ranking_text = false ->
  parse_ranking_from_text ranking_text = Some [].
Proof. intros H. unfold parse_ranking_from_text. rewrite H. reflexivity. Qed.

(** A text with a marker has a last one. *)
Lemma last_marker (n : nat) :
  forall s, length s <= n -> contains FINAL_RANKING s = true ->
    exists pre tail, s = pre ++ FINAL_RANKING ++ tail /\ contains FINAL_RANKING tail = false.
Proof.
  induction n as [|n IH]; intros s Hn Hc.
  - destruct s; [vm_compute in Hc; discriminate | simpl in Hn; lia].
  - apply contains_spec in Hc as (a & b & ->).
    destruct (contains FINAL_RANKING b) eqn:Hb.
    + destruct (IH b) as (pre & tail & -> & Ht).
      * rewrite !length_app in Hn. change (length FINAL_RANKING) with 14 in Hn. lia.
      * exact Hb.
      * exists (a ++ FINAL_RANKING ++ pre), tail. rewrite <- !app_assoc. split; [reflexivity | exact Ht].
    + exists a, b. split; [reflexivity | exact Hb].
Qed.

(** The parse never raises. *)
Lemma parse_total (ranking_text : text) :
  exists labs, parse_ranking_from_text ranking_text = Some labs.
Proof.
  destruct (contains FINAL_RANKING ranking_text) eqn:Hc.
  - destruct (last_marker _ ranking_text (le_n _) Hc) as (pre & tail & -> & Ht).
    rewrite parse_with_marker by exact Ht. eauto.
  - rewrite parse_without_marker by exact Hc. eauto.
Qed.

End ParseProps.

(** ** Dictionaries and sorting *)

Section DictProps.
Context {K : Type} `{EqDecision K} {V : Type}.
Implicit Types (d : list (K * V)) (k : K) (v : V).

Lemma dict_get_set_eq d k v : dict_get k (dict_set k v d) = Some v.
Proof.
  induction d as [|[k' v'] d IH]; simpl.
  - destruct (decide (k = k)); [reflexivity | congruence].
  - destruct (decide (k = k')) as [E|E]; simpl.
    + destruct (decide (k = k')); [reflexivity | contradiction].
    + destruct (decide (k = k')); [contradiction | exact IH].
Qed.

Lemma dict_get_set_ne d k k' v : k <> k' -> dict_get k' (dict_set k v d) = dict_get k' d.
Proof.
  intros Hne. induction d as [|[k0 v0] d IH]; simpl.
  - destruct (decide (k' = k)); [congruence | reflexivity].
  - destruct (decide (k = k0)) as [E|E]; simpl.
    + subst k0. destruct (decide (k' = k)); [congruence | reflexivity].
    + destruct (decide (k' = k0)); [reflexivity | exact IH].
Qed.

Lemma dict_get_update_eq d k (f : V -> V) dflt :
  dict_get k (dict_update k f dflt d) = Some (f (default dflt (dict_get k d))).
Proof. apply dict_get_set_eq. Qed.

Lemma dict_get_update_ne d k k' (f : V -> V) dflt :
  k <> k' -> dict_get k' (dict_update k f dflt d) = dict_get k' d.
Proof. apply dict_get_set_ne. Qed.

Lemma dict_get_Some_In d k v : dict_get k d = Some v -> In (k, v) d.
Proof.
  induction d as [|[k' v'] d IH]; simpl; [discriminate|].
  destruct (decide (k = k')) as [->|]; [intros [= ->]; left; reflexivity | right; auto].
Qed.

Lemma dict_get_None d k : dict_get k d = None <-> ~ In k (map fst d).
Proof.
  induction d as [|[k' v'] d IH]; simpl.
  - split; [intros _ [] | reflexivity].
  - destruct (decide (k = k')) as [->|Hne].
    + split; [discriminate | intros H; destruct H; left; reflexivity].
    + rewrite IH. split; [intros H [E|E]; [congruence | auto] | intros H E; apply H; right; exact E].
Qed.

Lemma dict_get_is_Some d k : is_Some (dict_get k d) <-> In k (map fst d).
Proof.
  destruct (dict_get k d) as [v|] eqn:E.
  - split; [intros _ | intros _; eauto].
    apply dict_get_Some_In in E. apply (in_map fst) in E. exact E.
  - split; [intros [v Hv]; discriminate | intros Hin; apply dict_get_None in E; contradiction].
Qed.

(** The keys after [d[k] = v]: those of [d], and [k]. *)
Lemma dict_set_keys_In d k v k' :
  In k' (map fst (dict_set k v d)) <-> k' = k \/ In k' (map fst d).
Proof.
  induction d as [|[k0 v0] d IH]; simpl.
  - split; [intros [E|[]]; auto | intros [E|[]]; auto].
  - destruct (decide (k = k0)) as [->|Hne]; simpl.
    + split; [auto | intros [->|H]; auto].
    + rewrite IH. split; [intros [H|[H|H]]; auto | intros [H|[H|H]]; auto].
Qed.

Lemma dict_get_touch d k k' dflt :
  default dflt (dict_get k' (dict_touch k dflt d)) = default dflt (dict_get k' d).
Proof.
  unfold dict_touch. destruct (dict_get k d) eqn:E; [reflexivity|].
  induction d as [|[k0 v0] d IH]; simpl in *.
  - destruct (decide (k' = k)); reflexivity.
  - destruct (decide (k = k0)); [discriminate|].
    destruct (decide (k' = k0)); [reflexivity | apply IH, E].
Qed.

Lemma dict_touch_keys_In d k dflt k' :
  In k' (map fst (dict_touch k dflt d)) <-> k' = k \/ In k' (map fst d).
Proof.
  unfold dict_touch. destruct (dict_get k d) eqn:E.
  - split; [auto|]. intros [->|H]; [|exact H].
    apply dict_get_is_Some. eauto.
  - rewrite map_app, in_app_iff. simpl.
    split; [intros [H|[H|[]]]; auto | intros [H|H]; auto].
Qed.

End DictProps.

Section SortProps.
Context {A : Type} (pass : A -> A -> bool).

Lemma insert_sorted_perm (x : A) (l : list A) :
  Permutation (insert_sorted pass x l) (x :: l).
Proof.
  induction l as [|y l IH]; simpl; [reflexivity|].
  destruct (pass x y); [|reflexivity].
  rewrite IH. apply perm_swap.
Qed.

(** Sorting rearranges. *)
Lemma stable_sort_perm (l : list A) : Permutation (stable_sort pass l) l.
Proof.
  induction l as [|x l IH]; simpl; [reflexivity|].
  rewrite insert_sorted_perm, IH. reflexivity.
Qed.

Lemma stable_sort_In (l : list A) (x : A) : In x (stable_sort pass l) <-> In x l.
Proof.
  split; apply Permutation_in; [|symmetry]; apply stable_sort_perm.
Qed.

End SortProps.

(** ** The aggregate scorer *)

Section ScorerProps.
Context {U : Unicode} {P : Python}.
Implicit Types (t : tally) (m s : text) (label_to_model : gmap text text).

Lemma score_of_add_score s x t m :
  score_of (add_score s x t) m
  = if decide (s = m) then (score_of t m + x)%float else score_of t m.
Proof.
  unfold score_of, add_score. cbn [model_scores].
  destruct (decide (s = m)) as [->|Hne].
  - rewrite dict_get_update_eq. reflexivity.
  - rewrite dict_get_update_ne by exact Hne. reflexivity.
Qed.

Lemma count_of_add_score s x t m :
  count_of (add_score s x t) m
  = if decide (s = m) then (count_of t m + 1)%Z else count_of t m.
Proof.
  unfold count_of, add_score. cbn [model_counts].
  destruct (decide (s = m)) as [->|Hne].
  - rewrite dict_get_update_eq. reflexivity.
  - rewrite dict_get_update_ne by exact Hne. reflexivity.
Qed.

Lemma add_score_keys s x t m :
  In m (map fst (model_scores (add_score s x t)))
  <-> m = s \/ In m (map fst (model_scores t)).
Proof. unfold add_score, dict_update. cbn [model_scores]. apply dict_set_keys_In. Qed.

Lemma tally_ok_empty : tally_ok empty_tally.
Proof. intros m. split; [reflexivity | intros []]. Qed.

Lemma tally_ok_add_score s x t : tally_ok t -> tally_ok (add_score s x t).
Proof.
  intros Hok m. destruct (Hok m) as [H0 H1].
  rewrite count_of_add_score, add_score_keys.
  destruct (decide (s = m)) as [->|Hne].
  - split; intros; lia.
  - split; [exact H0|]. intros [E|Hin]; [congruence | auto].
Qed.

Ltac read_fields H :=
  repeat match type of H with
         | context [score_field ?k ?d ?e] =>
             destruct (score_field k d e); cbn [mbind option_bind] in H; [|discriminate H]
         end.

(** What the body of the loop over a rubric does, when it returns. *)
Lemma score_rubric_entry_inv label_to_model ev_model t ev t' :
  score_rubric_entry label_to_model ev_model t ev = Some t' ->
  exists label,
    entry_label ev = Some label
    /\ match label_to_model !! label with
       | Some subject => exists x, t' = add_score subject x t
       | None => t' = t
       end.
Proof.
  unfold score_rubric_entry, entry_label.
  destruct (py_get (str "response_label") (JString []) ev) as [v|]; [|discriminate].
  cbn [mbind option_bind]. intros H. eexists. split; [reflexivity|].
  destruct (label_to_model !! (RESPONSE_ ++ py_format v)) as [subject|].
  - read_fields H. apply (inj Some) in H. subst t'. eexists. reflexivity.
  - apply (inj Some) in H. symmetry. exact H.
Qed.

Lemma score_rubric_entry_ok label_to_model ev_model t ev t' :
  score_rubric_entry label_to_model ev_model t ev = Some t' -> tally_ok t -> tally_ok t'.
Proof.
  intros H Hok. apply score_rubric_entry_inv in H as (label & _ & H).
  destruct (label_to_model !! label); [destruct H as [x ->]; apply tally_ok_add_score, Hok|].
  subst t'. exact Hok.
Qed.

Lemma score_rubric_entry_keys label_to_model ev_model t ev t' m :
  score_rubric_entry label_to_model ev_model t ev = Some t' ->
  In m (map fst (model_scores t'))
  <-> In m (map fst (model_scores t))
      \/ exists label, entry_label ev = Some label /\ names label_to_model label m.
Proof.
  intros H. apply score_rubric_entry_inv in H as (label & Hl & H). unfold names.
  destruct (label_to_model !! label) as [s|] eqn:E.
  - destruct H as [x ->]. rewrite add_score_keys. split.
    + intros [->|H]; [right; exists label; auto | auto].
    + intros [H|(label' & Hl' & Hn)]; [auto|]. left.
      rewrite Hl in Hl'. apply (inj Some) in Hl'. subst label'. congruence.
  - subst t'. split; [auto|]. intros [H|(label' & Hl' & Hn)]; [exact H|].
    rewrite Hl in Hl'. apply (inj Some) in Hl'. subst label'. congruence.
Qed.

Lemma score_position_ok n label_to_model ev_model t pl :
  tally_ok t -> tally_ok (score_position n label_to_model ev_model t pl).
Proof.
  intros Hok. unfold score_position.
  destruct (label_to_model !! _); [apply tally_ok_add_score, Hok | exact Hok].
Qed.

Lemma score_position_keys n label_to_model ev_model t pl m :
  In m (map fst (model_scores (score_position n label_to_model ev_model t pl)))
  <-> In m (map fst (model_scores t)) \/ names label_to_model pl.2 m.
Proof.
  unfold score_position, names.
  destruct (label_to_model !! _) as [s|] eqn:E.
  - rewrite add_score_keys. split; [intros [->|H]; auto | intros [H|[= ->]]; auto].
  - split; [auto | intros [H|H]; [exact H | discriminate]].
Qed.

(** A loop that keeps [tally_ok] and adds the keys [Q] allows. *)
Lemma fold_left_tally {A : Type} (f : tally -> A -> tally) (Q : A -> text -> Prop) :
  (forall t a, tally_ok t -> tally_ok (f t a)) ->
  (forall t a m, In m (map fst (model_scores (f t a)))
                 <-> In m (map fst (model_scores t)) \/ Q a m) ->
  forall l t,
    tally_ok t ->
    tally_ok (fold_left f l t)
    /\ forall m, In m (map fst (model_scores (fold_left f l t)))
                 <-> In m (map fst (model_scores t)) \/ exists a, In a l /\ Q a m.
Proof.
  intros Hok Hkeys. induction l as [|a l IH]; intros t Ht; cbn [fold_left].
  - split; [exact Ht|]. intros m. split; [auto | intros [H|(a & [] & _)]; exact H].
  - destruct (IH (f t a) (Hok t a Ht)) as [H1 H2]. split; [exact H1|].
    intros m. rewrite H2, Hkeys. split.
    + intros [[H|H]|(a' & Hin & Hp)]; [auto | right; exists a; split; [left; reflexivity | exact H]
                                        | right; exists a'; split; [right; exact Hin | exact Hp]].
    + intros [H|(a' & [<-|Hin] & Hp)]; [auto | auto | right; eauto].
Qed.

(** The same for a loop whose body may raise. *)
Lemma foldM_tally {A : Type} (f : tally -> A -> option tally) (Q : A -> text -> Prop) :
  (forall t a t', f t a = Some t' -> tally_ok t -> tally_ok t') ->
  (forall t a t' m, f t a = Some t' ->
                    (In m (map fst (model_scores t'))
                     <-> In m (map fst (model_scores t)) \/ Q a m)) ->
  forall l t t',
    foldM f t l = Some t' ->
    tally_ok t ->
    tally_ok t'
    /\ forall m, In m (map fst (model_scores t'))
                 <-> In m (map fst (model_scores t)) \/ exists a, In a l /\ Q a m.
Proof.
  intros Hok Hkeys. induction l as [|a l IH]; intros t t'; cbn [foldM].
  - intros Heq Ht. apply (inj Some) in Heq. subst t'. split; [exact Ht|].
    intros m. split; [auto | intros [H|(a & [] & _)]; exact H].
  - destruct (f t a) as [t1|] eqn:E1; [|discriminate]. intros Hrest Ht.
    destruct (IH t1 t' Hrest (Hok _ _ _ E1 Ht)) as [H1 H2]. split; [exact H1|].
    intros m. rewrite H2, (Hkeys _ _ _ m E1). split.
    + intros [[H|H]|(a' & Hin & Hp)]; [auto | right; exists a; split; [left; reflexivity | exact H]
                                        | right; exists a'; split; [right; exact Hin | exact Hp]].
    + intros [H|(a' & [<-|Hin] & Hp)]; [auto | auto | right; eauto].
Qed.

Lemma enumerate_from_In {A : Type} (l : list A) (k : Z) (x : A) :
  (exists p, In (p, x) (enumerate_from k l)) <-> In x l.
Proof.
  revert k. induction l as [|y l IH]; intros k; simpl.
  - split; [intros [p []] | intros []].
  - rewrite <- (IH (k + 1)%Z). split.
    + intros [p [[= <- <-]|H]]; [left; reflexivity | right; eauto].
    + intros [->|[p H]]; [exists k; left; reflexivity | exists p; right; exact H].
Qed.

Lemma fallback_ranking_total (ranking : stage2_result) :
  exists labs, fallback_ranking ranking = Some labs.
Proof.
  unfold fallback_ranking. destruct (s2_parsed_ranking ranking); [apply parse_total | eauto].
Qed.

(** What one evaluator adds, when the scorer returns from it. *)
Lemma score_evaluator_spec n label_to_model t ranking t' :
  score_evaluator n label_to_model t ranking = Some t' ->
  tally_ok t ->
  tally_ok t'
  /\ forall m, In m (map fst (model_scores t'))
               <-> In m (map fst (model_scores t)) \/ refers_to label_to_model ranking m.
Proof.
  unfold score_evaluator, refers_to. cbv zeta.
  destruct (truthy (s2_rubric ranking)).
  - destruct (iterate (s2_rubric ranking)) as [evs|]; [|discriminate].
    cbn [mbind option_bind]. intros Hrun Ht.
    destruct (foldM_tally (score_rubric_entry label_to_model (s2_model ranking))
                (fun ev m => exists label, entry_label ev = Some label
                                           /\ names label_to_model label m)
                (score_rubric_entry_ok _ _)
                (fun t0 a t1 m => score_rubric_entry_keys _ _ t0 a t1 m)
                evs t t' Hrun Ht) as [H1 H2].
    split; [exact H1|]. intros m. rewrite H2. split.
    + intros [H|(ev & Hin & label & Hl & Hn)]; [auto|]. right. exists evs, ev, label. auto.
    + intros [H|(evs' & ev & label & Heq & Hin & Hl & Hn)]; [auto|]. right.
      apply (inj Some) in Heq. subst evs'. exists ev. split; [exact Hin|]. exists label. auto.
  - destruct (fallback_ranking ranking) as [labs|] eqn:Hl; [|discriminate].
    cbn [mbind option_bind]. intros Heq Ht. apply (inj Some) in Heq. subst t'.
    destruct (fold_left_tally (score_position n label_to_model (s2_model ranking))
                (fun pl m => names label_to_model pl.2 m)
                (score_position_ok _ _ _) (score_position_keys _ _ _)
                (enumerate_from 1 labs) t Ht) as [H1 H2].
    split; [exact H1|]. intros m. rewrite H2. split.
    + intros [H|([p lab] & Hin & Hp)]; [auto|]. right. exists labs, lab.
      split; [reflexivity|]. split; [|exact Hp]. apply (enumerate_from_In labs 1). eauto.
    + intros [H|(labs' & lab & [= <-] & Hin & Hp)]; [auto|]. right.
      apply (enumerate_from_In labs 1) in Hin as [p Hin]. exists (p, lab). auto.
Qed.

Lemma foldM_score_evaluator n label_to_model (results : list stage2_result) t t' :
  foldM (score_evaluator n label_to_model) t results = Some t' ->
  tally_ok t ->
  tally_ok t'
  /\ forall m, In m (map fst (model_scores t'))
               <-> In m (map fst (model_scores t))
                   \/ exists r, In r results /\ refers_to label_to_model r m.
Proof.
  revert t. induction results as [|r results IH]; intros t; cbn [foldM].
  - intros Heq Ht. apply (inj Some) in Heq. subst t'. split; [exact Ht|].
    intros m. split; [auto | intros [H|(r & [] & _)]; exact H].
  - destruct (score_evaluator n label_to_model t r) as [t1|] eqn:E1; [|discriminate].
    intros Hrest Ht.
    destruct (score_evaluator_spec _ _ _ _ _ E1 Ht) as [Hok1 Hk1].
    destruct (IH t1 Hrest Hok1) as [Hok' Hk'].
    split; [exact Hok'|].
    intros m. rewrite Hk', Hk1. split.
    + intros [[H|H]|(r' & Hin & Hr)]; [auto | right; exists r; split; [left; reflexivity | exact H]
                                        | right; exists r'; split; [right; exact Hin | exact Hr]].
    + intros [H|(r' & [<-|Hin] & Hr)]; [auto | auto | right; eauto].
Qed.

(** When the scorer returns, its entries are the models some evaluator
    refers to, each with its count of evaluations, at least one. *)
Lemma calculate_aggregate_rankings_spec (results : list stage2_result) label_to_model out :
  calculate_aggregate_rankings results label_to_model = Some out ->
  (forall e, In e out -> (1 <= rankings_count e)%Z)
  /\ forall m, (exists e, In e out /\ agg_model e = m)
               <-> exists r, In r results /\ refers_to label_to_model r m.
Proof.
  unfold calculate_aggregate_rankings. cbv zeta.
  destruct (foldM _ empty_tally results) as [t|] eqn:Ht; [|discriminate].
  cbn [mbind option_bind]. intros Heq. apply (inj Some) in Heq. subst out.
  destruct (foldM_score_evaluator _ _ _ _ _ Ht tally_ok_empty) as [Hok Hk].
  split.
  - intros e He. apply stable_sort_In in He. unfold aggregate_of in He.
    apply in_map_iff in He as ([m x] & <- & Hin). cbn.
    apply (Hok m). apply (in_map fst) in Hin. exact Hin.
  - intros m.
    assert (Hk' : In m (map fst (model_scores t))
                  <-> exists r, In r results /\ refers_to label_to_model r m).
    { rewrite Hk. split; [intros [[]|H]; exact H | auto]. }
    rewrite <- Hk'. split.
    + intros (e & He & <-). apply stable_sort_In in He. unfold aggregate_of in He.
      apply in_map_iff in He as ([m x] & <- & Hin). apply (in_map fst) in Hin. exact Hin.
    + intros Hin. apply in_map_iff in Hin as ([m' x] & <- & Hin).
      eexists. split; [apply stable_sort_In; unfold aggregate_of; apply in_map_iff;
                       exists (m', x); split; [reflexivity | exact Hin] | reflexivity].
Qed.

(** *** On the typed reading *)

Lemma score_field_typed (key : text) (dflt : json) (fields : list (text * json))
    (x : option float) (d : float) :
  py_float dflt = Some d ->
  as_score key fields = Some x ->
  score_field key dflt (JObject fields) = Some (default d x).
Proof.
  intros Hd. unfold as_score, score_field. cbn [py_get mbind option_bind].
  destruct (dict_get key fields) as [v|]; cbn [default from_option id].
  - destruct (as_number v) as [n|] eqn:En; [|discriminate]. cbn [mbind option_bind].
    destruct (to_float n) as [f|] eqn:Ef; [|discriminate]. cbn [mbind option_bind].
    intros Heq. apply (inj Some) in Heq. subst x. cbn [default from_option id].
    destruct v; try discriminate En; unfold py_float; rewrite En; exact Ef.
  - intros Heq. apply (inj Some) in Heq. subst x. exact Hd.
Qed.

(** On an entry that has a typed reading, the scorer is the scorer of
    that reading. *)
Lemma score_rubric_entry_typed label_to_model ev_model t (ev : json) (e : rubric_entry) :
  as_entry ev = Some e ->
  score_rubric_entry label_to_model ev_model t ev
  = Some (score_entry label_to_model ev_model t e).
Proof.
  destruct ev as [| | | | |items|fields]; try discriminate. unfold as_entry.
  destruct (match dict_get (str "response_label") fields with
            | Some (JString s0) => Some (Some s0)
            | Some _ => None
            | None => Some None
            end) as [label|] eqn:El; [|discriminate]. cbn [mbind option_bind].
  destruct (as_score (str "accuracy") fields) as [a|] eqn:Ea; [|discriminate].
  cbn [mbind option_bind].
  destruct (as_score (str "reasoning") fields) as [r|] eqn:Er; [|discriminate].
  cbn [mbind option_bind].
  destruct (as_score (str "completeness") fields) as [c|] eqn:Ec; [|discriminate].
  cbn [mbind option_bind].
  destruct (as_score (str "clarity") fields) as [cl|] eqn:Ecl; [|discriminate].
  cbn [mbind option_bind].
  destruct (as_score (str "confidence") fields) as [conf|] eqn:Econf; [|discriminate].
  cbn [mbind option_bind]. intros Heq. apply (inj Some) in Heq. subst e.
  unfold score_rubric_entry, score_entry.
  cbn [py_get mbind option_bind response_label accuracy reasoning completeness clarity confidence].
  assert (Hl : py_format (default (JString []) (dict_get (str "response_label") fields))
               = default [] label).
  { destruct (dict_get (str "response_label") fields) as [v|].
    - destruct v; try discriminate El. apply (inj Some) in El. subst label. reflexivity.
    - apply (inj Some) in El. subst label. reflexivity. }
  rewrite Hl. destruct (label_to_model !! (RESPONSE_ ++ default [] label)); [|reflexivity].
  rewrite (score_field_typed _ (JInt 0) _ _ 0%float eq_refl Ea).
  rewrite (score_field_typed _ (JInt 0) _ _ 0%float eq_refl Er).
  rewrite (score_field_typed _ (JInt 0) _ _ 0%float eq_refl Ec).
  rewrite (score_field_typed _ (JInt 0) _ _ 0%float eq_refl Ecl).
  rewrite (score_field_typed _ (JFloat 1) _ _ 1%float eq_refl Econf).
  reflexivity.
Qed.

Lemma foldM_score_rubric_typed label_to_model ev_model (evs : list json)
    (entries : list rubric_entry) :
  mapM as_entry evs = Some entries ->
  forall t,
    foldM (score_rubric_entry label_to_model ev_model) t evs
    = Some (fold_left (score_entry label_to_model ev_model) entries t).
Proof.
  intros Hm. apply mapM_Some_1 in Hm.
  induction Hm as [|ev e evs entries He Hall IH]; intros t; [reflexivity|].
  cbn [foldM fold_left]. rewrite (score_rubric_entry_typed _ _ _ _ _ He). apply IH.
Qed.

(** On a rubric that has a typed reading and is not empty, the scorer
    takes the rubric branch and scores the entries of the reading. *)
Lemma score_evaluator_typed n label_to_model t ranking (e0 : rubric_entry)
    (entries : list rubric_entry) :
  as_rubric (s2_rubric ranking) = Some (e0 :: entries) ->
  score_evaluator n label_to_model t ranking
  = Some (fold_left (score_entry label_to_model (s2_model ranking)) (e0 :: entries) t).
Proof.
  unfold as_rubric, score_evaluator. cbv zeta.
  destruct (s2_rubric ranking) as [| | | | |items|fields]; try discriminate.
  intros Hm. destruct items as [|ev items]; [discriminate|].
  cbn [truthy iterate mbind option_bind].
  apply foldM_score_rubric_typed, Hm.
Qed.

Lemma score_evaluator_scorable n label_to_model t ranking :
  scorable ranking -> exists t', score_evaluator n label_to_model t ranking = Some t'.
Proof.
  assert (Hfb : truthy (s2_rubric ranking) = false ->
                exists t', score_evaluator n label_to_model t ranking = Some t').
  { intros Hf. unfold score_evaluator. cbv zeta. rewrite Hf.
    destruct (fallback_ranking_total ranking) as [labs ->]. cbn. eauto. }
  intros [Hf|[entries He]]; [exact (Hfb Hf)|].
  destruct entries as [|e0 entries].
  - apply Hfb. unfold as_rubric in He.
    destruct (s2_rubric ranking) as [| | | | |items|fields]; try discriminate.
    destruct items as [|ev items]; [reflexivity|].
    cbn [mapM] in He. destruct (as_entry ev); [|discriminate].
    cbn [mbind option_bind] in He. destruct (mapM as_entry items); discriminate.
  - eexists. apply (score_evaluator_typed _ _ _ _ _ _ He).
Qed.

(** The scorer returns on outputs whose rubrics it can score. *)
Lemma calculate_aggregate_rankings_scorable (results : list stage2_result) label_to_model :
  Forall scorable results ->
  exists out, calculate_aggregate_rankings results label_to_model = Some out.
Proof.
  intros Hall. unfold calculate_aggregate_rankings. cbv zeta.
  assert (Hfold : forall t, exists t',
            foldM (score_evaluator (Z.of_nat (size label_to_model)) label_to_model) t results
            = Some t').
  { induction Hall as [|r results Hr Hall IH]; intros t; [eexists; reflexivity|].
    cbn [foldM].
    destruct (score_evaluator_scorable (Z.of_nat (size label_to_model)) label_to_model t r Hr)
      as [t1 ->].
    apply IH. }
  destruct (Hfold empty_tally) as [t' ->]. cbn. eauto.
Qed.

End ScorerProps.

(** ** Theorems on the aggregate scorer *)

Section OrdinalScores.
Context {U : Unicode} {P : Python}.

Lemma fold_position_scores n label_to_model evaluator_model subject pls :
  forall t,
    let t' := fold_left (score_position n label_to_model evaluator_model) pls t in
    score_of t' subject
    = fold_left PrimFloat.add
        (position_scores n label_to_model evaluator_model subject pls) (score_of t subject)
    /\ count_of t' subject
       = (count_of t subject
          + Z.of_nat (length (position_scores n label_to_model evaluator_model subject pls)))%Z.
Proof.
  induction pls as [|pl pls IH]; intros t; cbn zeta.
  - cbn. split; [reflexivity | lia].
  - cbn [fold_left]. destruct (IH (score_position n label_to_model evaluator_model t pl)) as [H1 H2].
    cbn zeta in H1, H2. rewrite H1, H2. clear H1 H2 IH.
    unfold position_scores at 2 4. cbn [omap list_omap]. fold (position_scores n label_to_model evaluator_model subject pls).
    unfold score_position.
    destruct (label_to_model !! pl.2) as [s|] eqn:E.
    + rewrite score_of_add_score, count_of_add_score.
      destruct (decide (Some s = Some subject)) as [[= ->]|Hne].
      * destruct (decide (subject = subject)); [|congruence].
        cbn [fold_left length]. unfold mock_score, weight_of. split; [reflexivity | lia].
      * destruct (decide (s = subject)); [congruence|]. split; reflexivity.
    + destruct (decide (None = Some subject)); [discriminate|]. split; reflexivity.
Qed.

End OrdinalScores.

(** C2.  For an evaluator output without a rubric (its rubric is [None],
    or another value that is false as a condition, like the empty
    array), the scorer adds to the total of each subject, for every
    1-based position [p] of the ordinal ranking whose label names that
    subject, [(n - p + 1) * 10] with [n] the number of candidates, times
    0.5 when the evaluator is the subject and 1.0 otherwise, in the
    order of the positions, and counts one evaluation for each.  With
    one evaluator that ranks itself first among two candidates, both end
    with [total_score] 10.0. *)
Theorem ordinal_fallback_scores `{U : Unicode} `{P : Python} (label_to_model : gmap text text)
    (ranking : stage2_result) (parsed_ranking : list text) (t : tally) :
  let n := Z.of_nat (size label_to_model) in
  let points (subject : text) : list float :=
    omap (fun pl : Z * text =>
            if decide (label_to_model !! pl.2 = Some subject)
            then Some (float_of_Z ((n - pl.1 + 1) * 10)
                       * (if decide (s2_model ranking = subject) then 0.5 else 1))%float
            else None)
         (enumerate_from 1 parsed_ranking) in
  truthy (s2_rubric ranking) = false ->
  fallback_ranking ranking = Some parsed_ranking ->
  (exists t',
     score_evaluator n label_to_model t ranking = Some t'
     /\ forall subject,
          score_of t' subject
          = fold_left PrimFloat.add (points subject) (score_of t subject)
          /\ count_of t' subject
             = (count_of t subject + Z.of_nat (length (points subject)))%Z)
  /\ calculate_aggregate_rankings [self_first_evaluation] two_candidates
     = Some [ {| agg_model := str "model_1"; total_score := 10;
                 average_rank := 10; rankings_count := 1 |};
              {| agg_model := str "model_2"; total_score := 10;
                 average_rank := 10; rankings_count := 1 |} ].
Proof.
  intros n points Hrubric Hparsed. split.
  - exists (fold_left (score_position n label_to_model (s2_model ranking))
              (enumerate_from 1 parsed_ranking) t).
    split.
    + unfold score_evaluator. cbv zeta. rewrite Hrubric, Hparsed. reflexivity.
    + intros subject.
      apply (fold_position_scores n label_to_model (s2_model ranking) subject
               (enumerate_from 1 parsed_ranking) t).
  - vm_compute. reflexivity.
Qed.

Lemma ordinal_fallback_scores_witness :
  truthy (s2_rubric self_first_evaluation) = false
  /\ fallback_ranking (U := ascii_tables) self_first_evaluation
     = Some [str "Response A"; str "Response B"]
  /\ exists t',
       score_evaluator (U := ascii_tables) (P := sample_python) 2 two_candidates empty_tally
         self_first_evaluation
       = Some t'
       /\ score_of t' (str "model_1") = (0 + 20 * 0.5)%float
       /\ score_of t' (str "model_2") = (0 + 10 * 1)%float
       /\ count_of t' (str "model_1") = 1%Z
       /\ count_of t' (str "model_2") = 1%Z.
Proof.
  split; [reflexivity|]. split; [reflexivity|].
  destruct (ordinal_fallback_scores (U := ascii_tables) (P := sample_python) two_candidates
              self_first_evaluation [str "Response A"; str "Response B"] empty_tally
              eq_refl eq_refl) as [(t' & Ht & Hs) _].
  exists t'. split; [exact Ht|].
  pose proof (Hs (str "model_1")) as [H1 H1'].
  pose proof (Hs (str "model_2")) as [H2 H2'].
  repeat split; [exact H1 | exact H2 | exact H1' | exact H2'].
Defined.

(** C10.  Whenever the scorer returns, every entry of its output has an
    evaluation count of at least 1, and a model that no rubric entry and
    no ordinal ranking of any evaluator refers to has no entry.  The
    scorer returns when every rubric is false as a condition or is an
    array of objects whose scores are numbers and whose labels are
    strings; on another rubric it may raise, and then has no output. *)
Theorem aggregate_lists_evaluated_models_only `{U : Unicode} `{P : Python}
    (stage2_results : list stage2_result) (label_to_model : gmap text text) :
  (Forall (fun ranking => truthy (s2_rubric ranking) = false
                          \/ is_Some (as_rubric (s2_rubric ranking))) stage2_results ->
   exists aggregate,
     calculate_aggregate_rankings stage2_results label_to_model = Some aggregate)
  /\ forall aggregate,
       calculate_aggregate_rankings stage2_results label_to_model = Some aggregate ->
       Forall (fun e => (1 <= rankings_count e)%Z) aggregate
       /\ forall model,
            (forall ranking, In ranking stage2_results ->
               (forall evs ev label_short,
                  iterate (s2_rubric ranking) = Some evs ->
                  In ev evs ->
                  py_get (str "response_label") (JString []) ev = Some label_short ->
                  label_to_model !! (RESPONSE_ ++ py_format label_short) <> Some model)
               /\ (forall parsed_ranking label,
                     fallback_ranking ranking = Some parsed_ranking ->
                     In label parsed_ranking ->
                     label_to_model !! label <> Some model)) ->
            forall e, In e aggregate -> agg_model e <> model.
Proof.
  split; [apply calculate_aggregate_rankings_scorable|].
  intros aggregate Hrun.
  destruct (calculate_aggregate_rankings_spec stage2_results label_to_model aggregate Hrun)
    as (Hcount & Hmodels).
  split.
  - apply List.Forall_forall. exact Hcount.
  - intros model Hunref e He Hm.
    destruct (proj1 (Hmodels model)) as (ranking & Hin & Href); [eauto|].
    destruct (Hunref ranking Hin) as [Hrub Hord].
    unfold refers_to, names in Href.
    destruct (truthy (s2_rubric ranking)).
    + destruct Href as (evs & ev & label & Hevs & Hev & Hl & Hn).
      unfold entry_label in Hl.
      destruct (py_get (str "response_label") (JString []) ev) as [v|] eqn:Ev; [|discriminate].
      cbn [mbind option_bind] in Hl. apply (inj Some) in Hl. subst label.
      exact (Hrub evs ev v Hevs Hev Ev Hn).
    + destruct Href as (labs & lab & Hl & Hlab & Hn). exact (Hord labs lab Hl Hlab Hn).
Qed.

Lemma aggregate_lists_evaluated_models_only_witness :
  exists aggregate,
    calculate_aggregate_rankings (U := ascii_tables) (P := sample_python)
      [first_only_evaluation] two_candidates
    = Some aggregate
    /\ Forall (fun e => (1 <= rankings_count e)%Z) aggregate
    /\ forall e, In e aggregate -> agg_model e <> str "model_2".
Proof.
  destruct (aggregate_lists_evaluated_models_only (U := ascii_tables) (P := sample_python)
              [first_only_evaluation] two_candidates) as [Hreturns Hout].
  destruct Hreturns as (aggregate & Hrun).
  { repeat constructor. }
  destruct (Hout aggregate Hrun) as [Hcount Hunref].
  exists aggregate. split; [exact Hrun|]. split; [exact Hcount|].
  apply Hunref. intros ranking [<-|[]]. split.
  - intros evs ev label_short Hevs. discriminate Hevs.
  - intros parsed_ranking label Hp Hl. vm_compute in Hp.
    apply (inj Some) in Hp. subst parsed_ranking.
    destruct Hl as [<-|[]]. vm_compute. discriminate.
Defined.

(** ** The order of binary64 numbers *)

Lemma SFltb_key (x y : spec_float) :
  x <> S754_nan -> y <> S754_nan ->
  (SFltb x y = true <-> lex_lt (sf_key x) (sf_key y)).
Proof.
  intros Hx Hy. unfold SFltb, SFcompare, lex_lt.
  destruct x as [sx|sx| |sx mx ex], y as [sy|sy| |sy my ey]; try congruence;
    try destruct sx; try destruct sy; cbn;
    try change (PosDef.Pos.compare_cont Eq mx my) with (Pos.compare mx my);
    try (destruct (Z.compare_spec ex ey); destruct (Pos.compare_spec mx my); cbn);
    (split; [first [discriminate | intros _; lia]
            | first [reflexivity | intros ?; exfalso; lia]]).
Qed.

Lemma Prim2SF_not_nan (x : float) : is_nan x = false -> Prim2SF x <> S754_nan.
Proof.
  intros H. unfold Prim2SF. rewrite H.
  destruct (is_zero x); [discriminate|].
  destruct (is_infinity x); [discriminate|].
  destruct (Z.frexp x) as [r ex].
  destruct (shr_fexp _ _ _ _ _) as [shr e'].
  destruct (shr_m shr); discriminate.
Qed.

Lemma float_ltb_key (x y : float) :
  is_nan x = false -> is_nan y = false ->
  ((x <? y)%float = true <-> lex_lt (sf_key (Prim2SF x)) (sf_key (Prim2SF y))).
Proof.
  intros Hx Hy. rewrite ltb_spec.
  apply SFltb_key; apply Prim2SF_not_nan; assumption.
Qed.

Lemma float_ltb_asym (x y : float) :
  is_nan x = false -> is_nan y = false ->
  (x <? y)%float = true -> (y <? x)%float = false.
Proof.
  intros Hx Hy H. apply (float_ltb_key x y Hx Hy) in H.
  apply not_true_is_false. intros H'. apply (float_ltb_key y x Hy Hx) in H'.
  unfold lex_lt in *. lia.
Qed.

Lemma float_ltb_negtrans (x y z : float) :
  is_nan x = false -> is_nan y = false -> is_nan z = false ->
  (x <? y)%float = false -> (y <? z)%float = false -> (x <? z)%float = false.
Proof.
  intros Hx Hy Hz H1 H2.
  apply not_true_is_false. intros H3.
  apply (float_ltb_key x z Hx Hz) in H3.
  assert (N1 : ~ lex_lt (sf_key (Prim2SF x)) (sf_key (Prim2SF y)))
    by (rewrite <- (float_ltb_key x y Hx Hy), H1; discriminate).
  assert (N2 : ~ lex_lt (sf_key (Prim2SF y)) (sf_key (Prim2SF z)))
    by (rewrite <- (float_ltb_key y z Hy Hz), H2; discriminate).
  unfold lex_lt in *. lia.
Qed.

(** ** The order of numbers *)

Lemma num_ltb_asym (a b : number) : num_ltb a b = true -> num_ltb b a = false.
Proof.
  unfold num_ltb.
  destruct (num_place a) as [ca va], (num_place b) as [cb vb]. cbn [fst snd].
  destruct (num_is_nan a), (num_is_nan b); cbn [negb andb]; try discriminate.
  destruct (Z.ltb_spec ca cb), (Z.eqb_spec ca cb), (Z.ltb_spec va vb),
    (Z.ltb_spec cb ca), (Z.eqb_spec cb ca), (Z.ltb_spec vb va);
    cbn; intros; try reflexivity; try discriminate; lia.
Qed.

Lemma num_ltb_negtrans (a b c : number) :
  num_is_nan a = false -> num_is_nan b = false -> num_is_nan c = false ->
  num_ltb a b = false -> num_ltb b c = false -> num_ltb a c = false.
Proof.
  unfold num_ltb. intros -> -> ->.
  destruct (num_place a) as [ca va], (num_place b) as [cb vb], (num_place c) as [cc vc].
  cbn [fst snd negb andb].
  destruct (Z.ltb_spec ca cb), (Z.eqb_spec ca cb), (Z.ltb_spec va vb),
    (Z.ltb_spec cb cc), (Z.eqb_spec cb cc), (Z.ltb_spec vb vc),
    (Z.ltb_spec ca cc), (Z.eqb_spec ca cc), (Z.ltb_spec va vc);
    cbn; intros; try reflexivity; try discriminate; lia.
Qed.

(** ** Stable sorting on a strict weak order *)

Section StableSortProps.
Context {A : Type} (pass : A -> A -> bool) (ok : A -> Prop).

(** On the elements [ok] admits, [pass] is asymmetric and its negation
    is transitive. *)
Hypothesis pass_asym :
  forall x y, ok x -> ok y -> pass x y = true -> pass y x = false.
Hypothesis pass_negtrans :
  forall x y z, ok x -> ok y -> ok z ->
                pass x y = false -> pass y z = false -> pass x z = false.

Lemma insert_sorted_Forall (P : A -> Prop) (x : A) (l : list A) :
  P x -> List.Forall P l -> List.Forall P (insert_sorted pass x l).
Proof.
  intros Hx Hl. induction Hl as [|y l Hy Hl IH]; simpl.
  - constructor; [exact Hx | constructor].
  - destruct (pass x y); constructor; try assumption. constructor; assumption.
Qed.

Lemma stable_sort_Forall (P : A -> Prop) (l : list A) :
  List.Forall P l -> List.Forall P (stable_sort pass l).
Proof.
  intros Hl. induction Hl as [|x l Hx Hl IH]; simpl; [constructor|].
  apply insert_sorted_Forall; assumption.
Qed.

Lemma insert_sorted_sorted (x : A) (l : list A) :
  ok x -> List.Forall ok l ->
  StronglySorted (in_order pass) l -> StronglySorted (in_order pass) (insert_sorted pass x l).
Proof using pass_asym pass_negtrans.
  intros Hx Hok Hs. induction Hs as [|y l Hs IH Hy]; simpl.
  - constructor; constructor.
  - inversion Hok as [|? ? Hoky Hokl]; subst.
    destruct (pass x y) eqn:Hp.
    + constructor; [apply IH, Hokl|].
      apply insert_sorted_Forall; [|exact Hy].
      apply pass_asym; assumption.
    + constructor; [constructor; assumption|].
      constructor; [exact Hp|].
      rewrite List.Forall_forall in Hy, Hokl |- *. intros z Hz.
      apply (pass_negtrans x y z); auto. apply Hy, Hz.
Qed.

(** The result is in order. *)
Lemma stable_sort_sorted (l : list A) :
  List.Forall ok l -> StronglySorted (in_order pass) (stable_sort pass l).
Proof using pass_asym pass_negtrans.
  intros Hok. induction Hok as [|x l Hx Hok IH]; simpl; [constructor|].
  apply insert_sorted_sorted; [exact Hx | apply stable_sort_Forall, Hok | exact IH].
Qed.

Lemma insert_sorted_filter_out (P : A -> bool) (x : A) (l : list A) :
  P x = false -> List.filter P (insert_sorted pass x l) = List.filter P l.
Proof.
  intros Hx. induction l as [|y l IH]; simpl.
  - rewrite Hx. reflexivity.
  - destruct (pass x y); simpl; [rewrite IH | rewrite Hx]; reflexivity.
Qed.

Lemma insert_sorted_filter_ties (k x : A) (l : list A) :
  ok k -> ok x -> List.Forall ok l ->
  List.filter (ties pass k) (insert_sorted pass x l) = List.filter (ties pass k) (x :: l).
Proof using pass_negtrans.
  intros Hk Hx Hl. induction Hl as [|y l Hy Hl IH]; [reflexivity|].
  cbn [insert_sorted]. destruct (pass x y) eqn:Hp; [|reflexivity].
  destruct (ties pass k x) eqn:Hkx.
  - assert (Hky : ties pass k y = false).
    { apply not_true_is_false. intros Hky. unfold ties in Hkx, Hky.
      apply andb_true_iff in Hkx as [_ H1]. apply andb_true_iff in Hky as [H2 _].
      apply negb_true_iff in H1, H2.
      rewrite (pass_negtrans x k y Hx Hk Hy H1 H2) in Hp. discriminate. }
    cbn [List.filter] in IH |- *. rewrite Hky, Hkx in *. exact IH.
  - cbn [List.filter]. rewrite Hkx.
    rewrite (insert_sorted_filter_out (ties pass k) x l Hkx). reflexivity.
Qed.

(** The result keeps the elements that tie in the order they had. *)
Lemma stable_sort_stable (k : A) (l : list A) :
  ok k -> List.Forall ok l ->
  List.filter (ties pass k) (stable_sort pass l) = List.filter (ties pass k) l.
Proof using pass_negtrans.
  intros Hk Hl. induction Hl as [|x l Hx Hl IH]; [reflexivity|].
  cbn [stable_sort foldr]. fold (stable_sort pass l).
  rewrite insert_sorted_filter_ties; [|assumption..|apply stable_sort_Forall, Hl].
  cbn [List.filter]. rewrite IH. reflexivity.
Qed.

End StableSortProps.

(** ** The label map of Round 2 *)

Lemma labels_snoc (n : nat) : labels (S n) = labels n ++ [[N.of_nat (65 + n)]].
Proof. unfold labels. rewrite seq_S, map_app. reflexivity. Qed.

Lemma labels_length (n : nat) : length (labels n) = n.
Proof. unfold labels. rewrite length_map, length_seq. reflexivity. Qed.

Lemma make_label_to_model_snoc (stage1_results : list stage1_result) (r : stage1_result) :
  make_label_to_model (stage1_results ++ [r])
  = <[RESPONSE_ ++ [N.of_nat (65 + length stage1_results)] := s1_model r]>
      (make_label_to_model stage1_results).
Proof.
  unfold make_label_to_model.
  rewrite length_app. cbn [length]. rewrite Nat.add_1_r, labels_snoc.
  rewrite zip_with_app by (rewrite labels_length; reflexivity).
  cbn [zip_with]. rewrite fold_left_app. reflexivity.
Qed.

Lemma label_inj (i j : nat) :
  RESPONSE_ ++ [N.of_nat (65 + i)] = RESPONSE_ ++ [N.of_nat (65 + j)] -> i = j.
Proof. intros H. apply app_inv_head in H. injection H as H. lia. Qed.

(** The label of the [i]-th result names its model, and the labels
    beyond the results name nothing. *)
Lemma make_label_to_model_lookup (stage1_results : list stage1_result) (i : nat) :
  make_label_to_model stage1_results !! (RESPONSE_ ++ [N.of_nat (65 + i)])
  = s1_model <$> stage1_results !! i.
Proof.
  induction stage1_results as [|r rs IH] using rev_ind; [reflexivity|].
  rewrite make_label_to_model_snoc.
  destruct (decide (i = length rs)) as [->|Hne].
  - rewrite lookup_insert_eq, list_lookup_middle by reflexivity. reflexivity.
  - rewrite lookup_insert_ne by (intros E; apply label_inj in E; congruence).
    rewrite IH. destruct (decide (i < length rs)) as [Hlt|Hge].
    + rewrite lookup_app_l by exact Hlt. reflexivity.
    + rewrite !lookup_ge_None_2; [reflexivity | rewrite length_app; cbn; lia | lia].
Qed.

Lemma make_label_to_model_keys (stage1_results : list stage1_result) (label m : text) :
  make_label_to_model stage1_results !! label = Some m ->
  exists i, i < length stage1_results /\ label = RESPONSE_ ++ [N.of_nat (65 + i)].
Proof.
  induction stage1_results as [|r rs IH] using rev_ind; [discriminate|].
  rewrite make_label_to_model_snoc, length_app. cbn [length].
  destruct (decide (label = RESPONSE_ ++ [N.of_nat (65 + length rs)])) as [->|Hne].
  - intros _. exists (length rs). split; [lia | reflexivity].
  - rewrite lookup_insert_ne by congruence. intros H.
    destruct (IH H) as (i & Hi & ->). exists i. split; [lia | reflexivity].
Qed.

Lemma make_label_to_model_size (stage1_results : list stage1_result) :
  size (make_label_to_model stage1_results) = length stage1_results.
Proof.
  induction stage1_results as [|r rs IH] using rev_ind; [reflexivity|].
  rewrite make_label_to_model_snoc, length_app. cbn [length].
  rewrite map_size_insert_None; [rewrite IH; lia|].
  rewrite make_label_to_model_lookup, lookup_ge_None_2 by lia. reflexivity.
Qed.

(** ** Theorems on the evaluator replies *)

Section ReplyProps.
Context {U : Unicode} {J : JsonLib} {P : Python}.

Lemma omap_map {A B C : Type} (g : A -> B) (h : B -> option C) (l : list A) :
  omap h (map g l) = omap (fun x => h (g x)) l.
Proof.
  induction l as [|x l IH]; [reflexivity|].
  cbn [map omap list_omap]. rewrite IH. reflexivity.
Qed.

(** The key is computed on dictionaries only. *)
Lemma sort_key_object (x key : json) : sort_key x = Some key -> is_object x = true.
Proof. destruct x; try discriminate. reflexivity. Qed.

(** The comprehension, on dictionaries. *)
Lemma rubric_ranking_objects (evals : list json) :
  Forall (fun ev => is_object ev = true) evals ->
  rubric_ranking evals = Some (omap entry_token evals).
Proof.
  unfold rubric_ranking.
  set (f := fun ev : json =>
              py_in (str "response_label") ev ≫= fun labelled : bool =>
                if labelled
                then py_get (str "response_label") JNull ev ≫= fun label =>
                       Some [RESPONSE_ ++ py_format label]
                else Some []).
  intros Hall.
  assert (Hm : exists tokens, mapM f evals = Some tokens
                              /\ concat tokens = omap entry_token evals).
  { induction Hall as [|ev evals Hev Hall (tokens & Hm & Hc)].
    - exists []. split; reflexivity.
    - destruct ev as [| | | | |items|fields]; try discriminate Hev.
      cbn [mapM]. rewrite Hm. cbn [omap list_omap entry_token].
      unfold f at 1. cbn [py_in py_get mbind option_bind].
      destruct (dict_get (str "response_label") fields) as [label|].
      + rewrite bool_decide_eq_true_2 by eauto. cbn [default from_option id mbind option_bind].
        eexists. split; [reflexivity|]. cbn [concat app]. rewrite Hc. reflexivity.
      + rewrite bool_decide_eq_false_2 by (intros [? ?]; discriminate).
        cbn [mbind option_bind].
        eexists. split; [reflexivity|]. cbn [concat app]. exact Hc. }
  destruct Hm as (tokens & -> & Hc). cbn [mbind option_bind]. rewrite Hc. reflexivity.
Qed.

(** What the sort returns is made of entries of the rubric, which are
    all dictionaries. *)
Lemma sorted_evals_In (rubric : json) (sorted : list json) :
  sorted_evals rubric = Some sorted ->
  exists evs,
    iterate rubric = Some evs
    /\ Forall (fun ev => is_object ev = true) evs
    /\ forall ev, In ev sorted -> In ev evs.
Proof.
  unfold sorted_evals.
  destruct (iterate rubric) as [evs|]; [|discriminate]. cbn [mbind option_bind].
  destruct (mapM sort_key evs) as [keys|] eqn:Ek; [|discriminate]. cbn [mbind option_bind].
  intros Hs. exists evs. split; [reflexivity|]. split.
  - apply mapM_Some_1 in Ek. clear Hs.
    induction Ek as [|ev key evs keys Hk Hall IH]; constructor; [|exact IH].
    exact (sort_key_object _ _ Hk).
  - intros ev Hev. destruct (mapM ordered_key keys) as [scores|].
    + apply (inj Some) in Hs. subst sorted.
      apply in_map_iff in Hev as ([ev' score] & <- & Hin).
      apply stable_sort_In in Hin. apply list_elem_of_In in Hin.
      apply elem_of_zip_l in Hin. apply list_elem_of_In. exact Hin.
    + destruct (sorted_other keys) as [positions|]; [|discriminate].
      cbn [mbind option_bind] in Hs. apply (inj Some) in Hs. subst sorted.
      apply list_elem_of_In, list_elem_of_omap in Hev as (i & _ & Hi).
      apply list_elem_of_In. exact (list_elem_of_lookup_2 _ _ _ Hi).
Qed.

(** A rubric without a single label gives no ranking, whatever the sort
    does. *)
Lemma unlabelled_ranking_empty (rubric : json) :
  (forall evs ev fields,
     iterate rubric = Some evs -> In ev evs -> ev = JObject fields ->
     dict_get (str "response_label") fields = None) ->
  default [] (sorted_evals rubric ≫= rubric_ranking) = [].
Proof.
  intros Hno. destruct (sorted_evals rubric) as [sorted|] eqn:Es; [|reflexivity].
  destruct (sorted_evals_In _ _ Es) as (evs & Hevs & Hobj & Hin).
  cbn [mbind option_bind].
  assert (Hobj' : Forall (fun ev => is_object ev = true) sorted).
  { apply List.Forall_forall. intros ev Hev.
    exact (proj1 (List.Forall_forall _ _) Hobj ev (Hin ev Hev)). }
  rewrite (rubric_ranking_objects _ Hobj'). cbn [default from_option id].
  assert (Hnone : forall ev, In ev sorted -> entry_token ev = None).
  { intros ev Hev. destruct ev as [| | | | |items|fields]; try reflexivity.
    cbn [entry_token]. rewrite (Hno evs _ fields Hevs (Hin _ Hev) eq_refl). reflexivity. }
  clear -Hnone. induction sorted as [|ev sorted IH]; [reflexivity|].
  cbn [omap list_omap]. rewrite (Hnone ev) by (left; reflexivity).
  apply IH. intros ev' Hev'. apply Hnone. right. exact Hev'.
Qed.

(** The sort on keys that are numbers. *)
Lemma sorted_evals_ordered (rubric : json) (evs : list json) (scores : list number) :
  iterate rubric = Some evs ->
  Forall2 (fun ev score => sort_key ev ≫= ordered_key = Some score) evs scores ->
  sorted_evals rubric
  = Some (map fst (stable_sort (fun x y : json * number => num_ltb x.2 y.2)
                     (zip evs scores))).
Proof.
  intros Hevs Hall. unfold sorted_evals. rewrite Hevs. cbn [mbind option_bind].
  assert (Hk : exists keys, mapM sort_key evs = Some keys
                            /\ mapM ordered_key keys = Some scores).
  { clear Hevs. induction Hall as [|ev score evs' scores' Hev Hall (keys & Hk & Ho)].
    - exists []. split; reflexivity.
    - destruct (sort_key ev) as [key|] eqn:Ek; [|discriminate].
      cbn [mbind option_bind] in Hev. exists (key :: keys).
      cbn [mapM]. rewrite Ek, Hk, Hev, Ho. split; reflexivity. }
  destruct Hk as (keys & -> & Ho). cbn [mbind option_bind]. rewrite Ho. reflexivity.
Qed.

Lemma sorted_evals_numbers (rubric : json) (evs : list json) (scores : list number) :
  iterate rubric = Some evs ->
  Forall2 (fun ev score => sort_key ev = Some (of_number score)
                           /\ num_is_nan score = false) evs scores ->
  sorted_evals rubric
  = Some (map fst (stable_sort (fun x y : json * number => num_ltb x.2 y.2)
                     (zip evs scores))).
Proof.
  intros Hevs Hall. apply (sorted_evals_ordered _ _ _ Hevs).
  eapply List.Forall2_impl; [|exact Hall]. cbn beta. intros ev score [Hk Hn].
  rewrite Hk. cbn [mbind option_bind]. unfold ordered_key.
  assert (Hnum : as_number (of_number score) = Some score) by (destruct score; reflexivity).
  rewrite Hnum. cbn [mbind option_bind]. rewrite Hn. reflexivity.
Qed.

(** The key of an entry whose scores are numbers. *)
Lemma sort_key_numbers (fields : list (text * json)) (a r c cl conf s1 s2 s3 score : number) :
  as_number (default (JInt 0) (dict_get (str "accuracy") fields)) = Some a ->
  as_number (default (JInt 0) (dict_get (str "reasoning") fields)) = Some r ->
  as_number (default (JInt 0) (dict_get (str "completeness") fields)) = Some c ->
  as_number (default (JInt 0) (dict_get (str "clarity") fields)) = Some cl ->
  as_number (default (JFloat 1) (dict_get (str "confidence") fields)) = Some conf ->
  num_add a r = Some s1 -> num_add s1 c = Some s2 -> num_add s2 cl = Some s3 ->
  num_mul s3 conf = Some score ->
  sort_key (JObject fields) = Some (of_number score).
Proof.
  intros Ha Hr Hc Hcl Hconf H1 H2 H3 H4.
  assert (Hnum : forall n, as_number (of_number n) = Some n) by (intros []; reflexivity).
  assert (Hadd : forall x y n m s,
            as_number x = Some n -> as_number y = Some m -> num_add n m = Some s ->
            py_add x y = Some (of_number s)).
  { intros x y n m s Hx Hy Hs. unfold py_add. rewrite Hx, Hy, Hs. reflexivity. }
  unfold sort_key. cbn [py_get mbind option_bind].
  rewrite (Hadd _ _ _ _ _ Ha Hr H1). cbn [mbind option_bind].
  rewrite (Hadd _ _ _ _ _ (Hnum s1) Hc H2). cbn [mbind option_bind].
  rewrite (Hadd _ _ _ _ _ (Hnum s2) Hcl H3). cbn [mbind option_bind].
  unfold py_mul. rewrite Hnum, Hconf, H4. reflexivity.
Qed.


Lemma make_label_to_model_bare (stage1_results : list stage1_result) :
  make_label_to_model stage1_results !! RESPONSE_ = None.
Proof.
  destruct (make_label_to_model stage1_results !! RESPONSE_) as [m|] eqn:E; [|reflexivity].
  destruct (make_label_to_model_keys _ _ _ E) as (i & _ & Hi).
  apply (f_equal (@length N)) in Hi. rewrite length_app in Hi. cbn in Hi. lia.
Qed.

End ReplyProps.

(** C6.  For a reply that is a JSON object whose [evaluations] is an
    array of objects with scores that are numbers and with a label on
    one entry at least.  The score of an entry is
    [(accuracy + reasoning + completeness + clarity) * confidence], a
    missing score being 0 and a missing confidence 1.0, in the arithmetic
    of Python, which is exact on integers; no score is a NaN.  The
    entries sorted are a rearrangement of the entries in which no entry
    stands ahead of one with a greater score, and in which the entries
    that tie with a given score keep the order they have in the rubric.
    The "Response <label>" tokens of the sorted entries that have a
    label are the parsed ranking of the Round-2 output, which carries
    the rubric too. *)
Theorem rubric_ranking_sorted_by_score `{U : Unicode} `{J : JsonLib} `{P : Python}
    (model full_text : text) (data : list (text * json)) (entries : list json)
    (scores : list number) :
  let field (fields : list (text * json)) (key : text) (dflt : json) : option number :=
    as_number (default dflt (dict_get key fields)) in
  json_loads (strip_fences full_text) = Some (JObject data) ->
  dict_get (str "evaluations") data = Some (JArray entries) ->
  Forall2 (fun ev score =>
             exists fields accuracy reasoning completeness clarity confidence s1 s2 s3,
               ev = JObject fields
               /\ field fields (str "accuracy") (JInt 0) = Some accuracy
               /\ field fields (str "reasoning") (JInt 0) = Some reasoning
               /\ field fields (str "completeness") (JInt 0) = Some completeness
               /\ field fields (str "clarity") (JInt 0) = Some clarity
               /\ field fields (str "confidence") (JFloat 1) = Some confidence
               /\ num_add accuracy reasoning = Some s1
               /\ num_add s1 completeness = Some s2
               /\ num_add s2 clarity = Some s3
               /\ num_mul s3 confidence = Some score
               /\ num_is_nan score = false) entries scores ->
  (exists fields label,
     In (JObject fields) entries /\ dict_get (str "response_label") fields = Some label) ->
  exists sorted : list (json * number),
    Permutation sorted (zip entries scores)
    /\ StronglySorted (fun a b => num_ltb a.2 b.2 = false) sorted
    /\ (forall score : number,
          num_is_nan score = false ->
          List.filter (fun p => negb (num_ltb score p.2) && negb (num_ltb p.2 score)) sorted
          = List.filter (fun p => negb (num_ltb score p.2) && negb (num_ltb p.2 score))
              (zip entries scores))
    /\ evaluate_reply model full_text
       = Some {| s2_model := model;
                 s2_ranking := full_text;
                 s2_parsed_ranking :=
                   omap (fun p : json * number =>
                           match p.1 with
                           | JObject fields =>
                               match dict_get (str "response_label") fields with
                               | Some label => Some (RESPONSE_ ++ py_format label)
                               | None => None
                               end
                           | _ => None
                           end) sorted;
                 s2_rubric := JArray entries |}.
Proof.
  intros field Hjson Hdata Hall (fields0 & label0 & Hin0 & Hlabel0).
  set (pass := fun x y : json * number => num_ltb x.2 y.2).
  set (ok := fun x : json * number => num_is_nan x.2 = false).
  assert (Hasym : forall x y, ok x -> ok y -> pass x y = true -> pass y x = false)
    by (intros x y _ _; apply num_ltb_asym).
  assert (Hneg : forall x y z, ok x -> ok y -> ok z ->
                               pass x y = false -> pass y z = false -> pass x z = false)
    by (intros x y z; apply num_ltb_negtrans).
  assert (Hok : List.Forall ok (zip entries scores)).
  { clear -Hall. induction Hall as [|ev score evs scs Hev Hall IH]; [constructor|].
    cbn [zip zip_with]. constructor; [|exact IH].
    destruct Hev as (? & ? & ? & ? & ? & ? & ? & ? & ? & H). apply H. }
  assert (Hkeys : Forall2 (fun ev score => sort_key ev = Some (of_number score)
                                           /\ num_is_nan score = false) entries scores).
  { eapply List.Forall2_impl; [|exact Hall]. cbn beta.
    intros ev score (fields & a & r & c & cl & conf & s1 & s2 & s3 & -> & Ha & Hr & Hc & Hcl
                     & Hconf & H1 & H2 & H3 & H4 & Hn).
    split; [|exact Hn].
    exact (sort_key_numbers fields a r c cl conf s1 s2 s3 score Ha Hr Hc Hcl Hconf H1 H2 H3 H4). }
  exists (stable_sort pass (zip entries scores)). split; [|split; [|split]].
  - apply stable_sort_perm.
  - apply (stable_sort_sorted pass ok Hasym Hneg _ Hok).
  - intros score Hscore.
    apply (stable_sort_stable pass ok Hneg (JNull, score) _ Hscore Hok).
  - assert (Hsorted : sorted_evals (JArray entries)
                      = Some (map fst (stable_sort pass (zip entries scores))))
      by (apply sorted_evals_numbers; [reflexivity | exact Hkeys]).
    assert (Hobj : Forall (fun ev => is_object ev = true)
                     (map fst (stable_sort pass (zip entries scores)))).
    { destruct (sorted_evals_In _ _ Hsorted) as (evs & Hevs & Hobj & Hin).
      apply List.Forall_forall. intros ev Hev.
      exact (proj1 (List.Forall_forall _ _) Hobj ev (Hin ev Hev)). }
    unfold evaluate_reply, try_rubric. rewrite Hjson, Hdata, Hsorted.
    cbn [mbind option_bind]. rewrite (rubric_ranking_objects _ Hobj).
    cbn [default from_option id]. rewrite omap_map.
    change (fun x : json * number => entry_token x.1)
      with (fun p : json * number =>
              match p.1 with
              | JObject fields =>
                  match dict_get (str "response_label") fields with
                  | Some label => Some (RESPONSE_ ++ py_format label)
                  | None => None
                  end
              | _ => None
              end).
    match goal with
    | |- context [omap ?g (stable_sort pass (zip entries scores))] =>
        destruct (omap g (stable_sort pass (zip entries scores))) as [|lab labs] eqn:E
    end; [|reflexivity].
    exfalso.
    assert (Hpair : exists score, In (JObject fields0, score) (zip entries scores)).
    { clear -Hall Hin0. induction Hall as [|ev score evs scs Hev Hall IH]; [destruct Hin0|].
      destruct Hin0 as [->|Hin0].
      - exists score. left. reflexivity.
      - destruct (IH Hin0) as [s Hs]. exists s. right. exact Hs. }
    destruct Hpair as [score Hpair]. apply (stable_sort_In pass) in Hpair.
    revert E Hpair. generalize (stable_sort pass (zip entries scores)). intros l.
    induction l as [|p l IH]; [intros _ []|].
    cbn [omap list_omap]. intros E [->|Hin].
    + cbn [fst] in E. rewrite Hlabel0 in E. discriminate E.
    + destruct (match p.1 with JObject _ => _ | _ => _ end); [discriminate E|].
      exact (IH E Hin).
Qed.

Lemma rubric_ranking_sorted_by_score_witness :
  exists sorted,
    Permutation sorted
      (zip [entry (str "A") 8 9 7 8 0.5; entry (str "B") 9 9 9 9 1; entry (str "C") 9 9 9 9 1]
           [NFloat 16; NFloat 36; NFloat 36])
    /\ StronglySorted (fun a b : json * number => num_ltb a.2 b.2 = false) sorted
    /\ evaluate_reply (U := ascii_tables) (J := sample_json) (P := sample_python)
         (str "model_1") rubric_reply
       = Some {| s2_model := str "model_1";
                 s2_ranking := rubric_reply;
                 s2_parsed_ranking :=
                   omap (fun p : json * number =>
                           match p.1 with
                           | JObject fields =>
                               match dict_get (str "response_label") fields with
                               | Some label => Some (RESPONSE_ ++ py_format (P := sample_python) label)
                               | None => None
                               end
                           | _ => None
                           end) sorted;
                 s2_rubric := sample_rubric |}.
Proof.
  destruct (rubric_ranking_sorted_by_score (U := ascii_tables) (J := sample_json)
              (P := sample_python) (str "model_1") rubric_reply
              [(str "evaluations", sample_rubric)]
              [entry (str "A") 8 9 7 8 0.5; entry (str "B") 9 9 9 9 1; entry (str "C") 9 9 9 9 1]
              [NFloat 16; NFloat 36; NFloat 36])
    as (sorted & Hp & Hs & _ & He).
  - vm_compute. reflexivity.
  - reflexivity.
  - repeat (constructor;
            [do 9 eexists; repeat split; first [reflexivity | vm_compute; reflexivity]|]).
    constructor.
  - eexists _, (JString (str "A")). split; [left; reflexivity | reflexivity].
  - exists sorted. split; [exact Hp|]. split; [exact Hs | exact He].
Defined.

Section UnlabelledProps.
Context {U : Unicode} {J : JsonLib} {P : Python}.


End UnlabelledProps.




(** Two replies whose [evaluations] is not an array of typed entries.  A
    number is carried as the rubric and makes the scorer raise.  An
    entry whose score is a string makes the sort raise, so that the
    parsed ranking is the text parse, which finds nothing here; the
    scorer converts the string and scores the entry. *)
Example ill_typed_rubrics :
  evaluate_reply (U := ascii_tables) (J := sample_json) (P := sample_python)
    (str "model_2") number_reply
  = Some {| s2_model := str "model_2"; s2_ranking := number_reply;
            s2_parsed_ranking := []; s2_rubric := JInt 5 |}
  /\ calculate_aggregate_rankings (U := ascii_tables) (P := sample_python)
       [ {| s2_model := str "model_2"; s2_ranking := number_reply;
            s2_parsed_ranking := []; s2_rubric := JInt 5 |} ] two_candidates
     = None
  /\ evaluate_reply (U := ascii_tables) (J := sample_json) (P := sample_python)
       (str "model_2") string_score_reply
     = Some {| s2_model := str "model_2"; s2_ranking := string_score_reply;
               s2_parsed_ranking := []; s2_rubric := JArray [string_score_entry] |}
  /\ calculate_aggregate_rankings (U := ascii_tables) (P := sample_python)
       [ {| s2_model := str "model_2"; s2_ranking := string_score_reply;
            s2_parsed_ranking := []; s2_rubric := JArray [string_score_entry] |} ]
       two_candidates
     = Some [ {| agg_model := str "model_1"; total_score := 8; average_rank := 8;
                 rankings_count := 1 |} ].
Proof. vm_compute. repeat split. Qed.

(** ** Theorems on the council driver *)

Section CouncilProps.
Context {U : Unicode} {J : JsonLib} {P : Python} {W : Type} {O : OpenRouter W}.

Lemma first_category_In (cats : list text) (content cat : text) :
  first_category cats content = Some cat -> In cat cats.
Proof.
  induction cats as [|c cats IH]; simpl; [discriminate|].
  destruct (contains c content); [intros [= ->]; left; reflexivity | right; auto].
Qed.

(** The classifier makes one call to the router and answers with the
    name of a preset. *)
Lemma classify_query_spec (user_query : text) (w : world W) :
  exists category n,
    classify_query user_query w
    = Some (category,
            {| net := n;
               calls := calls w ++ [CallQueryModel ROUTER_MODEL (classify_messages user_query) 10] |})
    /\ In category (map fst COUNCIL_PRESETS).
Proof.
  unfold classify_query, bindM, query_model. fold (classify_messages user_query).
  destruct (net_query_model ROUTER_MODEL (classify_messages user_query) 10 (net w))
    as [response n].
  assert (Hg : In GENERAL (map fst COUNCIL_PRESETS)) by (cbn; tauto).
  destruct response as [[|kv response]|]; try (exists GENERAL, n; split; [reflexivity | exact Hg]).
  match goal with
  | |- context [first_category ?cats ?content] =>
      destruct (first_category cats content) as [cat|] eqn:E
  end.
  - exists cat, n. split; [reflexivity | apply (first_category_In _ _ _ E)].
  - exists GENERAL, n. split; [reflexivity | exact Hg].
Qed.

(** Every preset is a panel of at least three models, and no preset is
    named like the manual override. *)
Lemma preset_panel (category : text) :
  In category (map fst COUNCIL_PRESETS) ->
  exists panel, dict_get category COUNCIL_PRESETS = Some panel
                /\ 3 <= length panel
                /\ category <> MANUAL_OVERRIDE.
Proof.
  cbn [map fst COUNCIL_PRESETS].
  intros [<-|[<-|[<-|[<-|[<-|[<-|[]]]]]]];
    (eexists; split; [vm_compute; reflexivity | split; [cbn; lia | discriminate]]).
Qed.

Lemma get_council_for_query_classified (user_query : text) (w : world W) :
  exists panel category n,
    get_council_for_query user_query None w
    = Some ((panel, category),
            {| net := n;
               calls := calls w ++ [CallQueryModel ROUTER_MODEL (classify_messages user_query) 10] |})
    /\ classify_query user_query w
       = Some (category,
               {| net := n;
                  calls := calls w ++ [CallQueryModel ROUTER_MODEL (classify_messages user_query) 10] |})
    /\ dict_get category COUNCIL_PRESETS = Some panel
    /\ 3 <= length panel
    /\ category <> MANUAL_OVERRIDE.
Proof.
  destruct (classify_query_spec user_query w) as (category & n & Hc & Hin).
  destruct (preset_panel category Hin) as (panel & Hp & Hlen & Hne).
  exists panel, category, n. repeat split; try assumption.
  unfold get_council_for_query, bindM. rewrite Hc, Hp. reflexivity.
Qed.

(** Round 1 makes one fan-out call and keeps the successes. *)
Lemma stage1_collect_responses_spec (user_query : text) (models : list text) (w : world W) :
  exists stage1_results n,
    stage1_collect_responses user_query (Some models) w
    = Some (stage1_results,
            {| net := n;
               calls := calls w ++ [CallQueryModelsParallel models (stage1_messages user_query)] |}).
Proof.
  unfold stage1_collect_responses, bindM, query_models_parallel, ret.
  fold (stage1_messages user_query). cbn [default from_option id].
  destruct (net_query_models_parallel models (stage1_messages user_query) (net w)) as [r n].
  eauto.
Qed.

End CouncilProps.

(** C9.  An empty override list is no override: the call behaves as the
    call without an override does, on every state of the world.  The
    query is classified with one call to the router, and the result is
    the preset panel of the detected category, which is not empty,
    tagged with that category, which is not the manual-override tag. *)
Theorem empty_override_is_classified `{U : Unicode} {W : Type} `{O : OpenRouter W}
    (user_query : text) (w : world W) :
  get_council_for_query user_query (Some []) w = get_council_for_query user_query None w
  /\ exists panel category w',
       get_council_for_query user_query (Some []) w = Some ((panel, category), w')
       /\ classify_query user_query w = Some (category, w')
       /\ calls w' = calls w ++ [CallQueryModel ROUTER_MODEL (classify_messages user_query) 10]
       /\ dict_get category COUNCIL_PRESETS = Some panel
       /\ panel <> []
       /\ category <> MANUAL_OVERRIDE.
Proof.
  split; [reflexivity|].
  destruct (get_council_for_query_classified user_query w)
    as (panel & category & n & Hg & Hc & Hp & Hlen & Hne).
  exists panel, category. eexists. split; [exact Hg|]. split; [exact Hc|].
  split; [reflexivity|]. split; [exact Hp|]. split; [|exact Hne].
  intros ->. simpl in Hlen. lia.
Qed.

(** C3.  The driver resolves the panel and runs Round 1; both return.
    When Round 1 collects fewer than 2 successes the driver returns
    them with an empty Round 2, the error result and a metadata
    dictionary holding the detected category only, and the calls it
    made are the classification, if any, and the Round-1 fan-out: no
    call of Round 2 or Round 3. *)
Theorem run_full_council_minimum_guard `{U : Unicode} `{J : JsonLib} `{P : Python}
    {W : Type} `{O : OpenRouter W} (user_query : text) (council_models : option (list text))
    (w : world W) :
  exists resolved_models detected_category w1 stage1_results w2,
    get_council_for_query user_query council_models w
    = Some ((resolved_models, detected_category), w1)
    /\ stage1_collect_responses user_query (Some resolved_models) w1
       = Some (stage1_results, w2)
    /\ (length stage1_results < 2 ->
        run_full_council user_query council_models w
        = Some ((stage1_results, [],
                 Some {| fr_model := str "error";
                         fr_done := None;
                         fr_response :=
                           str "At least two models are required for consensus. Please try again." |},
                 {| md_label_to_model := None;
                    md_aggregate_rankings := None;
                    md_detected_category := detected_category |}), w2)
        /\ calls w2
           = calls w
             ++ match council_models with
                | Some (_ :: _) => []
                | _ => [CallQueryModel ROUTER_MODEL (classify_messages user_query) 10]
                end
             ++ [CallQueryModelsParallel resolved_models (stage1_messages user_query)]).
Proof.
  assert (Hres : exists resolved_models detected_category w1,
            get_council_for_query user_query council_models w
            = Some ((resolved_models, detected_category), w1)
            /\ calls w1
               = calls w ++ match council_models with
                            | Some (_ :: _) => []
                            | _ => [CallQueryModel ROUTER_MODEL (classify_messages user_query) 10]
                            end).
  { destruct (get_council_for_query_classified user_query w)
      as (panel & category & n & Hg & _).
    destruct council_models as [[|m ms]|].
    - exists panel, category. eexists. split; [exact Hg | reflexivity].
    - exists (m :: ms), MANUAL_OVERRIDE, w. split; [reflexivity|].
      rewrite app_nil_r. reflexivity.
    - exists panel, category. eexists. split; [exact Hg | reflexivity]. }
  destruct Hres as (resolved_models & detected_category & w1 & Hg & Hcalls1).
  destruct (stage1_collect_responses_spec user_query resolved_models w1)
    as (stage1_results & n2 & Hs1).
  exists resolved_models, detected_category, w1, stage1_results. eexists.
  split; [exact Hg|]. split; [exact Hs1|].
  intros Hlen. split.
  - unfold run_full_council, bindM. rewrite Hg, Hs1.
    apply Nat.ltb_lt in Hlen. rewrite Hlen. reflexivity.
  - cbn [calls]. rewrite Hcalls1, <- app_assoc. reflexivity.
Qed.

Lemma run_full_council_minimum_guard_witness :
  exists w2,
    run_full_council (U := ascii_tables) (J := sample_json) (P := sample_python)
      (O := dead_network) (str "Hello") (Some three_models) {| net := tt; calls := [] |}
    = Some (([], [], Some error_result,
             {| md_label_to_model := None;
                md_aggregate_rankings := None;
                md_detected_category := MANUAL_OVERRIDE |}), w2)
    /\ calls w2 = [CallQueryModelsParallel three_models (stage1_messages (str "Hello"))].
Proof.
  destruct (run_full_council_minimum_guard (U := ascii_tables) (J := sample_json)
              (P := sample_python) (O := dead_network) (str "Hello") (Some three_models)
              {| net := tt; calls := [] |})
    as (resolved & category & w1 & stage1 & w2 & Hg & Hs1 & Hguard).
  injection Hg as <- <- <-. injection Hs1 as <- <-.
  eexists. apply Hguard. cbn. lia.
Defined.

Example sample_history_ratings :
  calculate_elo_ratings (L := pow_at_zero) sample_history
  = (Some [ {| rr_model := str "a"; rr_elo := 1016; rr_wins := 1; rr_losses := 0; rr_appearances := 1 |};
            {| rr_model := str "c"; rr_elo := 1000; rr_wins := 0; rr_losses := 0; rr_appearances := 1 |};
            {| rr_model := str "b"; rr_elo := 984; rr_wins := 0; rr_losses := 1; rr_appearances := 1 |} ],
     sample_history).
Proof. vm_compute. reflexivity. Qed.

(** ** The rating engine *)

Section FoldMProps.
Context {A B : Type} (f : B -> A -> option B).

Lemma foldM_app (l1 l2 : list A) (b : B) :
  foldM f b (l1 ++ l2) = match foldM f b l1 with
                         | Some b' => foldM f b' l2
                         | None => None
                         end.
Proof.
  revert b. induction l1 as [|x l1 IH]; intros b; cbn [foldM app]; [reflexivity|].
  destruct (f b x); [apply IH | reflexivity].
Qed.

(** A loop keeps what each of its steps keeps. *)
Lemma foldM_invariant (I : B -> Prop) (P : A -> Prop) :
  (forall b x b', P x -> I b -> f b x = Some b' -> I b') ->
  forall l b b', (forall x, In x l -> P x) -> I b -> foldM f b l = Some b' -> I b'.
Proof.
  intros Hstep. induction l as [|x l IH]; intros b b' HP Hb; cbn [foldM].
  - intros [= <-]. exact Hb.
  - destruct (f b x) as [b1|] eqn:E; [|discriminate].
    apply IH; [intros y Hy; apply HP; right; exact Hy|].
    apply (Hstep b x b1); [apply HP; left; reflexivity | exact Hb | exact E].
Qed.

(** The steps that change nothing can be left out. *)
Lemma foldM_skip (Q : A -> Prop) `{forall x, Decision (Q x)} :
  (forall b x, ~ Q x -> f b x = Some b) ->
  forall l b, foldM f b l = foldM f b (filter Q l).
Proof.
  intros Hid. induction l as [|x l IH]; intros b; [reflexivity|].
  rewrite filter_cons. destruct (decide (Q x)) as [Hq|Hq]; cbn [foldM].
  - destruct (f b x); [apply IH | reflexivity].
  - rewrite (Hid b x Hq). apply IH.
Qed.

End FoldMProps.

Lemma mapM_In {A B : Type} (f : A -> option B) (l : list A) (k : list B) (x : A) :
  mapM f l = Some k -> In x l -> exists y, f x = Some y /\ In y k.
Proof.
  revert k. induction l as [|a l IH]; intros k Hm Hin; [destruct Hin|].
  cbn [mapM] in Hm.
  destruct (f a) as [b|] eqn:Ea; [|discriminate].
  destruct (mapM f l) as [k'|] eqn:Ek; [|discriminate].
  cbn in Hm. injection Hm as <-.
  destruct Hin as [<-|Hin].
  - exists b. split; [exact Ea | left; reflexivity].
  - destruct (IH k' eq_refl Hin) as (y & Hy & Hk). exists y. split; [exact Hy | right; exact Hk].
Qed.

Section DictMoreProps.
Context {K : Type} `{EqDecision K} {V : Type}.
Implicit Types (d : list (K * V)) (k : K) (v : V).

Lemma dict_get_app_single d k k' v :
  dict_get k' (d ++ [(k, v)])
  = match dict_get k' d with
    | Some x => Some x
    | None => if decide (k' = k) then Some v else None
    end.
Proof.
  induction d as [|[k0 v0] d IH]; simpl; [reflexivity|].
  destruct (decide (k' = k0)); [reflexivity | exact IH].
Qed.

Lemma dict_get_touch_ne d k k' dflt :
  k <> k' -> dict_get k' (dict_touch k dflt d) = dict_get k' d.
Proof.
  intros Hne. unfold dict_touch. destruct (dict_get k d); [reflexivity|].
  rewrite dict_get_app_single.
  destruct (dict_get k' d); [reflexivity|].
  destruct (decide (k' = k)); [congruence | reflexivity].
Qed.

Lemma dict_get_touch_Some d k k' dflt v :
  dict_get k' d = Some v -> dict_get k' (dict_touch k dflt d) = Some v.
Proof.
  intros H. unfold dict_touch. destruct (dict_get k d); [exact H|].
  rewrite dict_get_app_single, H. reflexivity.
Qed.

Lemma dict_get_touch_eq d k dflt :
  dict_get k (dict_touch k dflt d) = Some (default dflt (dict_get k d)).
Proof.
  unfold dict_touch. destruct (dict_get k d) eqn:E; [exact E|].
  rewrite dict_get_app_single, E.
  destruct (decide (k = k)); [reflexivity | congruence].
Qed.

Lemma dict_set_values_In d k v x :
  In x (map snd (dict_set k v d)) -> x = v \/ In x (map snd d).
Proof.
  induction d as [|[k0 v0] d IH]; simpl.
  - intros [<-|[]]. left. reflexivity.
  - destruct (decide (k = k0)); simpl.
    + intros [<-|H]; auto.
    + intros [<-|H]; [auto|]. destruct (IH H); auto.
Qed.

Lemma dict_get_values_In d k v : dict_get k d = Some v -> In v (map snd d).
Proof. intros H. apply dict_get_Some_In in H. apply (in_map snd) in H. exact H. Qed.

End DictMoreProps.

Section EloProps.
Context {L : Libm}.

Lemma elo_pair_tied (a b : ranking_row) (st : ratings) :
  rank_position a = rank_position b -> elo_pair a st b = Some st.
Proof.
  intros H. unfold elo_pair.
  destruct (decide (rank_position a = rank_position b)); [reflexivity | contradiction].
Qed.

Lemma foldM_elo_pair_map (a : ranking_row) (rest : list ranking_row) (st : ratings) :
  foldM elo_step st (map (pair a) rest) = foldM (elo_pair a) st rest.
Proof.
  revert st. induction rest as [|b rest IH]; intros st; [reflexivity|].
  cbn [map foldM]. unfold elo_step at 1. cbn [fst snd].
  destruct (elo_pair a st b); [apply IH | reflexivity].
Qed.

(** The two nested loops, as one loop over the pairs. *)
Lemma elo_group_pairs (ranks : list ranking_row) (st : ratings) :
  elo_group st ranks = foldM elo_step st (pairs_of ranks).
Proof.
  revert st. induction ranks as [|a rest IH]; intros st; [reflexivity|].
  cbn [elo_group pairs_of]. rewrite foldM_app, foldM_elo_pair_map.
  destruct (foldM (elo_pair a) st rest); [apply IH | reflexivity].
Qed.

Lemma pairs_of_In (ranks : list ranking_row) (p : ranking_row * ranking_row) :
  In p (pairs_of ranks) -> In p.1 ranks /\ In p.2 ranks.
Proof.
  induction ranks as [|a rest IH]; [intros []|].
  cbn [pairs_of]. rewrite in_app_iff, in_map_iff.
  intros [(b & <- & Hb)|H].
  - split; [left; reflexivity | right; exact Hb].
  - destruct (IH H). split; right; assumption.
Qed.

Lemma elo_pair_untouched (model : text) (a b : ranking_row) (st st' : ratings) :
  subject_model a <> model -> subject_model b <> model ->
  untouched model st -> elo_pair a st b = Some st' -> untouched model st'.
Proof.
  intros Ha Hb (He & Hw & Hl). unfold elo_pair.
  destruct (decide (rank_position a = rank_position b)); [intros [= <-]; repeat split; assumption|].
  set (winner := if (rank_position a <? rank_position b)%Z then subject_model a else subject_model b).
  set (loser := if (rank_position a <? rank_position b)%Z then subject_model b else subject_model a).
  assert (Hwin : winner <> model) by (unfold winner; destruct (_ <? _)%Z; assumption).
  assert (Hlos : loser <> model) by (unfold loser; destruct (_ <? _)%Z; assumption).
  destruct (expected _ _) as [el|]; destruct (expected _ _) as [ew|];
    cbn [mbind option_bind]; try discriminate.
  intros [= <-]. unfold untouched. cbn [elo wins losses]. repeat split.
  - rewrite !dict_get_set_ne, !dict_get_touch_ne by assumption. exact He.
  - rewrite dict_get_update_ne by assumption. exact Hw.
  - rewrite dict_get_update_ne by assumption. exact Hl.
Qed.

Lemma elo_group_untouched (model : text) (ranks : list ranking_row) (st st' : ratings) :
  (forall r, In r ranks -> subject_model r <> model) ->
  untouched model st -> elo_group st ranks = Some st' -> untouched model st'.
Proof.
  intros Hr Hst. rewrite elo_group_pairs.
  apply (foldM_invariant elo_step (untouched model)
           (fun p => subject_model p.1 <> model /\ subject_model p.2 <> model)).
  - intros b [x y] b' [H1 H2] Hb. apply elo_pair_untouched; assumption.
  - intros p Hp. apply pairs_of_In in Hp as [H1 H2]. split; apply Hr; assumption.
  - exact Hst.
Qed.

(** The rows of the groups are the rows that were fetched. *)
Lemma group_rows_In (ranking_rows : list ranking_row) (g : list ranking_row) (r : ranking_row) :
  In g (map snd (group_rows ranking_rows)) -> In r g -> In r ranking_rows.
Proof.
  unfold group_rows.
  assert (H : forall rows groups,
            (forall g r, In g (map snd groups) -> In r g -> In r ranking_rows) ->
            (forall r, In r rows -> In r ranking_rows) ->
            forall g r,
              In g (map snd (fold_left
                               (fun groups r =>
                                  dict_update (message_id r, evaluator_model r)
                                    (fun l => l ++ [r]) [] groups) rows groups)) ->
              In r g -> In r ranking_rows).
  { induction rows as [|x rows IH]; intros groups Hg Hrows; [exact Hg|].
    cbn [fold_left]. apply IH; [|intros r' Hr'; apply Hrows; right; exact Hr'].
    intros g' r' Hin Hr'. unfold dict_update in Hin.
    apply dict_set_values_In in Hin as [->|Hin]; [|exact (Hg g' r' Hin Hr')].
    apply in_app_iff in Hr' as [Hr'|[<-|[]]]; [|apply Hrows; left; reflexivity].
    destruct (dict_get _ groups) as [g0|] eqn:E; [|destruct Hr'].
    apply (Hg g0 r'); [apply (dict_get_values_In _ _ _ E) | exact Hr']. }
  apply (H ranking_rows []); [intros g' r' [] | auto].
Qed.

(** The loop over the Round-1 rows counts the rows of each model and
    gives each model that appears the base rating. *)
Lemma count_appearances_spec (stage1_rows : list response_row) (model : text) :
  default 0%Z (dict_get model (count_appearances stage1_rows).1)
  = Z.of_nat (length (filter (fun r => mr_model r = model) stage1_rows))
  /\ (In model (map mr_model stage1_rows) ->
      dict_get model (count_appearances stage1_rows).2 = Some BASE_RATING).
Proof.
  unfold count_appearances.
  assert (H : forall rows (acc : list (text * Z) * list (text * float)),
            (forall v, dict_get model acc.2 = Some v -> v = BASE_RATING) ->
            let acc' := fold_left
                          (fun acc r =>
                             (dict_update (mr_model r) (fun c => (c + 1)%Z) 0%Z acc.1,
                              dict_touch (mr_model r) BASE_RATING acc.2)) rows acc in
            default 0%Z (dict_get model acc'.1)
            = (default 0%Z (dict_get model acc.1)
               + Z.of_nat (length (filter (fun r => mr_model r = model) rows)))%Z
            /\ (In model (map mr_model rows) \/ is_Some (dict_get model acc.2) ->
                dict_get model acc'.2 = Some BASE_RATING)).
  { induction rows as [|x rows IH]; intros acc Hacc; cbn zeta.
    - cbn. split; [lia|]. intros [[]|[v Hv]]. rewrite Hv. f_equal. apply Hacc, Hv.
    - cbn [fold_left].
      set (acc1 := (dict_update (mr_model x) (fun c => (c + 1)%Z) 0%Z acc.1,
                    dict_touch (mr_model x) BASE_RATING acc.2)).
      destruct (IH acc1) as [H1 H2].
      { intros v. subst acc1. cbn [snd].
        destruct (decide (mr_model x = model)) as [E|E].
        - rewrite E, dict_get_touch_eq. intros [= <-].
          destruct (dict_get model acc.2) as [v0|]; [apply Hacc; reflexivity | reflexivity].
        - rewrite dict_get_touch_ne by exact E. apply Hacc. }
      cbn zeta in H1, H2. split.
      + rewrite H1. subst acc1. cbn [fst]. rewrite filter_cons.
        destruct (decide (mr_model x = model)) as [E|E].
        * rewrite E, dict_get_update_eq. cbn [default from_option id length]. lia.
        * rewrite dict_get_update_ne by exact E. reflexivity.
      + intros Hin. apply H2. subst acc1. cbn [snd].
        destruct (decide (mr_model x = model)) as [E|E].
        * right. rewrite E, dict_get_touch_eq. eauto.
        * destruct Hin as [[Hx|Hin]|Hs]; [contradiction | left; exact Hin|].
          right. rewrite dict_get_touch_ne by exact E. exact Hs. }
  destruct (H stage1_rows ([], [])) as [H1 H2]; [intros v; discriminate|].
  cbn zeta in H1, H2. split; [rewrite H1; cbn; lia | intros Hin; apply H2; left; exact Hin].
Qed.

Lemma py_round_base : py_round BASE_RATING = Some 1000%Z.
Proof. vm_compute. reflexivity. Qed.

(** The rating of a model that appears in Round 1 and is the subject of
    no fetched ranking row. *)
Lemma elo_from_rows_unranked (ranking_rows : list ranking_row)
    (stage1_rows : list response_row) (model : text) (out : list rating_record) :
  In model (map mr_model stage1_rows) ->
  (forall r, In r ranking_rows -> subject_model r <> model) ->
  elo_from_rows ranking_rows stage1_rows = Some out ->
  In {| rr_model := model; rr_elo := 1000; rr_wins := 0; rr_losses := 0;
        rr_appearances :=
          Z.of_nat (length (filter (fun r => mr_model r = model) stage1_rows)) |} out.
Proof.
  intros Happ Hrows. unfold elo_from_rows.
  destruct (count_appearances_spec stage1_rows model) as [Hcount Helo].
  specialize (Helo Happ).
  destruct (count_appearances stage1_rows) as [appearances elo0]. cbn [fst snd] in Hcount, Helo.
  destruct (foldM elo_group _ _) as [st|] eqn:Est; [|discriminate]. cbn.
  destruct (rating_results st appearances) as [results|] eqn:Eres; [|discriminate]. cbn.
  intros [= <-]. apply stable_sort_In.
  assert (Hst : untouched model st).
  { revert Est.
    apply (foldM_invariant elo_group (untouched model)
             (fun g => forall r, In r g -> subject_model r <> model)).
    - intros b g b' Hg Hb. apply elo_group_untouched; assumption.
    - intros g Hg r Hr. apply Hrows. apply (group_rows_In ranking_rows g r Hg Hr).
    - split; [exact Helo | split; reflexivity]. }
  destruct Hst as (He & Hw & Hl).
  unfold rating_results in Eres.
  destruct (mapM_In _ _ _ (model, BASE_RATING) Eres (dict_get_Some_In _ _ _ He))
    as (y & Hy & Hin).
  cbn [fst snd] in Hy. rewrite py_round_base, Hw, Hl, Hcount in Hy. cbn in Hy.
  injection Hy as <-. exact Hin.
Qed.

Lemma mapM_total {A B : Type} (f : A -> option B) (l : list A) :
  (forall x, In x l -> is_Some (f x)) -> is_Some (mapM f l).
Proof.
  induction l as [|a l IH]; intros H; [eexists; reflexivity|].
  destruct (H a (or_introl eq_refl)) as [b Hb].
  destruct IH as [k Hk]; [intros x Hx; apply H; right; exact Hx|].
  exists (b :: k). cbn [mapM]. rewrite Hb, Hk. reflexivity.
Qed.

(** Every rating the loop over the Round-1 rows sets is the base rating. *)
Lemma count_appearances_base (stage1_rows : list response_row) (m : text) (v : float) :
  In (m, v) (count_appearances stage1_rows).2 -> v = BASE_RATING.
Proof.
  unfold count_appearances.
  assert (H : forall rows (acc : list (text * Z) * list (text * float)),
            (forall m v, In (m, v) acc.2 -> v = BASE_RATING) ->
            forall m v,
              In (m, v) (fold_left
                           (fun acc r =>
                              (dict_update (mr_model r) (fun c => (c + 1)%Z) 0%Z acc.1,
                               dict_touch (mr_model r) BASE_RATING acc.2)) rows acc).2 ->
              v = BASE_RATING).
  { induction rows as [|x rows IH]; intros acc Hacc; [exact Hacc|].
    cbn [fold_left]. apply IH. cbn [snd]. intros m' v'. unfold dict_touch.
    destruct (dict_get (mr_model x) acc.2); [apply Hacc|].
    rewrite in_app_iff. intros [Hin|[[= _ <-]|[]]]; [exact (Hacc m' v' Hin) | reflexivity]. }
  apply (H stage1_rows ([], [])). intros m' v' [].
Qed.

(** Without a fetched ranking row the computation returns. *)
Lemma elo_from_rows_no_rankings (stage1_rows : list response_row) :
  is_Some (elo_from_rows [] stage1_rows).
Proof.
  unfold elo_from_rows.
  pose proof (count_appearances_base stage1_rows) as Hbase.
  destruct (count_appearances stage1_rows) as [appearances elo0]. cbn [snd] in Hbase.
  cbn [group_rows fold_left map foldM mbind option_bind].
  destruct (mapM_total
              (fun mr : text * float =>
                 r ← py_round mr.2;
                 Some {| rr_model := mr.1; rr_elo := r;
                         rr_wins := default 0%Z (dict_get mr.1 (@nil (text * Z)));
                         rr_losses := default 0%Z (dict_get mr.1 (@nil (text * Z)));
                         rr_appearances := default 0%Z (dict_get mr.1 appearances) |})
              elo0) as [results Hres].
  { intros [m v] Hin. rewrite (Hbase m v Hin). cbn [snd]. rewrite py_round_base.
    eexists. reflexivity. }
  unfold rating_results. cbn [elo wins losses]. rewrite Hres. eexists. reflexivity.
Qed.

End EloProps.

(** ** Theorems on the rating engine *)

(** C7.  A pair of rows of one group whose rank positions are equal
    leaves the ratings, the win counts and the loss counts as they are,
    and nothing is computed for it; the loops over a group are the
    updates of its pairs of different rank positions, in loop order; a
    group whose rank positions are all equal changes nothing. *)
Theorem tied_ranks_change_nothing `{L : Libm} :
  (forall a b st,
     rank_position a = rank_position b -> elo_pair a st b = Some st)
  /\ (forall ranks st,
        elo_group st ranks
        = foldM elo_step st
            (filter (fun p => rank_position p.1 <> rank_position p.2) (pairs_of ranks)))
  /\ (forall ranks st,
        (forall a b, In a ranks -> In b ranks -> rank_position a = rank_position b) ->
        elo_group st ranks = Some st).
Proof.
  assert (Hskip : forall st (p : ranking_row * ranking_row),
            ~ rank_position p.1 <> rank_position p.2 -> elo_step st p = Some st).
  { intros st p Hp. apply elo_pair_tied.
    destruct (decide (rank_position p.1 = rank_position p.2)); [assumption | contradiction]. }
  split; [|split].
  - intros a b st. apply elo_pair_tied.
  - intros ranks st. rewrite elo_group_pairs.
    apply (foldM_skip elo_step (fun p => rank_position p.1 <> rank_position p.2) Hskip).
  - intros ranks st Hall. rewrite elo_group_pairs.
    assert (Hp : forall p, In p (pairs_of ranks) -> rank_position p.1 = rank_position p.2)
      by (intros p Hp; apply pairs_of_In in Hp as [H1 H2]; apply Hall; assumption).
    revert Hp. generalize (pairs_of ranks) as l.
    induction l as [|p l IH]; intros Hp; [reflexivity|].
    cbn [foldM]. unfold elo_step at 1.
    rewrite elo_pair_tied by (apply Hp; left; reflexivity).
    apply IH. intros q Hq. apply Hp. right. exact Hq.
Qed.

Lemma tied_ranks_change_nothing_witness :
  rank_position (row 1 (str "e") (str "a") 2) = rank_position (row 1 (str "e") (str "b") 2)
  /\ elo_pair (L := pow_raises) (row 1 (str "e") (str "a") 2) no_ratings
       (row 1 (str "e") (str "b") 2) = Some no_ratings
  /\ elo_group (L := pow_raises) no_ratings
       [row 1 (str "e") (str "a") 2; row 1 (str "e") (str "b") 2; row 1 (str "e") (str "c") 2]
     = Some no_ratings.
Proof.
  destruct (tied_ranks_change_nothing (L := pow_raises)) as (Hpair & _ & Hgroup).
  split; [reflexivity|]. split.
  - apply Hpair. reflexivity.
  - apply Hgroup. intros a b [<-|[<-|[<-|[]]]] [<-|[<-|[<-|[]]]]; reflexivity.
Defined.

(** C8.  The computation reads the history and leaves it as it is, so
    computing again on the same history gives the same output.  When it
    returns, a model that has a Round-1 row and is the subject of no
    ranking row with a rank position other than the sentinel is in the
    output with rating 1000, no win, no loss and the number of its
    Round-1 rows; and it does return when the history has no ranking
    row other than sentinel rows. *)
Theorem ratings_recomputed_from_history `{L : Libm} (db : database) :
  (let (out1, db1) := calculate_elo_ratings db in
   let (out2, db2) := calculate_elo_ratings db1 in
   db1 = db /\ db2 = db /\ out2 = out1)
  /\ (forall model out,
        (calculate_elo_ratings db).1 = Some out ->
        (exists r, In r (model_responses db) /\ mr_stage r = 1%Z /\ mr_model r = model) ->
        (forall r, In r (rankings db) -> rank_position r <> 99%Z -> subject_model r <> model) ->
        In {| rr_model := model; rr_elo := 1000; rr_wins := 0; rr_losses := 0;
              rr_appearances :=
                Z.of_nat (length (filter (fun r => mr_model r = model)
                                    (filter (fun r => mr_stage r = 1%Z) (model_responses db)))) |}
           out)
  /\ ((forall r, In r (rankings db) -> rank_position r = 99%Z) ->
      exists out, (calculate_elo_ratings db).1 = Some out).
Proof.
  split; [|split].
  - unfold calculate_elo_ratings, select_rankings, select_stage1. repeat split.
  - intros model out Hout (r & Hr & Hstage & Hmodel) Hunranked.
    unfold calculate_elo_ratings, select_rankings, select_stage1 in Hout. cbn [fst] in Hout.
    apply (elo_from_rows_unranked _ _ model out) in Hout; [exact Hout| |].
    + apply in_map_iff. exists r. split; [exact Hmodel|].
      apply list_elem_of_In, list_elem_of_filter. split; [exact Hstage|].
      apply list_elem_of_In, Hr.
    + intros r' Hr'. apply stable_sort_In in Hr'.
      apply list_elem_of_In, list_elem_of_filter in Hr' as [Hrank Hin].
      apply Hunranked; [apply list_elem_of_In, Hin | exact Hrank].
  - intros Hall.
    unfold calculate_elo_ratings, select_rankings, select_stage1. cbn [fst].
    assert (Hnone : filter (fun r => rank_position r <> 99%Z) (rankings db) = []).
    { induction (rankings db) as [|x l IH]; [reflexivity|].
      rewrite filter_cons.
      destruct (decide (rank_position x <> 99%Z)) as [Hx|Hx].
      - destruct Hx. apply Hall. left. reflexivity.
      - apply IH. intros r Hr. apply Hall. right. exact Hr. }
    rewrite Hnone. cbn [stable_sort foldr].
    apply elo_from_rows_no_rankings.
Qed.

Lemma ratings_recomputed_from_history_witness :
  (exists out,
     (calculate_elo_ratings (L := pow_at_zero) sample_history).1 = Some out
     /\ In {| rr_model := str "c"; rr_elo := 1000; rr_wins := 0; rr_losses := 0;
              rr_appearances := 1 |} out)
  /\ exists out,
       (calculate_elo_ratings (L := pow_raises)
          {| rankings := [row 1 (str "b") (str "c") 99];
             model_responses := model_responses sample_history |}).1 = Some out.
Proof.
  split.
  - eexists. split; [vm_compute; reflexivity|].
    apply (proj1 (proj2 (ratings_recomputed_from_history (L := pow_at_zero) sample_history))
             (str "c")).
    + vm_compute. reflexivity.
    + eexists. split; [right; right; left; reflexivity | split; reflexivity].
    + intros r [<-|[<-|[<-|[]]]] Hrank; cbn in *; [discriminate | discriminate | congruence].
  - apply (proj2 (proj2 (ratings_recomputed_from_history (L := pow_raises)
                           {| rankings := [row 1 (str "b") (str "c") 99];
                              model_responses := model_responses sample_history |}))).
    intros r [<-|[]]. reflexivity.
Defined.

(** ** Theorems on the text-ranking parse *)

Lemma occurrences_map {A : Type} (f : A -> text) (l : list A) (y : text) :
  length (filter (fun x => x = y) (map f l)) = length (filter (fun x => f x = y) l).
Proof.
  induction l as [|x l IH]; [reflexivity|].
  cbn [map]. rewrite !filter_cons.
  destruct (decide (f x = y)); cbn [length]; rewrite IH; reflexivity.
Qed.

(** C1.  A text without the marker [FINAL RANKING:] parses to the empty
    list.  A text with the marker has a last marker, and it parses to
    the "Response <letter>" tokens of the entries
    "<number>. Response <letter>" found, in textual order, in the tail
    after that marker, and to nothing else: a label that is not written
    in that tail, whatever stands before the marker, is not in the
    result. *)
Theorem parse_ranking_after_last_marker `{U : Unicode} (plain marked pre tail : text) :
  (contains FINAL_RANKING plain = false ->
   parse_ranking_from_text plain = Some [])
  /\ (contains FINAL_RANKING marked = true ->
      exists pre' tail',
        marked = pre' ++ FINAL_RANKING ++ tail'
        /\ contains FINAL_RANKING tail' = false)
  /\ (contains FINAL_RANKING tail = false ->
      exists labs,
        parse_ranking_from_text (pre ++ FINAL_RANKING ++ tail) = Some labs
        /\ ranked_labels tail labs
        /\ (forall labs', ranked_labels tail labs' -> labs' = labs)
        /\ (forall lab, contains lab tail = false -> ~ In lab labs)).
Proof.
  split; [|split].
  - apply parse_without_marker.
  - apply (last_marker (length marked) marked (le_n _)).
  - intros Ht.
    destruct (findall_ranked (length tail) tail (le_n _)) as (labs & _ & Hl & Hr).
    exists labs. split; [|split; [|split]].
    + rewrite Hl. apply parse_with_marker, Ht.
    + exact Hr.
    + intros labs' Hr'. rewrite Hl. apply ranked_labels_unique, Hr'.
    + intros lab Hno Hin.
      rewrite (ranked_labels_contained tail labs Hr lab Hin) in Hno. discriminate.
Qed.

Lemma parse_ranking_after_last_marker_witness :
  contains FINAL_RANKING unmarked_text = false
  /\ contains FINAL_RANKING (critique_text ++ FINAL_RANKING ++ ranking_tail) = true
  /\ contains FINAL_RANKING ranking_tail = false
  /\ parse_ranking_from_text (U := ascii_tables) unmarked_text = Some []
  /\ exists labs,
       parse_ranking_from_text (U := ascii_tables)
         (critique_text ++ FINAL_RANKING ++ ranking_tail) = Some labs
       /\ ranked_labels (U := ascii_tables) ranking_tail labs
       /\ (forall labs', ranked_labels (U := ascii_tables) ranking_tail labs' -> labs' = labs)
       /\ (forall lab, contains lab ranking_tail = false -> ~ In lab labs).
Proof.
  split; [reflexivity|]. split; [reflexivity|]. split; [reflexivity|].
  pose proof (parse_ranking_after_last_marker (U := ascii_tables)
                unmarked_text (critique_text ++ FINAL_RANKING ++ ranking_tail)
                critique_text ranking_tail) as (H1 & _ & H3).
  split; [apply H1; reflexivity | apply H3; reflexivity].
Defined.

(** C5, as stated, fails: a label ranked in two numbered entries is
    returned twice. *)
Lemma parse_returns_repeated_label :
  (forall U : Unicode,
     parse_ranking_from_text (U := U) repeated_text
     = Some [str "Response A"; str "Response A"])
  /\ ~ List.NoDup [str "Response A"; str "Response A"].
Proof.
  split.
  - intros U. vm_compute. reflexivity.
  - intros H. inversion H as [|x l Hx _]. apply Hx. left. reflexivity.
Qed.

(** C5, amended.  The parse returns one token for each numbered entry
    matched in the tail after the last marker, in the order of the
    entries: a label occurs in the result as many times as entries name
    it. *)
Theorem parse_one_token_per_entry `{U : Unicode} (pre tail : text) :
  contains FINAL_RANKING tail = false ->
  exists labs,
    parse_ranking_from_text (pre ++ FINAL_RANKING ++ tail) = Some labs
    /\ labs = map label_of_match (findall_numbered tail)
    /\ forall lab,
         length (filter (fun l => l = lab) labs)
         = length (filter (fun m => label_of_match m = lab) (findall_numbered tail)).
Proof.
  intros Ht. exists (map label_of_match (findall_numbered tail)).
  split; [apply parse_with_marker, Ht|]. split; [reflexivity|].
  intros lab. apply occurrences_map.
Qed.

Lemma parse_one_token_per_entry_witness :
  contains FINAL_RANKING (nl ++ str "1. Response A" ++ nl ++ str "2. Response A") = false
  /\ exists labs,
       parse_ranking_from_text (U := ascii_tables)
         ([] ++ FINAL_RANKING ++ nl ++ str "1. Response A" ++ nl ++ str "2. Response A")
       = Some labs
       /\ labs = map label_of_match
                   (findall_numbered (U := ascii_tables)
                      (nl ++ str "1. Response A" ++ nl ++ str "2. Response A"))
       /\ forall lab,
            length (filter (fun l => l = lab) labs)
            = length (filter (fun m => label_of_match m = lab)
                        (findall_numbered (U := ascii_tables)
                           (nl ++ str "1. Response A" ++ nl ++ str "2. Response A"))).
Proof.
  split; [reflexivity|].
  apply (parse_one_token_per_entry (U := ascii_tables) []). reflexivity.
Defined.

(** ** The scenarios of the test suite, run on the embedding *)

Example test_parse_ranking_no_hallucination :
  parse_ranking_from_text (U := ascii_tables) (critique_text ++ FINAL_RANKING ++ ranking_tail)
  = Some [str "Response B"; str "Response C"].
Proof. vm_compute. reflexivity. Qed.

Example test_parse_ranking_missing_section :
  parse_ranking_from_text (U := ascii_tables) unmarked_text = Some [].
Proof. vm_compute. reflexivity. Qed.

Example test_parse_ranking_valid :
  parse_ranking_from_text (U := ascii_tables)
    (str "Some thoughts..." ++ nl ++ str "FINAL RANKING:" ++ nl ++ str "1. Response C" ++ nl
     ++ str "2. Response A" ++ nl ++ str "3. Response B" ++ nl)
  = Some [str "Response C"; str "Response A"; str "Response B"].
Proof. vm_compute. reflexivity. Qed.

Example findall_takes_whole_entries :
  findall_numbered (U := ascii_tables)
    (str "12. Response A3.Response BB 4 . Response C 5." ++ nl ++ nl ++ str " Response D")
  = [str "12. Response A"; str "3.Response B"; str "5." ++ nl ++ nl ++ str " Response D"].
Proof. vm_compute. reflexivity. Qed.

Example test_stage1_partial_failure :
  stage1_collect_responses (O := partial_network) (str "Hello")
    (Some [str "model_success"; str "model_timeout"]) {| net := tt; calls := [] |}
  = Some ([ {| s1_model := str "model_success"; s1_response := str "Success content" |} ],
          {| net := tt;
             calls := [CallQueryModelsParallel [str "model_success"; str "model_timeout"]
                         (stage1_messages (str "Hello"))] |}).
Proof. vm_compute. reflexivity. Qed.

Example rubric_reply_ranking :
  evaluate_reply (U := ascii_tables) (J := sample_json) (P := sample_python)
    (str "model_1") rubric_reply
  = Some {| s2_model := str "model_1"; s2_ranking := rubric_reply;
            s2_parsed_ranking := [str "Response B"; str "Response C"; str "Response A"];
            s2_rubric := sample_rubric |}.
Proof. vm_compute. reflexivity. Qed.

Example rubric_scores :
  calculate_aggregate_rankings (U := ascii_tables) (P := sample_python)
    [ {| s2_model := str "model_1"; s2_ranking := rubric_reply;
         s2_parsed_ranking := [str "Response B"; str "Response C"; str "Response A"];
         s2_rubric := sample_rubric |} ] two_candidates
  = Some [ {| agg_model := str "model_2"; total_score := 36; average_rank := 36;
              rankings_count := 1 |};
           {| agg_model := str "model_1"; total_score := 8; average_rank := 8;
              rankings_count := 1 |} ].
Proof. vm_compute. reflexivity. Qed.


Example round2_examples :
  (py_round2 0x1.5666666666666p+1 = 0x1.55c28f5c28f5cp+1 /\ py_round2 0.125 = 0x1.eb851eb851eb8p-4
   /\ py_round2 10 = 10 /\ py_round2 (-0x1.0624dd2f1a9fcp-10) = (-0))%float.
Proof. vm_compute. repeat split. Qed.

Example round_examples :
  py_round 2.5 = Some 2%Z /\ py_round 3.5 = Some 4%Z /\ py_round (-0.5) = Some 0%Z
  /\ py_round 1000 = Some 1000%Z /\ py_round nan = None.
Proof. vm_compute. repeat split. Qed.

(** * Further properties *)

(** ** The tokens of the text-ranking parse *)

Lemma ranked_labels_tokens `{U : Unicode} (s : text) (labs : list text) :
  ranked_labels s labs ->
  forall lab, In lab labs -> exists c, is_AZ c = true /\ lab = RESPONSE_ ++ [c].
Proof.
  induction 1 as [|m lab0 rest labs He Hr IH|c s labs Hno Hr IH]; intros lab Hin.
  - destruct Hin.
  - destruct Hin as [<-|Hin]; [|apply IH, Hin].
    destruct He as (ds & ws & c & _ & -> & _ & _ & _ & Hc). eauto.
  - apply IH, Hin.
Qed.

(** What the parse returns. *)
Lemma parse_ranking_from_text_tokens `{U : Unicode} (ranking_text : text) :
  exists labs,
    parse_ranking_from_text ranking_text = Some labs
    /\ forall lab, In lab labs ->
         exists c, (65 <= c <= 90)%N /\ lab = str "Response " ++ [c].
Proof.
  destruct (contains FINAL_RANKING ranking_text) eqn:Hc.
  - destruct (last_marker _ ranking_text (le_n _) Hc) as (pre & tail & -> & Ht).
    rewrite parse_with_marker by exact Ht.
    destruct (findall_ranked (length tail) tail (le_n _)) as (labs & _ & Hl & Hr).
    rewrite <- Hl. exists labs. split; [reflexivity|].
    intros lab Hin. destruct (ranked_labels_tokens tail labs Hr lab Hin) as (c & Hc' & ->).
    exists c. split; [|reflexivity].
    unfold is_AZ in Hc'. apply andb_true_iff in Hc' as [H1 H2].
    apply N.leb_le in H1, H2. lia.
  - rewrite parse_without_marker by exact Hc. exists []. split; [reflexivity | intros lab []].
Qed.

(** X1.  The text-ranking parse never raises, and every element of its
    result is the word "Response", a space and one letter from A to Z. *)
Theorem parse_ranking_tokens `{U : Unicode} (ranking_text : text) :
  exists labs,
    parse_ranking_from_text ranking_text = Some labs
    /\ forall lab, In lab labs ->
         exists c, (65 <= c <= 90)%N /\ lab = str "Response " ++ [c].
Proof. exact (parse_ranking_from_text_tokens ranking_text). Qed.

(** ** Round 1 *)

Lemma successes_In (responses : list (text * option reply)) (m : text) (r : reply) :
  In (m, r) (successes responses) <-> In (m, Some r) responses.
Proof.
  unfold successes. induction responses as [|[m' [r'|]] responses IH]; cbn [omap list_omap snd fst].
  - tauto.
  - cbn [In]. rewrite IH. split; (intros [E|H]; [left; congruence | right; exact H]).
  - cbn [In]. rewrite IH. split; [intros H; right; exact H | intros [E|H]; [discriminate | exact H]].
Qed.

Lemma successes_length (responses : list (text * option reply)) :
  length (successes responses) <= length responses.
Proof.
  unfold successes. induction responses as [|[m [r|]] responses IH]; cbn [omap list_omap snd length]; lia.
Qed.

Lemma omap_successes {B : Type} (f : text * reply -> B) (responses : list (text * option reply)) :
  omap (fun mr : text * option reply =>
          match mr.2 with Some r => Some (f (mr.1, r)) | None => None end) responses
  = map f (successes responses).
Proof.
  unfold successes. induction responses as [|[m [r|]] responses IH];
    cbn [omap list_omap snd fst map]; [reflexivity | rewrite IH; reflexivity | exact IH].
Qed.

(** X2.  Round 1 never raises and makes one fan-out call, to the given
    models or to the default council when none is given.  Its results
    are the models whose call returned a reply, in the order of the
    replies, each with the content of its reply (empty when the reply
    has none); a model whose call failed is left out. *)
Theorem stage1_keeps_the_successes {W : Type} `{O : OpenRouter W}
    (user_query : text) (council_models : option (list text)) (w : world W) :
  let active_models := default COUNCIL_MODELS council_models in
  exists responses n results,
    net_query_models_parallel active_models (stage1_messages user_query) (net w)
    = (responses, n)
    /\ stage1_collect_responses user_query council_models w
       = Some (results,
               {| net := n;
                  calls := calls w
                           ++ [CallQueryModelsParallel active_models (stage1_messages user_query)] |})
    /\ map s1_model results = map fst (successes responses)
    /\ map s1_response results
       = map (fun mr => default [] (dict_get (str "content") mr.2)) (successes responses)
    /\ (forall m, In m (map s1_model results) <-> exists r, In (m, Some r) responses)
    /\ length results <= length responses.
Proof.
  intros active_models.
  destruct (net_query_models_parallel active_models (stage1_messages user_query) (net w))
    as [responses n] eqn:E.
  exists responses, n,
    (map (fun mr : text * reply =>
            {| s1_model := mr.1;
               s1_response := default [] (dict_get (str "content") mr.2) |})
         (successes responses)).
  split; [reflexivity|]. split; [|split; [|split; [|split]]].
  - unfold stage1_collect_responses, bindM, query_models_parallel, ret.
    fold (stage1_messages user_query). fold active_models. rewrite E.
    rewrite <- (omap_successes
                  (fun mr : text * reply =>
                     {| s1_model := mr.1;
                        s1_response := default [] (dict_get (str "content") mr.2) |})).
    reflexivity.
  - rewrite map_map. reflexivity.
  - rewrite map_map. reflexivity.
  - intros m. rewrite map_map. cbn [s1_model]. rewrite in_map_iff. split.
    + intros ([m' r] & <- & Hin). exists r. apply successes_In, Hin.
    + intros (r & Hin). exists (m, r). split; [reflexivity | apply successes_In, Hin].
  - rewrite length_map. apply successes_length.
Qed.

(** ** The labels of Round 2 *)

(** X3.  The label map of Round 2 labels the results in their order: the
    label of the [i]-th result is "Response " and the character of code
    [65 + i], and it names the model of that result; the map has one
    label for each result and no other key. *)
Theorem label_to_model_labels_in_order (stage1_results : list stage1_result) :
  size (make_label_to_model stage1_results) = length stage1_results
  /\ (forall i r,
        stage1_results !! i = Some r ->
        make_label_to_model stage1_results !! (str "Response " ++ [N.of_nat (65 + i)])
        = Some (s1_model r))
  /\ (forall label m,
        make_label_to_model stage1_results !! label = Some m ->
        exists i r, stage1_results !! i = Some r /\ s1_model r = m
                    /\ label = str "Response " ++ [N.of_nat (65 + i)]).
Proof.
  split; [apply make_label_to_model_size|]. split.
  - intros i r Hi. change (str "Response ") with RESPONSE_.
    rewrite make_label_to_model_lookup, Hi. reflexivity.
  - intros label m Hl.
    destruct (make_label_to_model_keys _ _ _ Hl) as (i & Hi & ->).
    rewrite make_label_to_model_lookup in Hl.
    destruct (stage1_results !! i) as [r|] eqn:Er; [|discriminate].
    injection Hl as <-. exists i, r. split; [exact Er|]. split; reflexivity.
Qed.

Lemma label_to_model_labels_in_order_witness :
  make_label_to_model
    [ {| s1_model := str "m1"; s1_response := str "one" |};
      {| s1_model := str "m2"; s1_response := str "two" |} ] !! (str "Response B")
  = Some (str "m2").
Proof.
  apply (proj1 (proj2 (label_to_model_labels_in_order
                         [ {| s1_model := str "m1"; s1_response := str "one" |};
                           {| s1_model := str "m2"; s1_response := str "two" |} ]))
           1 {| s1_model := str "m2"; s1_response := str "two" |}).
  reflexivity.
Defined.


(** ** Stripping *)

Section StripProps.
Context (p : N -> bool).

Lemma span_prefix (s : text) :
  s = (span p s).1 ++ (span p s).2
  /\ Forall (fun c => p c = true) (span p s).1
  /\ match (span p s).2 with [] => True | x :: _ => p x = false end.
Proof. destruct (span p s) as [a b] eqn:E. apply span_spec, E. Qed.

Lemma lstrip_padded (ws : text) (a : N) (r : text) :
  Forall (fun c => p c = true) ws -> p a = false ->
  (span p (ws ++ a :: r)).2 = a :: r.
Proof. intros Hws Ha. rewrite span_app by assumption. reflexivity. Qed.

Lemma rstrip_padded (r : text) (b : N) (ws : text) :
  Forall (fun c => p c = true) ws -> p b = false ->
  rev (span p (rev (r ++ [b] ++ ws))).2 = r ++ [b].
Proof.
  intros Hws Hb. rewrite !rev_app_distr. cbn [rev app]. rewrite <- app_assoc. cbn [app].
  rewrite span_app; [|apply Forall_rev, Hws | exact Hb].
  cbn [snd rev]. rewrite rev_involutive. reflexivity.
Qed.

(** Stripping both ends of a text that begins and ends outside the
    class, padded with characters of the class, gives the text back. *)
Lemma strip_padded (ws1 x ws2 : text) :
  Forall (fun c => p c = true) ws1 -> Forall (fun c => p c = true) ws2 ->
  (exists a r, x = a :: r /\ p a = false) ->
  (exists r b, x = r ++ [b] /\ p b = false) ->
  rev (span p (rev (span p (ws1 ++ x ++ ws2)).2)).2 = x.
Proof.
  intros H1 H2 (a & r & Hx & Ha) (r' & b & Hx' & Hb).
  rewrite Hx at 1. cbn [app]. rewrite lstrip_padded by assumption.
  change (a :: r ++ ws2) with ((a :: r) ++ ws2). rewrite <- Hx, Hx', <- app_assoc.
  apply rstrip_padded; assumption.
Qed.

(** What stripping both ends gives is empty or begins and ends outside
    the class. *)
Lemma strip_ends (s : text) :
  let t := rev (span p (rev (span p s).2)).2 in
  t = [] \/ ((exists a r, t = a :: r /\ p a = false)
             /\ (exists r b, t = r ++ [b] /\ p b = false)).
Proof.
  cbn zeta.
  destruct (span_prefix s) as (_ & _ & Hl).
  set (l := (span p s).2) in *.
  destruct (span_prefix (rev l)) as (Hrev & Hws & Hr).
  set (ws := (span p (rev l)).1) in *. set (u := (span p (rev l)).2) in *.
  assert (Hl' : l = rev u ++ rev ws).
  { rewrite <- (rev_involutive l), Hrev, rev_app_distr. reflexivity. }
  destruct u as [|b u']; [left; reflexivity|]. right.
  cbn [rev] in *. split; [|eauto].
  destruct l as [|a l'].
  - exfalso. apply (f_equal length) in Hl'. rewrite !length_app in Hl'. cbn in Hl'. lia.
  - destruct (rev u' ++ [b]) as [|a' t'] eqn:E.
    + apply (f_equal length) in E. rewrite length_app in E. cbn in E. lia.
    + cbn [app] in Hl'. injection Hl' as <- _. eauto.
Qed.

End StripProps.

Lemma strip_idempotent `{U : Unicode} (s : text) : strip (strip s) = strip s.
Proof.
  unfold strip, rstrip, lstrip.
  destruct (strip_ends is_space s) as [E|[H1 H2]]; cbn zeta in *.
  - rewrite E. reflexivity.
  - set (t := rev (span is_space (rev (span is_space s).2)).2) in *.
    rewrite <- (app_nil_r t) at 1.
    apply (strip_padded is_space [] t []); [constructor | constructor | exact H1 | exact H2].
Qed.

(** ** Round 2 *)

(** The ranking the [try] block derives is made of the tokens of
    labelled entries of the rubric. *)
Lemma try_rubric_tokens `{U : Unicode} `{J : JsonLib} `{P : Python} (full_text : text) :
  Forall (fun label =>
            exists evs fields value,
              iterate (try_rubric full_text).1 = Some evs
              /\ In (JObject fields) evs
              /\ dict_get (str "response_label") fields = Some value
              /\ label = RESPONSE_ ++ py_format value)
         (try_rubric full_text).2.
Proof.
  unfold try_rubric.
  destruct (json_loads (strip_fences full_text)) as [[| | | | |items|data]|];
    try (cbn [snd]; constructor).
  destruct (dict_get (str "evaluations") data) as [rubric|]; [|cbn [snd]; constructor].
  cbn [fst snd].
  destruct (sorted_evals rubric) as [sorted|] eqn:Es; [|constructor].
  destruct (sorted_evals_In _ _ Es) as (evs & Hevs & Hobj & Hin).
  cbn [mbind option_bind].
  assert (Hobj' : Forall (fun ev => is_object ev = true) sorted).
  { apply List.Forall_forall. intros ev Hev.
    exact (proj1 (List.Forall_forall _ _) Hobj ev (Hin ev Hev)). }
  rewrite (rubric_ranking_objects _ Hobj'). cbn [default from_option id].
  apply List.Forall_forall. intros label Hlabel.
  apply list_elem_of_In, list_elem_of_omap in Hlabel as (ev & Hev & Htoken).
  apply list_elem_of_In in Hev.
  destruct ev as [| | | | |items|fields]; try discriminate Htoken.
  cbn [entry_token] in Htoken.
  destruct (dict_get (str "response_label") fields) as [value|] eqn:Ev; [|discriminate].
  apply (inj Some) in Htoken. subst label.
  exists evs, fields, value. split; [exact Hevs|]. split; [exact (Hin _ Hev)|].
  split; [exact Ev | reflexivity].
Qed.

(** What reading one reply gives. *)
Lemma evaluate_reply_spec `{U : Unicode} `{J : JsonLib} `{P : Python} (model full_text : text) :
  exists output,
    evaluate_reply model full_text = Some output
    /\ s2_model output = model
    /\ s2_ranking output = full_text
    /\ fallback_ranking output = Some (s2_parsed_ranking output)
    /\ s2_rubric output
       = match json_loads (strip_fences full_text) with
         | Some (JObject data) => default JNull (dict_get (str "evaluations") data)
         | _ => JNull
         end
    /\ ((s2_parsed_ranking output <> []
         /\ Forall (fun label =>
                      exists evs fields value,
                        iterate (s2_rubric output) = Some evs
                        /\ In (JObject fields) evs
                        /\ dict_get (str "response_label") fields = Some value
                        /\ label = RESPONSE_ ++ py_format value)
                   (s2_parsed_ranking output))
        \/ parse_ranking_from_text full_text = Some (s2_parsed_ranking output)).
Proof.
  unfold evaluate_reply.
  pose proof (try_rubric_tokens full_text) as Htokens.
  assert (Hrubric : (try_rubric full_text).1
                    = match json_loads (strip_fences full_text) with
                      | Some (JObject data) => default JNull (dict_get (str "evaluations") data)
                      | _ => JNull
                      end).
  { unfold try_rubric.
    destruct (json_loads (strip_fences full_text)) as [[| | | | |items|data]|]; try reflexivity.
    destruct (dict_get (str "evaluations") data); reflexivity. }
  destruct (try_rubric full_text) as [rubric labs]. cbn [fst snd] in Htokens, Hrubric.
  destruct (parse_total full_text) as [parsed Hparsed].
  destruct labs as [|lab labs].
  - rewrite Hparsed. eexists. split; [reflexivity|]. cbn.
    split; [reflexivity|]. split; [reflexivity|].
    split; [unfold fallback_ranking; cbn; destruct parsed; [exact Hparsed | reflexivity]|].
    split; [exact Hrubric|]. right. reflexivity.
  - eexists. split; [reflexivity|]. cbn.
    split; [reflexivity|]. split; [reflexivity|]. split; [reflexivity|].
    split; [exact Hrubric|]. left. split; [discriminate | exact Htokens].
Qed.


Lemma mapM_Forall2 {A B : Type} (f : A -> option B) (P : A -> B -> Prop) (l : list A) :
  (forall x, exists y, f x = Some y /\ P x y) ->
  exists k, mapM f l = Some k /\ List.Forall2 P l k.
Proof.
  intros Hf. induction l as [|a l IH].
  - exists []. split; [reflexivity | constructor].
  - destruct (Hf a) as (b & Hb & Hp). destruct IH as (k & Hk & Hall).
    exists (b :: k). split; [cbn [mapM]; rewrite Hb, Hk; reflexivity | constructor; assumption].
Qed.

Lemma Forall2_map_eq {A B C : Type} (f : A -> C) (g : B -> C) (l : list A) (k : list B) :
  List.Forall2 (fun x y => g y = f x) l k -> map g k = map f l.
Proof. induction 1 as [|x y l k H Hall IH]; [reflexivity | cbn; rewrite H, IH; reflexivity]. Qed.

(** What Round 2 gives. *)
Lemma stage2_collect_rankings_spec `{U : Unicode} `{J : JsonLib} `{P : Python} {W : Type}
    `{O : OpenRouter W}
    (user_query : text) (stage1_results : list stage1_result)
    (council_models : option (list text)) (w : world W) :
  let active_models := default COUNCIL_MODELS council_models in
  exists responses n results,
    net_query_models_parallel active_models (stage2_messages user_query stage1_results) (net w)
    = (responses, n)
    /\ stage2_collect_rankings user_query stage1_results council_models w
       = Some ((results, make_label_to_model stage1_results),
               {| net := n;
                  calls := calls w
                           ++ [CallQueryModelsParallel active_models
                                 (stage2_messages user_query stage1_results)] |})
    /\ map s2_model results = map fst (successes responses)
    /\ map s2_ranking results
       = map (fun mr => default [] (dict_get (str "content") mr.2)) (successes responses)
    /\ Forall (fun r => fallback_ranking r = Some (s2_parsed_ranking r)) results.
Proof.
  intros active_models.
  destruct (net_query_models_parallel active_models
              (stage2_messages user_query stage1_results) (net w)) as [responses n] eqn:E.
  destruct (mapM_Forall2
              (fun mr : text * reply =>
                 evaluate_reply mr.1 (default [] (dict_get (str "content") mr.2)))
              (fun mr out =>
                 s2_model out = mr.1
                 /\ s2_ranking out = default [] (dict_get (str "content") mr.2)
                 /\ fallback_ranking out = Some (s2_parsed_ranking out))
              (successes responses)) as (results & Hm & Hall).
  { intros mr.
    destruct (evaluate_reply_spec mr.1 (default [] (dict_get (str "content") mr.2)))
      as (out & H1 & H2 & H3 & H4 & _).
    exists out. auto. }
  exists responses, n, results. split; [reflexivity|]. split; [|split; [|split]].
  - unfold stage2_collect_rankings, bindM, query_models_parallel, ret, lift.
    fold (stage2_messages user_query stage1_results). fold active_models. rewrite E.
    fold (successes responses). rewrite Hm. reflexivity.
  - apply Forall2_map_eq. eapply List.Forall2_impl; [|exact Hall]. cbn. tauto.
  - apply (Forall2_map_eq (fun mr : text * reply => default [] (dict_get (str "content") mr.2))).
    eapply List.Forall2_impl; [|exact Hall]. cbn. tauto.
  - apply List.Forall_forall. intros r Hr.
    clear Hm. induction Hall as [|x y l k (_ & _ & H) Hall IH]; [destruct Hr|].
    destruct Hr as [<-|Hr]; [exact H | apply IH, Hr].
Qed.

(** X5.  Round 2 never raises and makes one fan-out call, with the
    evaluation prompt, to the given models or to the default council.
    It returns one output for each reply that is not [None], in the
    order of the replies, each carrying its model and the content of its
    reply, together with the label map of the Round-1 results. *)
Theorem stage2_reads_every_reply `{U : Unicode} `{J : JsonLib} `{P : Python} {W : Type}
    `{O : OpenRouter W}
    (user_query : text) (stage1_results : list stage1_result)
    (council_models : option (list text)) (w : world W) :
  let active_models := default COUNCIL_MODELS council_models in
  exists responses n results,
    net_query_models_parallel active_models (stage2_messages user_query stage1_results) (net w)
    = (responses, n)
    /\ stage2_collect_rankings user_query stage1_results council_models w
       = Some ((results, make_label_to_model stage1_results),
               {| net := n;
                  calls := calls w
                           ++ [CallQueryModelsParallel active_models
                                 (stage2_messages user_query stage1_results)] |})
    /\ map s2_model results = map fst (successes responses)
    /\ map s2_ranking results
       = map (fun mr => default [] (dict_get (str "content") mr.2)) (successes responses)
    /\ Forall (fun r => fallback_ranking r = Some (s2_parsed_ranking r)) results.
Proof. exact (stage2_collect_rankings_spec user_query stage1_results council_models w). Qed.


(** ** The Markdown fence *)

Lemma startswith_prefix (p q s : text) :
  startswith (p ++ q) s = true -> startswith p s = true.
Proof.
  rewrite !startswith_spec. intros [r ->]. exists (q ++ r). rewrite <- app_assoc. reflexivity.
Qed.

Lemma endswith_app (p s : text) : endswith p (s ++ p) = true.
Proof. unfold endswith. rewrite rev_app_distr. apply startswith_app. Qed.

(** X6.  A rubric between a [```json] fence and a closing fence, with
    white space around, is handed to [json.loads] as its stripped body;
    an unfenced reply is handed over stripped.  So a fenced rubric is
    read as the bare rubric is. *)
Theorem fenced_rubric_is_unwrapped `{U : Unicode} `{J : JsonLib} `{P : Python}
    (ws1 body ws2 : text) :
  Forall (fun c => is_space c = true) ws1 ->
  Forall (fun c => is_space c = true) ws2 ->
  strip_fences (ws1 ++ fenced body ++ ws2) = strip body
  /\ (startswith (str "```") (strip body) = false ->
      endswith (str "```") (strip body) = false ->
      strip_fences body = strip body
      /\ try_rubric (ws1 ++ fenced body ++ ws2) = try_rubric body).
Proof.
  intros H1 H2.
  assert (Hf : strip_fences (ws1 ++ fenced body ++ ws2) = strip body).
  { unfold strip_fences.
    assert (Hs : strip (ws1 ++ fenced body ++ ws2) = fenced body).
    { unfold strip, rstrip, lstrip. apply strip_padded; try assumption.
      - exists 96%N, (tl (str "```json") ++ body ++ str "```"). split; reflexivity.
      - exists (str "```json" ++ body ++ str "``"), 96%N. split; [|reflexivity].
        unfold fenced. rewrite <- !app_assoc. reflexivity. }
    rewrite Hs.
    assert (Hd : (if startswith (str "```json") (fenced body)
                  then drop 7 (fenced body)
                  else if startswith (str "```") (fenced body)
                       then drop 3 (fenced body)
                       else fenced body) = body ++ str "```").
    { unfold fenced. rewrite startswith_app. reflexivity. }
    rewrite !Hd, endswith_app, length_app. change (length (str "```")) with 3.
    rewrite Nat.add_sub, take_app_length. reflexivity. }
  split; [exact Hf|]. intros Hs He.
  assert (Hb : strip_fences body = strip body).
  { unfold strip_fences.
    destruct (startswith (str "```json") (strip body)) eqn:Ej.
    - apply (startswith_prefix (str "```") (str "json")) in Ej. congruence.
    - rewrite Hs, He. apply strip_idempotent. }
  split; [exact Hb|]. unfold try_rubric. rewrite Hf, Hb. reflexivity.
Qed.

Lemma fenced_rubric_is_unwrapped_witness :
  strip_fences (U := ascii_tables) (nl ++ fenced (nl ++ str "{}" ++ nl) ++ str " ") = str "{}"
  /\ try_rubric (U := ascii_tables) (J := sample_json) (P := sample_python)
       (nl ++ fenced (nl ++ str "{}" ++ nl) ++ str " ")
     = try_rubric (U := ascii_tables) (J := sample_json) (P := sample_python)
         (nl ++ str "{}" ++ nl).
Proof.
  destruct (fenced_rubric_is_unwrapped (U := ascii_tables) (J := sample_json)
              (P := sample_python) nl (nl ++ str "{}" ++ nl) (str " ")) as [H1 H2].
  - repeat constructor.
  - repeat constructor.
  - split; [exact H1|]. apply H2; reflexivity.
Defined.

(** ** The conversation title *)

Lemma strip_chars_ends (chars s : text) :
  strip_chars chars s = []
  \/ ((exists a r, strip_chars chars s = a :: r /\ in_chars chars a = false)
      /\ (exists r b, strip_chars chars s = r ++ [b] /\ in_chars chars b = false)).
Proof. apply (strip_ends (in_chars chars) s). Qed.

(** X7.  Making the title never raises and makes one call, with a
    timeout of 30 seconds.  The title is at most 50 characters long and
    neither begins nor ends with a quote character; when the call
    fails, it is "New Conversation". *)
Theorem title_is_short_and_unquoted `{U : Unicode} {W : Type} `{O : OpenRouter W}
    (user_query : text) (w : world W) :
  exists response n title,
    net_query_model TITLE_MODEL (title_messages user_query) 30 (net w) = (response, n)
    /\ generate_conversation_title user_query w
       = Some (title,
               {| net := n;
                  calls := calls w ++ [CallQueryModel TITLE_MODEL (title_messages user_query) 30] |})
    /\ length title <= 50
    /\ (forall c r, title = c :: r -> c <> 34%N /\ c <> 39%N)
    /\ (forall r c, title = r ++ [c] -> c <> 34%N /\ c <> 39%N)
    /\ (response = None -> title = str "New Conversation").
Proof.
  destruct (net_query_model TITLE_MODEL (title_messages user_query) 30 (net w))
    as [response n] eqn:E.
  assert (Hq : forall c, in_chars QUOTES c = false -> c <> 34%N /\ c <> 39%N).
  { intros c Hc. split; intros ->; vm_compute in Hc; discriminate. }
  destruct response as [response|].
  - exists (Some response), n, (clean_title response). split; [reflexivity|].
    split; [unfold generate_conversation_title, bindM, query_model; rewrite E; reflexivity|].
    unfold clean_title.
    set (t := strip_chars QUOTES (strip (default NEW_CONVERSATION (dict_get (str "content") response)))).
    destruct (strip_chars_ends QUOTES
                (strip (default NEW_CONVERSATION (dict_get (str "content") response))))
      as [Hnil|[(a & r & Ha & Hqa) (r' & b & Hb & Hqb)]]; fold t in Hnil || fold t in Ha, Hb.
    + rewrite Hnil. cbn. split; [lia|]. split; [intros x y H0; discriminate|].
      split; [intros x y H0; destruct x; discriminate | discriminate].
    + destruct (50 <? length t)%nat eqn:Hlen.
      * apply Nat.ltb_lt in Hlen. split; [|split; [|split; [|discriminate]]].
        -- rewrite length_app, length_take. change (length (str "...")) with 3. lia.
        -- intros x y H. rewrite Ha in H. cbn in H. injection H as <- _. apply Hq, Hqa.
        -- intros x y H. change (str "...") with (str ".." ++ [46%N]) in H.
           rewrite app_assoc in H. apply app_inj_tail in H as [_ <-]. split; discriminate.
      * apply Nat.ltb_ge in Hlen. split; [exact Hlen|]. split; [|split; [|discriminate]].
        -- intros x y H. rewrite Ha in H. injection H as <- _. apply Hq, Hqa.
        -- intros x y H. rewrite Hb in H. apply app_inj_tail in H as [_ <-]. apply Hq, Hqb.
  - exists None, n, NEW_CONVERSATION. split; [reflexivity|].
    split; [unfold generate_conversation_title, bindM, query_model; rewrite E; reflexivity|].
    split; [cbn; lia|]. split; [|split; [|reflexivity]].
    + intros x y H. injection H as <- _. split; discriminate.
    + intros x y H. change NEW_CONVERSATION with (str "New Conversatio" ++ [110%N]) in H.
      apply app_inj_tail in H as [_ <-]. split; discriminate.
Qed.


(** ** The classifier *)

Lemma preset_key_ends `{U : Unicode} (category : text) :
  In category (map fst COUNCIL_PRESETS) ->
  (exists a r, category = a :: r /\ is_space a = false)
  /\ (exists r b, category = r ++ [b] /\ is_space b = false)
  /\ upper category = category
  /\ contains nl category = false
  /\ first_category (map fst COUNCIL_PRESETS) category = Some category.
Proof.
  cbn [map fst COUNCIL_PRESETS].
  intros [<-|[<-|[<-|[<-|[<-|[<-|[]]]]]]];
    (split; [eexists _, _; split; reflexivity|];
     split; [|repeat split; vm_compute; reflexivity]).
  - exists (str "CODIN"), 71%N. split; reflexivity.
  - exists (str "MAT"), 72%N. split; reflexivity.
  - exists (str "CREATIVE_WRITIN"), 71%N. split; reflexivity.
  - exists (str "FACTUAL_RESEARC"), 72%N. split; reflexivity.
  - exists (str "REASONIN"), 71%N. split; reflexivity.
  - exists (str "GENERA"), 76%N. split; reflexivity.
Qed.

(** X8.  Whatever the router answers, the classifier makes one call to
    it, with a timeout of 10 seconds, and returns the name of a preset:
    it never raises.  When the router answers with the name of a
    category, with any white space around it, that category is returned;
    when the call fails or the reply is an empty dictionary, the
    category is GENERAL. *)
Theorem classifier_reads_the_category `{U : Unicode} {W : Type} `{O : OpenRouter W}
    (user_query : text) (w : world W) (response : option reply) (n : W) :
  net_query_model ROUTER_MODEL (classify_messages user_query) 10 (net w) = (response, n) ->
  let w' := {| net := n;
               calls := calls w ++ [CallQueryModel ROUTER_MODEL (classify_messages user_query) 10] |} in
  (exists category,
     classify_query user_query w = Some (category, w')
     /\ In category (map fst COUNCIL_PRESETS))
  /\ (response = None \/ response = Some [] ->
      classify_query user_query w = Some (str "GENERAL", w'))
  /\ (forall fields category ws1 ws2,
        response = Some fields ->
        dict_get (str "content") fields = Some (ws1 ++ category ++ ws2) ->
        In category (map fst COUNCIL_PRESETS) ->
        Forall (fun c => is_space c = true) ws1 ->
        Forall (fun c => is_space c = true) ws2 ->
        classify_query user_query w = Some (category, w')).
Proof.
  intros E w'. split; [|split].
  - unfold classify_query, bindM, query_model. fold (classify_messages user_query).
    rewrite E.
    assert (Hg : In GENERAL (map fst COUNCIL_PRESETS)) by (cbn; tauto).
    destruct response as [[|kv response]|];
      try (exists GENERAL; split; [reflexivity | exact Hg]).
    match goal with
    | |- context [first_category ?cats ?content] =>
        destruct (first_category cats content) as [cat|] eqn:Ec
    end.
    + exists cat. split; [reflexivity | apply (first_category_In _ _ _ Ec)].
    + exists GENERAL. split; [reflexivity | exact Hg].
  - intros [-> | ->]; unfold classify_query, bindM, query_model;
      fold (classify_messages user_query); rewrite E; reflexivity.
  - intros fields category ws1 ws2 -> Hcontent Hin Hws1 Hws2.
    destruct (preset_key_ends category Hin) as (Hhd & Hlast & Hup & Hnl & Hfirst).
    unfold classify_query, bindM, query_model.
    fold (classify_messages user_query). rewrite E.
    destruct fields as [|kv fields]; [discriminate|].
    rewrite Hcontent. cbn [default from_option id].
    assert (Hs : strip (ws1 ++ category ++ ws2) = category).
    { unfold strip, rstrip, lstrip. apply strip_padded; assumption. }
    rewrite Hs, Hup, Hnl, Hfirst. reflexivity.
Qed.

Lemma classifier_reads_the_category_witness :
  classify_query (U := ascii_tables) (O := live_network) (str "2+2?") {| net := tt; calls := [] |}
  = Some (str "MATH",
          {| net := tt;
             calls := [CallQueryModel ROUTER_MODEL (classify_messages (str "2+2?")) 10] |}).
Proof.
  apply (proj2 (proj2 (classifier_reads_the_category (U := ascii_tables) (O := live_network)
                         (str "2+2?") {| net := tt; calls := [] |}
                         (Some [(str "content", str " MATH" ++ nl)]) tt eq_refl))
               [(str "content", str " MATH" ++ nl)] (str "MATH") (str " ") nl eq_refl eq_refl).
  - vm_compute. tauto.
  - repeat constructor.
  - repeat constructor.
Defined.


(** ** The whole run *)





(** ** The rubric rule of the aggregate scorer *)

Lemma fold_rubric_points label_to_model evaluator_model subject (rubric : list rubric_entry) :
  forall t,
    let t' := fold_left (score_entry label_to_model evaluator_model) rubric t in
    score_of t' subject
    = fold_left PrimFloat.add
        (rubric_points label_to_model evaluator_model subject rubric) (score_of t subject)
    /\ count_of t' subject
       = (count_of t subject
          + Z.of_nat (length (rubric_points label_to_model evaluator_model subject rubric)))%Z.
Proof.
  induction rubric as [|ev rubric IH]; intros t; cbn zeta.
  - cbn. split; [reflexivity | lia].
  - cbn [fold_left].
    destruct (IH (score_entry label_to_model evaluator_model t ev)) as [H1 H2].
    cbn zeta in H1, H2. rewrite H1, H2. clear H1 H2 IH.
    unfold rubric_points at 2 4. cbn [omap list_omap].
    fold (rubric_points label_to_model evaluator_model subject rubric).
    unfold score_entry.
    destruct (label_to_model !! (RESPONSE_ ++ default [] (response_label ev))) as [s|] eqn:E.
    + rewrite score_of_add_score, count_of_add_score.
      destruct (decide (Some s = Some subject)) as [Heq|Hne].
      * apply (inj Some) in Heq. subst s.
        destruct (decide (subject = subject)); [|congruence].
        cbn [fold_left length]. unfold weight_of. split; [reflexivity | lia].
      * destruct (decide (s = subject)); [congruence|]. split; reflexivity.
    + destruct (decide (None = Some subject)); [discriminate|]. split; reflexivity.
Qed.

(** X10.  For an evaluator output whose rubric is an array, not empty,
    of objects whose scores are numbers and whose labels are strings,
    the scorer adds to the total of each subject, for every entry whose
    label names that subject, the entry's
    [(accuracy + reasoning + completeness + clarity) * confidence] times
    0.5 when the evaluator is the subject and 1.0 otherwise, in the
    order of the entries, and counts one evaluation for each.  The
    scores are the [float]s the numbers convert to, a missing score is
    0 and a missing confidence 1.0.  An entry whose label names no
    candidate adds nothing, and neither the parsed ranking nor the
    number of candidates has a part in it. *)
Theorem rubric_entries_are_scored `{U : Unicode} `{P : Python} (label_to_model : gmap text text)
    (ranking : stage2_result) (ev0 : rubric_entry) (rubric : list rubric_entry)
    (num_options : Z) (t : tally) :
  let points (subject : text) : list float :=
    omap (fun ev : rubric_entry =>
            if decide (label_to_model !! (RESPONSE_ ++ default [] (response_label ev))
                       = Some subject)
            then Some ((default 0 (accuracy ev) + default 0 (reasoning ev)
                        + default 0 (completeness ev) + default 0 (clarity ev))
                       * default 1 (confidence ev)
                       * (if decide (s2_model ranking = subject) then 0.5 else 1))%float
            else None)
         (ev0 :: rubric) in
  as_rubric (s2_rubric ranking) = Some (ev0 :: rubric) ->
  exists t',
    score_evaluator num_options label_to_model t ranking = Some t'
    /\ forall subject,
         score_of t' subject
         = fold_left PrimFloat.add (points subject) (score_of t subject)
         /\ count_of t' subject
            = (count_of t subject + Z.of_nat (length (points subject)))%Z.
Proof.
  intros points Hrubric.
  exists (fold_left (score_entry label_to_model (s2_model ranking)) (ev0 :: rubric) t).
  split.
  - apply score_evaluator_typed, Hrubric.
  - intros subject.
    apply (fold_rubric_points label_to_model (s2_model ranking) subject (ev0 :: rubric) t).
Qed.

Lemma rubric_entries_are_scored_witness :
  as_rubric (s2_rubric rubric_evaluation)
  = Some [typed_entry (str "A") 8 9 7 8 0.5; typed_entry (str "B") 9 9 9 9 1;
          typed_entry (str "C") 9 9 9 9 1]
  /\ exists t',
       score_evaluator (U := ascii_tables) (P := sample_python) 2 two_candidates empty_tally
         rubric_evaluation
       = Some t'
       /\ score_of t' (str "model_1") = (0 + (8 + 9 + 7 + 8) * 0.5 * 1)%float
       /\ score_of t' (str "model_2") = (0 + (9 + 9 + 9 + 9) * 1 * 0.5)%float
       /\ count_of t' (str "model_1") = 1%Z
       /\ count_of t' (str "model_2") = 1%Z.
Proof.
  assert (Hr : as_rubric (s2_rubric rubric_evaluation)
               = Some [typed_entry (str "A") 8 9 7 8 0.5; typed_entry (str "B") 9 9 9 9 1;
                       typed_entry (str "C") 9 9 9 9 1]) by (vm_compute; reflexivity).
  split; [exact Hr|].
  destruct (rubric_entries_are_scored (U := ascii_tables) (P := sample_python) two_candidates
              rubric_evaluation (typed_entry (str "A") 8 9 7 8 0.5)
              [typed_entry (str "B") 9 9 9 9 1; typed_entry (str "C") 9 9 9 9 1] 2 empty_tally Hr)
    as (t' & Ht & Hs).
  exists t'. split; [exact Ht|].
  pose proof (Hs (str "model_1")) as [H1 H1'].
  pose proof (Hs (str "model_2")) as [H2 H2'].
  split; [exact H1|]. split; [exact H2|]. split; [exact H1' | exact H2'].
Defined.


(** ** The entries of the aggregate *)

Lemma dict_set_NoDup {K : Type} `{EqDecision K} {V : Type} (d : list (K * V)) (k : K) (v : V) :
  List.NoDup (map fst d) -> List.NoDup (map fst (dict_set k v d)).
Proof.
  induction d as [|[k0 v0] d IH]; cbn; intros Hnd.
  - constructor; [intros [] | constructor].
  - destruct (decide (k = k0)) as [->|Hne]; cbn; [exact Hnd|].
    apply List.NoDup_cons_iff in Hnd as [Hnin Hnd].
    apply List.NoDup_cons_iff. split; [|apply IH, Hnd].
    intros Hin. apply (dict_set_keys_In d k v k0) in Hin as [->|Hin]; [congruence | contradiction].
Qed.

Lemma add_score_NoDup s x t :
  List.NoDup (map fst (model_scores t)) -> List.NoDup (map fst (model_scores (add_score s x t))).
Proof. unfold add_score, dict_update. cbn [model_scores]. apply dict_set_NoDup. Qed.

Lemma fold_left_keeps {A B : Type} (I : B -> Prop) (f : B -> A -> B) :
  (forall b a, I b -> I (f b a)) -> forall l b, I b -> I (fold_left f l b).
Proof. intros Hf. induction l as [|a l IH]; intros b Hb; [exact Hb | apply IH, Hf, Hb]. Qed.

Lemma length_omap_decide {A B : Type} (P : A -> Prop) `{forall x, Decision (P x)}
    (g : A -> B) (l : list A) :
  length (omap (fun x => if decide (P x) then Some (g x) else None) l) = length (filter P l).
Proof.
  induction l as [|a l IH]; [reflexivity|].
  cbn [omap list_omap]. rewrite filter_cons.
  destruct (decide (P a)); cbn [length]; rewrite IH; reflexivity.
Qed.

Lemma length_position_scores (n : Z) (label_to_model : gmap text text)
    (evaluator_model subject : text) (labs : list text) (start : Z) :
  length (position_scores n label_to_model evaluator_model subject (enumerate_from start labs))
  = length (filter (fun lab => label_to_model !! lab = Some subject) labs).
Proof.
  revert start. induction labs as [|lab labs IH]; intros start; [reflexivity|].
  cbn [enumerate_from]. unfold position_scores. cbn [omap list_omap].
  fold (position_scores n label_to_model evaluator_model subject
          (enumerate_from (start + 1) labs)).
  rewrite filter_cons. cbn [snd].
  destruct (decide (label_to_model !! lab = Some subject)); cbn [length]; rewrite IH; reflexivity.
Qed.

Section AggregateProps.
Context {U : Unicode} {P : Python}.

(** What the loop over a rubric does to the counts. *)
Lemma foldM_rubric_counts label_to_model evaluator_model (evs : list json) :
  forall t t',
    foldM (score_rubric_entry label_to_model evaluator_model) t evs = Some t' ->
    (List.NoDup (map fst (model_scores t)) -> List.NoDup (map fst (model_scores t')))
    /\ forall m, count_of t' m
                 = (count_of t m
                    + Z.of_nat (length (filter (fun ev => entry_label ev ≫= (label_to_model !!.)
                                                          = Some m) evs)))%Z.
Proof.
  induction evs as [|ev evs IH]; intros t t'; cbn [foldM].
  - intros Heq. apply (inj Some) in Heq. subst t'. split; [auto | intros m; cbn; lia].
  - destruct (score_rubric_entry label_to_model evaluator_model t ev) as [t1|] eqn:E1;
      [|discriminate].
    intros Hrest. destruct (IH t1 t' Hrest) as [Hnd Hc].
    apply score_rubric_entry_inv in E1 as (label & Hl & H1).
    assert (Hstep : (List.NoDup (map fst (model_scores t))
                     -> List.NoDup (map fst (model_scores t1)))
                    /\ forall m, count_of t1 m
                                 = (count_of t m
                                    + (if decide (label_to_model !! label = Some m)
                                       then 1 else 0))%Z).
    { destruct (label_to_model !! label) as [s|] eqn:El.
      - destruct H1 as [x ->]. split; [apply add_score_NoDup|].
        intros m. rewrite count_of_add_score.
        destruct (decide (s = m)) as [->|Hne].
        + destruct (decide (Some m = Some m)); [reflexivity | congruence].
        + destruct (decide (Some s = Some m)) as [Heq|_]; [|lia].
          apply (inj Some) in Heq. contradiction.
      - subst t1. split; [auto|]. intros m.
        destruct (decide (None = Some m)); [discriminate | lia]. }
    destruct Hstep as [Hnd1 Hc1].
    split; [auto|]. intros m. rewrite Hc, Hc1, filter_cons.
    rewrite Hl. cbn [mbind option_bind].
    destruct (decide (label_to_model !! label = Some m)); cbn [length]; lia.
Qed.

Lemma score_evaluator_counts n label_to_model t ranking t' :
  score_evaluator n label_to_model t ranking = Some t' ->
  (List.NoDup (map fst (model_scores t)) -> List.NoDup (map fst (model_scores t')))
  /\ forall m, count_of t' m
               = (count_of t m + Z.of_nat (evaluations_by label_to_model ranking m))%Z.
Proof.
  unfold score_evaluator, evaluations_by. cbv zeta.
  destruct (truthy (s2_rubric ranking)).
  - destruct (iterate (s2_rubric ranking)) as [evs|]; [|discriminate].
    cbn [mbind option_bind default from_option id]. apply foldM_rubric_counts.
  - destruct (fallback_ranking ranking) as [labs|]; [|discriminate].
    cbn. intros Heq. apply (inj Some) in Heq. subst t'. split.
    + intros Hnd. apply (fold_left_keeps (fun b => List.NoDup (map fst (model_scores b))));
        [|exact Hnd].
      intros b a Hb. unfold score_position.
      destruct (label_to_model !! a.2); [apply add_score_NoDup, Hb | exact Hb].
    + intros m.
      destruct (fold_position_scores n label_to_model (s2_model ranking) m
                  (enumerate_from 1 labs) t) as [_ Hc].
      cbn zeta in Hc. rewrite Hc, length_position_scores. reflexivity.
Qed.

Lemma foldM_score_evaluator_counts n label_to_model (results : list stage2_result) :
  forall t t',
    foldM (score_evaluator n label_to_model) t results = Some t' ->
    (List.NoDup (map fst (model_scores t)) -> List.NoDup (map fst (model_scores t')))
    /\ forall m, count_of t' m
                 = (count_of t m
                    + Z.of_nat (sum_list (map (fun r => evaluations_by label_to_model r m)
                                            results)))%Z.
Proof.
  induction results as [|r results IH]; intros t t'; cbn [foldM].
  - intros Heq. apply (inj Some) in Heq. subst t'.
    split; [auto | intros m; cbn; lia].
  - destruct (score_evaluator n label_to_model t r) as [t1|] eqn:E1; [|discriminate].
    intros Hrest.
    destruct (score_evaluator_counts _ _ _ _ _ E1) as [Hnd1 Hc1].
    destruct (IH t1 t' Hrest) as [Hnd Hc].
    split; [auto|]. intros m. rewrite Hc, Hc1.
    set (f := fun r0 : stage2_result => evaluations_by label_to_model r0 m).
    change (sum_list (map f (r :: results))) with (f r + sum_list (map f results)).
    subst f. cbv beta. lia.
Qed.

(** The dictionaries behind the output of the scorer. *)
Lemma calculate_aggregate_rankings_tally (results : list stage2_result) label_to_model
    (out : list aggregate_entry) :
  calculate_aggregate_rankings results label_to_model = Some out ->
  exists t,
    foldM (score_evaluator (Z.of_nat (size label_to_model)) label_to_model) empty_tally results
    = Some t
    /\ out = sort_desc total_score (aggregate_of t)
    /\ List.NoDup (map fst (model_scores t))
    /\ forall m, count_of t m
                 = Z.of_nat (sum_list (map (fun r => evaluations_by label_to_model r m) results)).
Proof.
  unfold calculate_aggregate_rankings. cbv zeta.
  destruct (foldM _ empty_tally results) as [t|] eqn:Ht; [|discriminate].
  cbn [mbind option_bind]. intros Heq. apply (inj Some) in Heq. subst out.
  destruct (foldM_score_evaluator_counts _ _ _ _ _ Ht) as [Hnd Hc].
  exists t. split; [reflexivity|]. split; [reflexivity|]. split.
  - apply Hnd. constructor.
  - intros m. rewrite Hc. reflexivity.
Qed.

Lemma aggregate_of_models (t : tally) : map agg_model (aggregate_of t) = map fst (model_scores t).
Proof. unfold aggregate_of. rewrite map_map. reflexivity. Qed.

End AggregateProps.

(** X11.  The scorer returns when every rubric is false as a condition
    or is an array of objects whose scores are numbers and whose labels
    are strings.  Whenever it returns, it returns one entry for each
    model, no model twice, whose [average_rank] is its [total_score];
    and when no total is a NaN, no entry stands ahead of one with a
    greater [total_score]. *)
Theorem aggregate_is_ranked_by_total `{U : Unicode} `{P : Python}
    (stage2_results : list stage2_result) (label_to_model : gmap text text) :
  (Forall (fun ranking => truthy (s2_rubric ranking) = false
                          \/ is_Some (as_rubric (s2_rubric ranking))) stage2_results ->
   exists aggregate,
     calculate_aggregate_rankings stage2_results label_to_model = Some aggregate)
  /\ forall aggregate,
       calculate_aggregate_rankings stage2_results label_to_model = Some aggregate ->
       List.NoDup (map agg_model aggregate)
       /\ Forall (fun e => average_rank e = total_score e) aggregate
       /\ (Forall (fun e => is_nan (total_score e) = false) aggregate ->
           StronglySorted (fun a b => (total_score a <? total_score b)%float = false) aggregate).
Proof.
  split; [apply calculate_aggregate_rankings_scorable|].
  intros aggregate Hrun.
  destruct (calculate_aggregate_rankings_tally stage2_results label_to_model aggregate Hrun)
    as (t & _ & -> & Hnd & _).
  split; [|split].
  - apply (Permutation_NoDup (l := map agg_model (aggregate_of t))).
    + apply Permutation_map. symmetry. apply stable_sort_perm.
    + rewrite aggregate_of_models. exact Hnd.
  - apply List.Forall_forall. intros e He. apply stable_sort_In in He.
    unfold aggregate_of in He. apply in_map_iff in He as (mt & <- & _). reflexivity.
  - intros Hnan.
    apply (stable_sort_sorted (fun x y : aggregate_entry => (total_score x <? total_score y)%float)
             (fun e => is_nan (total_score e) = false)).
    + intros x y. apply float_ltb_asym.
    + intros x y z. apply float_ltb_negtrans.
    + apply List.Forall_forall. intros e He.
      apply (proj1 (List.Forall_forall _ _) Hnan). apply stable_sort_In. exact He.
Qed.

Lemma aggregate_is_ranked_by_total_witness :
  exists aggregate,
    calculate_aggregate_rankings (U := ascii_tables) (P := sample_python)
      [self_first_evaluation; rubric_evaluation] two_candidates = Some aggregate
    /\ StronglySorted (fun a b => (total_score a <? total_score b)%float = false) aggregate.
Proof.
  destruct (aggregate_is_ranked_by_total (U := ascii_tables) (P := sample_python)
              [self_first_evaluation; rubric_evaluation] two_candidates)
    as [Hreturns Hout].
  destruct Hreturns as [aggregate Hrun].
  { constructor; [left; reflexivity|]. constructor; [|constructor].
    right. vm_compute. eexists. reflexivity. }
  destruct (Hout aggregate Hrun) as (_ & _ & Hsorted).
  exists aggregate. split; [exact Hrun|]. apply Hsorted.
  vm_compute in Hrun. apply (inj Some) in Hrun. subst aggregate.
  repeat constructor.
Defined.

(** X12.  The scorer returns when every rubric is false as a condition
    or is an array of objects whose scores are numbers and whose labels
    are strings.  Whenever it returns, the evaluation count of an entry
    is the number of rubric entries and ranking positions, over all
    evaluators, whose label names the model of the entry: the entries
    of the rubric for an evaluator whose rubric is true as a condition,
    the positions of the ordinal ranking for another. *)
Theorem count_is_the_number_of_evaluations `{U : Unicode} `{P : Python}
    (stage2_results : list stage2_result) (label_to_model : gmap text text) :
  (Forall (fun ranking => truthy (s2_rubric ranking) = false
                          \/ is_Some (as_rubric (s2_rubric ranking))) stage2_results ->
   exists aggregate,
     calculate_aggregate_rankings stage2_results label_to_model = Some aggregate)
  /\ forall aggregate,
       calculate_aggregate_rankings stage2_results label_to_model = Some aggregate ->
       Forall (fun e =>
                 rankings_count e
                 = Z.of_nat (sum_list (map (fun ranking =>
                                              evaluations_by label_to_model ranking (agg_model e))
                                           stage2_results))) aggregate.
Proof.
  split; [apply calculate_aggregate_rankings_scorable|].
  intros aggregate Hrun.
  destruct (calculate_aggregate_rankings_tally stage2_results label_to_model aggregate Hrun)
    as (t & _ & -> & _ & Hc).
  apply List.Forall_forall. intros e He. apply stable_sort_In in He.
  unfold aggregate_of in He. apply in_map_iff in He as (mt & <- & _).
  cbn [rankings_count agg_model]. apply (Hc mt.1).
Qed.

Lemma count_is_the_number_of_evaluations_witness :
  Forall (fun e =>
            rankings_count e
            = Z.of_nat (sum_list (map (fun ranking =>
                                         evaluations_by (U := ascii_tables) (P := sample_python)
                                           two_candidates ranking (agg_model e))
                                      [self_first_evaluation; rubric_evaluation])))
    [ {| agg_model := str "model_2"; total_score := 28; average_rank := 28;
         rankings_count := 2 |};
      {| agg_model := str "model_1"; total_score := 26; average_rank := 26;
         rankings_count := 2 |} ].
Proof.
  apply (proj2 (count_is_the_number_of_evaluations (U := ascii_tables) (P := sample_python)
                  [self_first_evaluation; rubric_evaluation] two_candidates)).
  vm_compute. reflexivity.
Defined.


(** ** The leaderboard *)

Lemma dict_touch_NoDup {K : Type} `{EqDecision K} {V : Type} (d : list (K * V)) (k : K) (v : V) :
  List.NoDup (map fst d) -> List.NoDup (map fst (dict_touch k v d)).
Proof.
  intros Hnd. unfold dict_touch. destruct (dict_get k d) eqn:E; [exact Hnd|].
  apply dict_get_None in E. rewrite map_app. cbn [map fst].
  apply List.NoDup_app; [exact Hnd | constructor; [intros [] | constructor] |].
  intros x Hx [<-|[]]. exact (E Hx).
Qed.

Lemma sum_values_update (d : list (text * Z)) (k : text) :
  sum_values (dict_update k (fun c => (c + 1)%Z) 0%Z d) = (sum_values d + 1)%Z.
Proof.
  unfold dict_update, sum_values.
  induction d as [|[k0 v0] d IH]; cbn; [reflexivity|].
  destruct (decide (k = k0)) as [->|Hne]; cbn; [lia|].
  cbn in IH. rewrite IH. lia.
Qed.

Lemma sum_Z_perm (l l' : list Z) :
  Permutation l l' -> foldr Z.add 0%Z l = foldr Z.add 0%Z l'.
Proof. induction 1; cbn; lia. Qed.

(** Reading every key of [keys] in the dictionary [d] reads every value
    of [d] once. *)
Lemma sum_values_lookup (keys : list text) (d : list (text * Z)) :
  List.NoDup keys -> List.NoDup (map fst d) ->
  (forall m, In m (map fst d) -> In m keys) ->
  foldr Z.add 0%Z (map (fun m => default 0%Z (dict_get m d)) keys) = sum_values d.
Proof.
  intros Hkeys. revert keys Hkeys.
  assert (Hone : forall (g : text -> Z) (k : text) (v : Z) (keys : list text),
            List.NoDup keys -> In k keys -> g k = 0%Z ->
            foldr Z.add 0%Z (map (fun m => if decide (m = k) then v else g m) keys)
            = (v + foldr Z.add 0%Z (map g keys))%Z).
  { intros g k v keys Hnd. induction Hnd as [|x keys Hx Hnd IH]; intros Hin Hg; [destruct Hin|].
    cbn [map foldr]. destruct (decide (x = k)) as [->|Hne].
    - assert (Hrest : map (fun m => if decide (m = k) then v else g m) keys = map g keys).
      { apply map_ext_in. intros m Hm. destruct (decide (m = k)) as [->|]; [contradiction|].
        reflexivity. }
      rewrite Hrest, Hg. lia.
    - destruct Hin as [->|Hin]; [congruence|]. rewrite (IH Hin Hg). lia. }
  induction d as [|[k v] d IH]; intros keys Hkeys Hd Hsub.
  - clear. cbn. induction keys as [|x keys IHk]; [reflexivity|].
    cbn. rewrite IHk. reflexivity.
  - cbn [map fst] in Hd. apply List.NoDup_cons_iff in Hd as [Hk Hd].
    assert (Hmap : map (fun m => default 0%Z (dict_get m ((k, v) :: d))) keys
                   = map (fun m => if decide (m = k) then v
                                   else default 0%Z (dict_get m d)) keys).
    { apply map_ext. intros m. cbn [dict_get]. destruct (decide (m = k)); reflexivity. }
    rewrite Hmap, (Hone (fun m => default 0%Z (dict_get m d)) k v keys Hkeys).
    + rewrite (IH keys Hkeys Hd); [reflexivity|].
      intros m Hm. apply Hsub. right. exact Hm.
    + apply Hsub. left. reflexivity.
    + apply dict_get_None in Hk. rewrite Hk. reflexivity.
Qed.

Section LeaderboardProps.
Context {L : Libm}.

Lemma elo_pair_books (a b : ranking_row) (st st' : ratings) :
  books_balance st -> elo_pair a st b = Some st' -> books_balance st'.
Proof.
  intros (He & Hw & Hl & Hwe & Hle & Hsum). unfold elo_pair.
  destruct (decide (rank_position a = rank_position b));
    [intros Heq; apply (inj Some) in Heq; subst st'; repeat split; assumption|].
  set (winner := if (rank_position a <? rank_position b)%Z then subject_model a else subject_model b).
  set (loser := if (rank_position a <? rank_position b)%Z then subject_model b else subject_model a).
  destruct (expected _ _) as [el|]; destruct (expected _ _) as [ew|];
    cbn [mbind option_bind]; try discriminate.
  intros Heq. apply (inj Some) in Heq. subst st'.
  unfold books_balance. cbn [elo wins losses].
  assert (Hkeys : forall m x y,
            In m (map fst (dict_set loser x
                             (dict_set winner y
                                (dict_touch loser BASE_RATING
                                   (dict_touch winner BASE_RATING (elo st))))))
            <-> m = loser \/ m = winner \/ In m (map fst (elo st))).
  { intros m x y. rewrite !dict_set_keys_In, !dict_touch_keys_In. tauto. }
  split; [apply dict_set_NoDup, dict_set_NoDup, dict_touch_NoDup, dict_touch_NoDup, He|].
  split; [apply dict_set_NoDup, Hw|].
  split; [apply dict_set_NoDup, Hl|].
  split; [|split].
  - intros m Hm. apply Hkeys. unfold dict_update in Hm.
    apply dict_set_keys_In in Hm as [->|Hm]; [tauto | right; right; apply Hwe, Hm].
  - intros m Hm. apply Hkeys. unfold dict_update in Hm.
    apply dict_set_keys_In in Hm as [->|Hm]; [tauto | right; right; apply Hle, Hm].
  - rewrite !sum_values_update, Hsum. reflexivity.
Qed.

Lemma elo_pair_keeps_models (m : text) (a b : ranking_row) (st st' : ratings) :
  In m (map fst (elo st)) -> elo_pair a st b = Some st' -> In m (map fst (elo st')).
Proof.
  intros Hm. unfold elo_pair.
  destruct (decide (rank_position a = rank_position b));
    [intros Heq; apply (inj Some) in Heq; subst st'; exact Hm|].
  destruct (expected _ _) as [el|]; destruct (expected _ _) as [ew|];
    cbn [mbind option_bind]; try discriminate.
  intros Heq. apply (inj Some) in Heq. subst st'. cbn [elo].
  rewrite !dict_set_keys_In, !dict_touch_keys_In. tauto.
Qed.

Lemma elo_groups_keep (I : ratings -> Prop) :
  (forall a b st st', I st -> elo_pair a st b = Some st' -> I st') ->
  forall groups st st', I st -> foldM elo_group st groups = Some st' -> I st'.
Proof.
  intros Hpair groups st st' Hst.
  apply (foldM_invariant elo_group I (fun _ => True)); [|auto|exact Hst].
  intros b g b' _ Hb. rewrite elo_group_pairs.
  apply (foldM_invariant elo_step I (fun _ => True)); [|auto|exact Hb].
  intros b0 [x y] b1 _ Hb0. apply Hpair. exact Hb0.
Qed.

Lemma count_appearances_NoDup (stage1_rows : list response_row) :
  List.NoDup (map fst (count_appearances stage1_rows).2).
Proof.
  unfold count_appearances.
  apply (fold_left_keeps (fun acc : list (text * Z) * list (text * float) =>
                            List.NoDup (map fst acc.2))).
  - intros acc r Hacc. cbn [snd]. apply dict_touch_NoDup, Hacc.
  - constructor.
Qed.

(** The dictionaries behind the result of the computation. *)
Lemma elo_from_rows_books (ranking_rows : list ranking_row) (stage1_rows : list response_row)
    (out : list rating_record) :
  elo_from_rows ranking_rows stage1_rows = Some out ->
  exists st results,
    books_balance st
    /\ (forall m, In m (map mr_model stage1_rows) -> In m (map fst (elo st)))
    /\ List.Forall2
         (fun (mr : text * float) e =>
            rr_model e = mr.1
            /\ rr_wins e = default 0%Z (dict_get mr.1 (wins st))
            /\ rr_losses e = default 0%Z (dict_get mr.1 (losses st))
            /\ rr_appearances e
               = Z.of_nat (length (filter (fun r => mr_model r = mr.1) stage1_rows)))
         (elo st) results
    /\ out = stable_sort (fun x y => (rr_elo x <? rr_elo y)%Z) results.
Proof.
  unfold elo_from_rows.
  pose proof (count_appearances_NoDup stage1_rows) as Hnd0.
  pose proof (count_appearances_spec stage1_rows) as Hcount.
  destruct (count_appearances stage1_rows) as [appearances elo0]. cbn [fst snd] in Hnd0, Hcount.
  destruct (foldM elo_group _ _) as [st|] eqn:Est; [|discriminate]. cbn [mbind option_bind].
  destruct (rating_results st appearances) as [results|] eqn:Eres; [|discriminate].
  cbn [mbind option_bind]. intros Heq. apply (inj Some) in Heq.
  exists st, results. split; [|split; [|split; [|symmetry; exact Heq]]].
  - revert Est. apply (elo_groups_keep books_balance).
    + intros a b s s'. apply elo_pair_books.
    + unfold books_balance. cbn [elo wins losses].
      split; [exact Hnd0|]. split; [constructor|]. split; [constructor|].
      split; [intros m []|]. split; [intros m [] | reflexivity].
  - intros m Hm. revert Est.
    apply (elo_groups_keep (fun s => In m (map fst (elo s)))).
    + intros a b s s'. apply elo_pair_keeps_models.
    + cbn [elo]. apply dict_get_is_Some. rewrite (proj2 (Hcount m) Hm). eauto.
  - unfold rating_results in Eres. apply mapM_Some_1 in Eres.
    eapply List.Forall2_impl; [|exact Eres].
    intros mr e He. cbn beta in He.
    destruct (py_round mr.2) as [z|]; [|discriminate].
    cbn [mbind option_bind] in He. apply (inj Some) in He. subst e. cbn.
    split; [reflexivity|]. split; [reflexivity|]. split; [reflexivity|].
    apply (proj1 (Hcount mr.1)).
Qed.

Lemma StronglySorted_weaken {A : Type} (R R' : A -> A -> Prop) (l : list A) :
  (forall x y, R x y -> R' x y) -> StronglySorted R l -> StronglySorted R' l.
Proof.
  intros H. induction 1 as [|x l Hl IH Hx]; constructor; [exact IH|].
  eapply List.Forall_impl; [apply H | exact Hx].
Qed.

Lemma Forall2_Forall_r {A B : Type} (P : A -> B -> Prop) (Q : B -> Prop)
    (l : list A) (k : list B) :
  (forall x y, P x y -> Q y) -> List.Forall2 P l k -> List.Forall Q k.
Proof. intros H. induction 1; constructor; eauto. Qed.

End LeaderboardProps.

(** What the leaderboard lists. *)
Lemma calculate_elo_ratings_board `{L : Libm} (db : database)
    (out : list rating_record) :
  (calculate_elo_ratings db).1 = Some out ->
  List.NoDup (map rr_model out)
  /\ StronglySorted (fun a b => (rr_elo b <= rr_elo a)%Z) out
  /\ (forall r, In r (model_responses db) -> mr_stage r = 1%Z ->
        In (mr_model r) (map rr_model out))
  /\ Forall (fun e =>
               rr_appearances e
               = Z.of_nat (length (filter (fun r => mr_stage r = 1%Z /\ mr_model r = rr_model e)
                                     (model_responses db)))) out.
Proof.
  unfold calculate_elo_ratings, select_rankings, select_stage1. cbn [fst snd].
  intros Hrun.
  destruct (elo_from_rows_books _ _ _ Hrun)
    as (st & results & (He & _) & Hlisted & Hres & ->).
  assert (Hmodels : map rr_model results = map fst (elo st)).
  { clear -Hres. induction Hres as [|mr e l k (H & _) Hall IH]; [reflexivity|].
    cbn [map]. rewrite H, IH. reflexivity. }
  split; [|split; [|split]].
  - apply (Permutation_NoDup (l := map rr_model results)).
    + apply Permutation_map. symmetry. apply stable_sort_perm.
    + rewrite Hmodels. exact He.
  - eapply StronglySorted_weaken;
      [|apply (stable_sort_sorted (fun x y : rating_record => (rr_elo x <? rr_elo y)%Z)
                 (fun _ => True))].
    + intros x y Hxy. unfold in_order in Hxy. apply Z.ltb_ge in Hxy. exact Hxy.
    + intros x y _ _ Hxy. apply Z.ltb_lt in Hxy. apply Z.ltb_ge. lia.
    + intros x y z _ _ _ H1 H2. apply Z.ltb_ge in H1, H2. apply Z.ltb_ge. lia.
    + apply List.Forall_forall. auto.
  - intros r Hr Hstage.
    apply (Permutation_in (l := map rr_model results)).
    + apply Permutation_map. symmetry. apply stable_sort_perm.
    + rewrite Hmodels. apply Hlisted. apply in_map.
      apply list_elem_of_In, list_elem_of_filter. split; [exact Hstage|].
      apply list_elem_of_In. exact Hr.
  - apply List.Forall_forall. intros e He'. apply stable_sort_In in He'.
    pose proof (Forall2_Forall_r _
                  (fun e => rr_appearances e
                            = Z.of_nat (length (filter (fun r => mr_model r = rr_model e)
                                                  (filter (fun r => mr_stage r = 1%Z)
                                                     (model_responses db)))))
                  _ _ (fun mr e0 H => eq_trans (proj2 (proj2 (proj2 H)))
                                        (f_equal (fun m => Z.of_nat (length (filter (fun r => mr_model r = m) _)))
                                           (eq_sym (proj1 H))))
                  Hres) as Hall.
    rewrite (proj1 (List.Forall_forall _ _) Hall e He').
    rewrite list_filter_filter. do 2 apply (f_equal _).
    apply list_filter_iff. intros r. tauto.
Qed.

(** X13.  When the computation returns, the leaderboard lists no model
    twice, in the order of the ratings from the highest down; it lists
    every model that has a Round-1 response; and the appearances of an
    entry are the number of Round-1 responses of its model. *)
Theorem leaderboard_is_sorted_and_complete `{L : Libm} (db : database)
    (out : list rating_record) :
  (calculate_elo_ratings db).1 = Some out ->
  List.NoDup (map rr_model out)
  /\ StronglySorted (fun a b => (rr_elo b <= rr_elo a)%Z) out
  /\ (forall r, In r (model_responses db) -> mr_stage r = 1%Z ->
        In (mr_model r) (map rr_model out))
  /\ Forall (fun e =>
               rr_appearances e
               = Z.of_nat (length (filter (fun r => mr_stage r = 1%Z /\ mr_model r = rr_model e)
                                     (model_responses db)))) out.
Proof. exact (calculate_elo_ratings_board db out). Qed.

Lemma leaderboard_is_sorted_and_complete_witness :
  exists out,
    (calculate_elo_ratings (L := pow_at_zero) sample_history).1 = Some out
    /\ map rr_model out = [str "a"; str "c"; str "b"]
    /\ List.NoDup (map rr_model out)
    /\ StronglySorted (fun a b => (rr_elo b <= rr_elo a)%Z) out.
Proof.
  eexists. split; [vm_compute; reflexivity|]. split; [reflexivity|].
  destruct (leaderboard_is_sorted_and_complete (L := pow_at_zero) sample_history _ eq_refl)
    as (Hnd & Hsorted & _).
  split; [exact Hnd | exact Hsorted].
Defined.

(** X14.  When the computation returns, the wins of the leaderboard add
    up to its losses. *)
Theorem wins_add_up_to_losses `{L : Libm} (db : database) (out : list rating_record) :
  (calculate_elo_ratings db).1 = Some out ->
  foldr Z.add 0%Z (map rr_wins out) = foldr Z.add 0%Z (map rr_losses out).
Proof.
  unfold calculate_elo_ratings, select_rankings, select_stage1. cbn [fst snd].
  intros Hrun.
  destruct (elo_from_rows_books _ _ _ Hrun)
    as (st & results & (He & Hw & Hl & Hwe & Hle & Hsum) & _ & Hres & ->).
  assert (Hwins : map rr_wins results
                  = map (fun m => default 0%Z (dict_get m (wins st))) (map fst (elo st))).
  { clear -Hres. induction Hres as [|mr e l k (_ & H & _) Hall IH]; [reflexivity|].
    cbn [map]. rewrite H, IH. reflexivity. }
  assert (Hlosses : map rr_losses results
                    = map (fun m => default 0%Z (dict_get m (losses st))) (map fst (elo st))).
  { clear -Hres. induction Hres as [|mr e l k (_ & _ & H & _) Hall IH]; [reflexivity|].
    cbn [map]. rewrite H, IH. reflexivity. }
  rewrite (sum_Z_perm _ (map rr_wins results))
    by (apply Permutation_map, stable_sort_perm).
  rewrite (sum_Z_perm (map rr_losses (stable_sort _ results)) (map rr_losses results))
    by (apply Permutation_map, stable_sort_perm).
  rewrite Hwins, Hlosses.
  rewrite (sum_values_lookup _ _ He Hw Hwe), (sum_values_lookup _ _ He Hl Hle).
  exact Hsum.
Qed.

Lemma wins_add_up_to_losses_witness :
  exists out,
    (calculate_elo_ratings (L := pow_at_zero) sample_history).1 = Some out
    /\ foldr Z.add 0%Z (map rr_wins out) = 1%Z
    /\ foldr Z.add 0%Z (map rr_wins out) = foldr Z.add 0%Z (map rr_losses out).
Proof.
  eexists. split; [vm_compute; reflexivity|]. split; [reflexivity|].
  apply (wins_add_up_to_losses (L := pow_at_zero) sample_history). reflexivity.
Defined.


(** ** The order of the fetched rows *)

Lemma text_ltb_irrefl (a : text) : text_ltb a a = false.
Proof.
  induction a as [|x a IH]; [reflexivity|].
  cbn. rewrite N.ltb_irrefl, N.eqb_refl, IH. reflexivity.
Qed.

Lemma text_ltb_cons (x y : N) (a b : text) :
  text_ltb (x :: a) (y :: b) = true <-> (x < y)%N \/ (x = y /\ text_ltb a b = true).
Proof. cbn. rewrite orb_true_iff, andb_true_iff, N.ltb_lt, N.eqb_eq. reflexivity. Qed.

Lemma text_ltb_trans (a b c : text) :
  text_ltb a b = true -> text_ltb b c = true -> text_ltb a c = true.
Proof.
  revert b c. induction a as [|x a IH]; intros [|y b] [|z c]; try (cbn; congruence).
  rewrite !text_ltb_cons. intros [H1|[-> H1]] [H2|[-> H2]]; [left; lia | auto | auto |].
  right. split; [reflexivity | exact (IH b c H1 H2)].
Qed.

Lemma text_ltb_total (a b : text) :
  text_ltb a b = true \/ a = b \/ text_ltb b a = true.
Proof.
  revert b. induction a as [|x a IH]; intros [|y b];
    [right; left; reflexivity | left; reflexivity | right; right; reflexivity |].
  rewrite !text_ltb_cons.
  destruct (N.lt_total x y) as [H|[->|H]]; [auto | | auto].
  destruct (IH b) as [H|[->|H]]; auto.
Qed.

(** The order of the [ORDER BY], on the three columns. *)
Lemma row_ltb_spec (a b : ranking_row) :
  row_ltb a b = true
  <-> (message_id a < message_id b)%Z
      \/ (message_id a = message_id b
          /\ (text_ltb (evaluator_model a) (evaluator_model b) = true
              \/ (evaluator_model a = evaluator_model b
                  /\ (rank_position a < rank_position b)%Z))).
Proof.
  unfold row_ltb.
  rewrite !orb_true_iff, !andb_true_iff, orb_true_iff, andb_true_iff,
    !Z.ltb_lt, Z.eqb_eq, bool_decide_eq_true.
  reflexivity.
Qed.

Lemma row_ltb_asym (a b : ranking_row) : row_ltb a b = true -> row_ltb b a = false.
Proof.
  intros H. apply not_true_is_false. intros H'.
  apply row_ltb_spec in H, H'.
  destruct H as [H|(Hm & [H|(He & H)])]; destruct H' as [H'|(Hm' & [H'|(He' & H')])];
    try lia.
  - pose proof (text_ltb_trans _ _ _ H H') as Ht. rewrite text_ltb_irrefl in Ht. discriminate.
  - rewrite He' in H. rewrite text_ltb_irrefl in H. discriminate.
  - rewrite He in H'. rewrite text_ltb_irrefl in H'. discriminate.
Qed.

Lemma row_ltb_negtrans (a b c : ranking_row) :
  row_ltb a b = false -> row_ltb b c = false -> row_ltb a c = false.
Proof.
  intros H1 H2. apply not_true_is_false. intros H3.
  apply not_true_iff_false in H1, H2.
  rewrite row_ltb_spec in H1, H2. apply row_ltb_spec in H3.
  assert (Hab : (message_id b <= message_id a)%Z) by lia.
  assert (Hbc : (message_id c <= message_id b)%Z) by lia.
  destruct H3 as [H3|(Hm & H3)]; [lia|].
  assert (Hmab : message_id a = message_id b) by lia.
  assert (Hmbc : message_id b = message_id c) by lia.
  destruct (text_ltb_total (evaluator_model a) (evaluator_model b)) as [Ht|[Ht|Ht]].
  - apply H1. right. split; [exact Hmab | left; exact Ht].
  - destruct H3 as [H3|(He & H3)].
    + apply H2. right. split; [exact Hmbc|]. left. rewrite <- Ht. exact H3.
    + assert (Hr1 : ~ (rank_position a < rank_position b)%Z)
        by (intros Hr; apply H1; right; split; [exact Hmab | right; split; assumption]).
      assert (Hr2 : ~ (rank_position b < rank_position c)%Z)
        by (intros Hr; apply H2; right; split; [exact Hmbc | right; split; [congruence | exact Hr]]).
      lia.
  - destruct H3 as [H3|(He & H3)].
    + apply H2. right. split; [exact Hmbc|]. left. exact (text_ltb_trans _ _ _ Ht H3).
    + apply H2. right. split; [exact Hmbc|]. left. rewrite <- He. exact Ht.
Qed.

Lemma StronglySorted_filter {A : Type} (R : A -> A -> Prop) (P : A -> Prop)
    `{forall x, Decision (P x)} (l : list A) :
  StronglySorted R l -> StronglySorted R (filter P l).
Proof.
  induction 1 as [|x l Hl IH Hx]; [constructor|].
  rewrite filter_cons. destruct (decide (P x)); [|exact IH].
  constructor; [exact IH|].
  apply List.Forall_forall. intros y Hy.
  apply list_elem_of_In, list_elem_of_filter in Hy as [_ Hy].
  apply (proj1 (List.Forall_forall _ _) Hx). apply list_elem_of_In. exact Hy.
Qed.

Lemma pairs_of_sorted (R : ranking_row -> ranking_row -> Prop) (ranks : list ranking_row)
    (a b : ranking_row) :
  StronglySorted R ranks -> In (a, b) (pairs_of ranks) -> R a b.
Proof.
  induction 1 as [|x l Hl IH Hx]; [intros []|].
  cbn [pairs_of]. rewrite in_app_iff, in_map_iff.
  intros [(y & Heq & Hy)|Hin]; [|exact (IH Hin)].
  injection Heq as <- <-. exact (proj1 (List.Forall_forall _ _) Hx y Hy).
Qed.

Lemma dict_set_In {K : Type} `{EqDecision K} {V : Type} (d : list (K * V)) (k k' : K) (v v' : V) :
  List.NoDup (map fst d) ->
  In (k', v') (dict_set k v d) -> (k' = k /\ v' = v) \/ (k' <> k /\ In (k', v') d).
Proof.
  induction d as [|[k0 v0] d IH]; cbn [dict_set map fst]; intros Hnd.
  - intros [Heq|[]]. injection Heq as <- <-. auto.
  - apply List.NoDup_cons_iff in Hnd as [Hk0 Hnd].
    destruct (decide (k = k0)) as [->|Hne].
    + intros [Heq|Hin]; [injection Heq as <- <-; auto|].
      right. split; [|right; exact Hin].
      intros ->. apply Hk0. apply (in_map fst) in Hin. exact Hin.
    + intros [Heq|Hin]; [injection Heq as <- <-; right; split; [congruence | left; reflexivity]|].
      destruct (IH Hnd Hin) as [?|[? ?]]; [auto | right; split; [assumption | right; assumption]].
Qed.

(** The groups are the fetched rows of each pair of round and
    evaluator, in the order they were fetched. *)
Lemma group_rows_filter (ranking_rows : list ranking_row) (key : Z * text)
    (ranks : list ranking_row) :
  In (key, ranks) (group_rows ranking_rows) ->
  ranks = filter (fun r => (message_id r, evaluator_model r) = key) ranking_rows.
Proof.
  unfold group_rows.
  set (step := fun (groups : list (Z * text * list ranking_row)) (r : ranking_row) =>
                 dict_update (message_id r, evaluator_model r) (fun l => l ++ [r]) [] groups).
  set (inv := fun (groups : list (Z * text * list ranking_row)) (pre : list ranking_row) =>
                List.NoDup (map fst groups)
                /\ (forall k g, In (k, g) groups
                                -> g = filter (fun r => (message_id r, evaluator_model r) = k) pre)
                /\ (forall r, In r pre -> In (message_id r, evaluator_model r) (map fst groups))).
  assert (Hstep : forall groups pre r, inv groups pre -> inv (step groups r) (pre ++ [r])).
  { intros groups pre r (Hnd & Hg & Hcover). unfold inv, step, dict_update.
    split; [apply dict_set_NoDup, Hnd|]. split.
    - intros k g Hin. rewrite filter_app, filter_cons, filter_nil.
      apply (dict_set_In _ _ _ _ _ Hnd) in Hin as [[-> ->]|[Hne Hin]].
      + destruct (decide ((message_id r, evaluator_model r) = (message_id r, evaluator_model r)));
          [|congruence].
        apply (f_equal (fun l => l ++ [r])).
        destruct (dict_get (message_id r, evaluator_model r) groups) as [g0|] eqn:E.
        * cbn. apply Hg. apply dict_get_Some_In, E.
        * cbn. symmetry. apply dict_get_None in E.
          assert (Hno : forall x, In x pre ->
                          (message_id x, evaluator_model x)
                          <> (message_id r, evaluator_model r))
            by (intros x Hx Heq; apply E; rewrite <- Heq; apply Hcover, Hx).
          clear -Hno. induction pre as [|x pre IHpre]; [reflexivity|].
          rewrite filter_cons.
          destruct (decide ((message_id x, evaluator_model x)
                            = (message_id r, evaluator_model r))) as [Heq|_].
          -- destruct (Hno x (or_introl eq_refl) Heq).
          -- apply IHpre. intros x0 Hx0. apply Hno. right. exact Hx0.
      + destruct (decide ((message_id r, evaluator_model r) = k)); [congruence|].
        rewrite app_nil_r. apply Hg, Hin.
    - intros r0 Hr0. apply dict_set_keys_In.
      apply in_app_iff in Hr0 as [Hr0|[<-|[]]]; [right; apply Hcover, Hr0 | left; reflexivity]. }
  assert (Hfold : forall rows groups pre,
            inv groups pre -> inv (fold_left step rows groups) (pre ++ rows)).
  { induction rows as [|r rows IH]; intros groups pre Hinv.
    - rewrite app_nil_r. exact Hinv.
    - cbn [fold_left]. replace (pre ++ r :: rows) with ((pre ++ [r]) ++ rows)
        by (rewrite <- app_assoc; reflexivity).
      apply IH, Hstep, Hinv. }
  destruct (Hfold ranking_rows [] []) as (_ & Hg & _).
  { split; [constructor|]. split; [intros k g [] | intros r []]. }
  intros Hin. exact (Hg key ranks Hin).
Qed.


(** X15.  In every group of the fetched rows the rows are those of one
    round and one evaluator, none holds the position 99, and they stand
    in ascending rank position.  So in every pair the loops compare, the
    row that comes first has the rank position that is not greater, and
    when the two positions differ its subject is the winner: it gets the
    win and the subject of the later row gets the loss. *)
Theorem earlier_row_wins `{L : Libm} (db : database) (key : Z * text)
    (ranks : list ranking_row) (a b : ranking_row) :
  In (key, ranks) (group_rows (select_rankings db).1) ->
  In (a, b) (pairs_of ranks) ->
  (message_id a, evaluator_model a) = key
  /\ (message_id b, evaluator_model b) = key
  /\ rank_position a <> 99%Z
  /\ rank_position b <> 99%Z
  /\ (rank_position a <= rank_position b)%Z
  /\ forall st st',
       rank_position a <> rank_position b ->
       elo_pair a st b = Some st' ->
       wins st' = dict_update (subject_model a) (fun c => (c + 1)%Z) 0%Z (wins st)
       /\ losses st' = dict_update (subject_model b) (fun c => (c + 1)%Z) 0%Z (losses st).
Proof.
  unfold select_rankings. cbn [fst].
  set (fetched := stable_sort (fun x y => row_ltb y x)
                    (filter (fun r => rank_position r ≠ 99%Z) (rankings db))).
  intros Hgroup Hpair.
  pose proof (group_rows_filter fetched key ranks Hgroup) as Hranks.
  assert (Hsorted : StronglySorted (fun x y => row_ltb y x = false) fetched).
  { apply (stable_sort_sorted (fun x y => row_ltb y x) (fun _ => True)).
    - intros x y _ _. apply row_ltb_asym.
    - intros x y z _ _ _ H1 H2. exact (row_ltb_negtrans z y x H2 H1).
    - apply List.Forall_forall. auto. }
  assert (Hin : forall r, In r ranks ->
                  (message_id r, evaluator_model r) = key /\ rank_position r <> 99%Z).
  { intros r Hr. rewrite Hranks in Hr.
    apply list_elem_of_In, list_elem_of_filter in Hr as [Hk Hr]. split; [exact Hk|].
    apply list_elem_of_In, stable_sort_In, list_elem_of_In, list_elem_of_filter in Hr as [Hr _].
    exact Hr. }
  destruct (pairs_of_In ranks (a, b) Hpair) as [Ha Hb]. cbn [fst snd] in Ha, Hb.
  destruct (Hin a Ha) as [Hka Ha99]. destruct (Hin b Hb) as [Hkb Hb99].
  assert (Hle : (rank_position a <= rank_position b)%Z).
  { assert (Hab : row_ltb b a = false).
    { apply (pairs_of_sorted (fun x y => row_ltb y x = false) ranks); [|exact Hpair].
      rewrite Hranks. apply StronglySorted_filter, Hsorted. }
    apply not_true_iff_false in Hab. rewrite row_ltb_spec in Hab.
    assert (Hk : (message_id b, evaluator_model b) = (message_id a, evaluator_model a))
      by congruence.
    injection Hk as Hm He.
    destruct (Z.le_gt_cases (rank_position a) (rank_position b)) as [H|H]; [exact H|].
    destruct Hab. right. split; [exact Hm|]. right. split; [exact He | lia]. }
  split; [exact Hka|]. split; [exact Hkb|]. split; [exact Ha99|]. split; [exact Hb99|].
  split; [exact Hle|].
  intros st st' Hne. unfold elo_pair.
  destruct (decide (rank_position a = rank_position b)); [contradiction|].
  assert (Hlt : (rank_position a <? rank_position b)%Z = true) by (apply Z.ltb_lt; lia).
  rewrite Hlt.
  destruct (expected _ _) as [el|]; destruct (expected _ _) as [ew|];
    cbn [mbind option_bind]; try discriminate.
  intros Heq. apply (inj Some) in Heq. subst st'. cbn [wins losses]. split; reflexivity.
Qed.

Lemma earlier_row_wins_witness :
  In ((1%Z, str "a"), [row 1 (str "a") (str "a") 1; row 1 (str "a") (str "b") 2])
     (group_rows (select_rankings sample_history).1)
  /\ (rank_position (row 1 (str "a") (str "a") 1)
      <= rank_position (row 1 (str "a") (str "b") 2))%Z.
Proof.
  assert (Hgroup : In ((1%Z, str "a"),
                       [row 1 (str "a") (str "a") 1; row 1 (str "a") (str "b") 2])
                      (group_rows (select_rankings sample_history).1))
    by (vm_compute; left; reflexivity).
  split; [exact Hgroup|].
  destruct (earlier_row_wins (L := pow_at_zero) sample_history (1%Z, str "a")
              [row 1 (str "a") (str "a") 1; row 1 (str "a") (str "b") 2]
              (row 1 (str "a") (str "a") 1) (row 1 (str "a") (str "b") 2) Hgroup)
    as (_ & _ & _ & _ & Hle & _).
  - left. reflexivity.
  - exact Hle.
Defined.


(** ** Persisting a round *)

Lemma bind_text_Some (t t' : text) : bind_text t = Some t' -> t' = t.
Proof. unfold bind_text. destruct (utf8_encodable t); [intros [= <-]; reflexivity | discriminate]. Qed.


Lemma index_of_None (x : text) (l : list text) : ~ In x l -> index_of x l = None.
Proof.
  induction l as [|y l IH]; [reflexivity|]. intros Hnin. cbn [index_of].
  destruct (decide (y = x)) as [->|Hne]; [destruct Hnin; left; reflexivity|].
  rewrite IH; [reflexivity|]. intros Hin. apply Hnin. right. exact Hin.
Qed.

Lemma mapM_map_eq {A B C : Type} (f : A -> option B) (g : B -> C) (h : A -> C)
    (l : list A) (k : list B) :
  (forall x y, f x = Some y -> g y = h x) -> mapM f l = Some k -> map g k = map h l.
Proof.
  intros Hf Hm. apply mapM_Some_1 in Hm.
  induction Hm as [|x y l k Hxy Hall IH]; [reflexivity|].
  cbn [map]. rewrite (Hf x y Hxy), IH. reflexivity.
Qed.

Lemma mapM_Forall_r {A B : Type} (f : A -> option B) (Q : B -> Prop) (l : list A) (k : list B) :
  (forall x y, f x = Some y -> Q y) -> mapM f l = Some k -> List.Forall Q k.
Proof.
  intros Hf Hm. apply mapM_Some_1 in Hm.
  induction Hm as [|x y l k Hxy Hall IH]; constructor; eauto.
Qed.

Lemma stage1_row_spec (message : Z) (r : stage1_result) (row : stored_response) :
  stage1_row message r = Some row ->
  sr_row row = {| mr_message_id := message; mr_model := s1_model r; mr_stage := 1 |}.
Proof.
  unfold stage1_row.
  destruct (bind_text (s1_model r)) as [m|] eqn:Em; [|discriminate].
  destruct (bind_text (s1_response r)) as [t|]; [|discriminate].
  cbn. intros Heq. apply (inj Some) in Heq. subst row. cbn.
  rewrite (bind_text_Some _ _ Em). reflexivity.
Qed.

Lemma stage2_rows_stage `{P : Python} `{D : Sqlite} (message : Z)
    (label_to_model : gmap text text) (r : stage2_result)
    (y : stored_response * list stored_ranking) :
  stage2_rows message label_to_model r = Some y -> mr_stage (sr_row y.1) <> 1%Z.
Proof.
  unfold stage2_rows.
  destruct (bind_text (s2_model r)); [|discriminate].
  destruct (bind_text (s2_ranking r)); [|discriminate]. cbn [mbind option_bind].
  destruct (if truthy (s2_rubric r) then _ else _); [|discriminate].
  cbn. intros Heq. apply (inj Some) in Heq. subst y. cbn. discriminate.
Qed.

(** What the call appends to the history. *)
Lemma add_assistant_message_history `{P : Python} `{D : Sqlite}
    (created_at conversation_id : text)
    (stage1 : list stage1_result) (stage2 : list stage2_result)
    (stage3 : option final_result) (s s' : store) :
  add_assistant_message created_at conversation_id stage1 stage2 stage3 s = Some s' ->
  exists message rows2 rest,
    next_rowid (messages_seq s) (map msg_id (messages_table s)) = Some message
    /\ mapM (stage2_rows message (make_label_to_model stage1)) stage2 = Some rows2
    /\ rankings (history s')
       = rankings (history s) ++ map rk_row (concat (map snd rows2))
    /\ model_responses (history s')
       = model_responses (history s)
         ++ map (fun r => {| mr_message_id := message; mr_model := s1_model r; mr_stage := 1 |})
              stage1
         ++ rest
    /\ List.Forall (fun r => mr_stage r <> 1%Z) rest.
Proof.
  unfold add_assistant_message.
  destruct (bind_text conversation_id) as [conversation|]; [|discriminate].
  destruct (next_rowid _ _) as [message|]; [|discriminate]. cbn [mbind option_bind].
  destruct (mapM (stage1_row message) stage1) as [rows1|] eqn:E1; [|discriminate].
  destruct (mapM (stage2_rows message (make_label_to_model stage1)) stage2)
    as [rows2|] eqn:E2; [|discriminate].
  destruct (stage3_rows message stage3) as [rows3|] eqn:E3; [|discriminate].
  cbn [mbind option_bind]. intros Heq. apply (inj Some) in Heq. subst s'.
  exists message, rows2, (map sr_row (map fst rows2 ++ rows3)).
  split; [reflexivity|]. split; [exact E2|].
  unfold history. cbn [rankings model_responses rankings_table responses_table].
  split; [apply map_app|]. split.
  - rewrite !map_app.
    rewrite (mapM_map_eq _ sr_row _ _ _ (stage1_row_spec message) E1). reflexivity.
  - rewrite map_app. apply List.Forall_app. split.
    + rewrite map_map. apply List.Forall_map.
      apply (mapM_Forall_r _ _ _ _ (stage2_rows_stage message (make_label_to_model stage1)) E2).
    + unfold stage3_rows in E3. destruct stage3 as [f|].
      * destruct (bind_text (fr_model f)); [|discriminate].
        destruct (bind_text (fr_response f)); [|discriminate].
        cbn in E3. apply (inj Some) in E3. subst rows3.
        repeat constructor. cbn. discriminate.
      * apply (inj Some) in E3. subst rows3. constructor.
Qed.


(** X16.  After a round is persisted, every model that answered in
    Round 1 is on the leaderboard, and the appearances of every entry
    are those it had in the history before, plus the number of Round-1
    answers of its model in this round. *)
Theorem persisted_answers_count_as_appearances `{P : Python} `{D : Sqlite} `{L : Libm}
    (created_at conversation_id : text)
    (stage1 : list stage1_result) (stage2 : list stage2_result)
    (stage3 : option final_result) (s s' : store) (out : list rating_record) :
  add_assistant_message created_at conversation_id stage1 stage2 stage3 s = Some s' ->
  (calculate_elo_ratings (history s')).1 = Some out ->
  (forall r, In r stage1 -> In (s1_model r) (map rr_model out))
  /\ Forall (fun e =>
               rr_appearances e
               = (Z.of_nat (length (filter (fun r => mr_stage r = 1%Z /\ mr_model r = rr_model e)
                                      (model_responses (history s))))
                  + Z.of_nat (length (filter (fun r => s1_model r = rr_model e) stage1)))%Z)
            out.
Proof.
  intros Hadd Hrun.
  destruct (add_assistant_message_history _ _ _ _ _ _ _ Hadd)
    as (message & rows2 & rest & _ & _ & _ & Hresp & Hrest).
  destruct (calculate_elo_ratings_board _ _ Hrun) as (_ & _ & Hlisted & Happ).
  split.
  - intros r Hr.
    apply (Hlisted {| mr_message_id := message; mr_model := s1_model r; mr_stage := 1 |});
      [|reflexivity].
    rewrite Hresp, !in_app_iff. right. left.
    apply (in_map (fun r => {| mr_message_id := message; mr_model := s1_model r;
                               mr_stage := 1 |})), Hr.
  - eapply List.Forall_impl; [|exact Happ]. intros e He. cbn beta in He.
    rewrite He, Hresp, !filter_app, !length_app.
    assert (Hnone : filter (fun r => mr_stage r = 1%Z /\ mr_model r = rr_model e) rest = []).
    { clear -Hrest. induction Hrest as [|x rest Hx Hrest IH]; [reflexivity|].
      rewrite filter_cons. destruct (decide _) as [[H1 _]|_]; [contradiction | exact IH]. }
    assert (Hnew : length (filter (fun r => mr_stage r = 1%Z /\ mr_model r = rr_model e)
                             (map (fun r => {| mr_message_id := message; mr_model := s1_model r;
                                               mr_stage := 1 |}) stage1))
                   = length (filter (fun r => s1_model r = rr_model e) stage1)).
    { clear. induction stage1 as [|x stage1 IH]; [reflexivity|].
      cbn [map]. rewrite !filter_cons. cbn [mr_stage mr_model].
      destruct (decide (1%Z = 1%Z /\ s1_model x = rr_model e)) as [[_ H]|H];
        destruct (decide (s1_model x = rr_model e)) as [H'|H']; cbn [length];
        try rewrite IH; try reflexivity; try contradiction.
      destruct H. split; [reflexivity | exact H']. }
    rewrite Hnone, Hnew. cbn [length]. lia.
Qed.

Lemma persisted_answers_count_as_appearances_witness :
  exists s' out,
    add_assistant_message (P := sample_python) (D := sample_sqlite)
      (str "2025-01-01T00:00:00") (str "c1") sample_stage1
      [self_first_evaluation] (Some sample_synthesis) empty_store = Some s'
    /\ (calculate_elo_ratings (L := pow_at_zero) (history s')).1 = Some out
    /\ In (str "model_1") (map rr_model out)
    /\ In (str "model_2") (map rr_model out).
Proof.
  eexists. eexists. split; [vm_compute; reflexivity|]. split; [vm_compute; reflexivity|].
  destruct (persisted_answers_count_as_appearances (P := sample_python) (D := sample_sqlite)
              (L := pow_at_zero) (str "2025-01-01T00:00:00") (str "c1") sample_stage1
              [self_first_evaluation] (Some sample_synthesis) empty_store _ _ eq_refl eq_refl)
    as [Hlisted _].
  split.
  - apply (Hlisted {| s1_model := str "model_1"; s1_response := str "One" |}).
    left. reflexivity.
  - apply (Hlisted {| s1_model := str "model_2"; s1_response := str "Two" |}).
    right. left. reflexivity.
Defined.


Section PersistedRankings.
Context {U : Unicode} {J : JsonLib} {P : Python} {D : Sqlite}.

(** Where the ranking of a Round-2 output comes from: the ranking
    derived from its rubric when that is not empty, the text parse
    otherwise. *)
Lemma evaluate_reply_inv (model full_text : text) (r : stage2_result) :
  evaluate_reply model full_text = Some r ->
  s2_model r = model
  /\ match default [] (sorted_evals (s2_rubric r) ≫= rubric_ranking) with
     | [] => parse_ranking_from_text full_text = Some (s2_parsed_ranking r)
     | derived => s2_parsed_ranking r = derived
     end.
Proof.
  unfold evaluate_reply.
  assert (Hd : (try_rubric full_text).2
               = default [] (sorted_evals (try_rubric full_text).1 ≫= rubric_ranking)).
  { unfold try_rubric.
    destruct (json_loads (strip_fences full_text)) as [[| | | | |items|data]|]; try reflexivity.
    destruct (dict_get (str "evaluations") data); reflexivity. }
  destruct (try_rubric full_text) as [rubric labs]. cbn [fst snd] in Hd. subst labs.
  destruct (default [] (sorted_evals rubric ≫= rubric_ranking)) as [|lab labs] eqn:E.
  - destruct (parse_ranking_from_text full_text) as [parsed|] eqn:Ep; [|discriminate].
    cbn [mbind option_bind]. intros Heq. apply (inj Some) in Heq. subst r.
    cbn [s2_model s2_rubric s2_parsed_ranking]. rewrite E. split; reflexivity.
  - cbn [mbind option_bind]. intros Heq. apply (inj Some) in Heq. subst r.
    cbn [s2_model s2_rubric s2_parsed_ranking]. rewrite E. split; reflexivity.
Qed.




(** The rows of the rubric of one evaluation of the round. *)
Lemma add_assistant_message_rubric_rows (created_at conversation_id : text)
    (stage1 : list stage1_result) (stage2 : list stage2_result)
    (stage3 : option final_result) (s s' : store) (r : stage2_result)
    (evs : list json) (ev : json) :
  add_assistant_message created_at conversation_id stage1 stage2 stage3 s = Some s' ->
  In r stage2 -> iterate (s2_rubric r) = Some evs -> In ev evs ->
  exists message row,
    next_rowid (messages_seq s) (map msg_id (messages_table s)) = Some message
    /\ rubric_row message (make_label_to_model stage1) (s2_model r) (s2_parsed_ranking r) ev
       = Some row
    /\ In (rk_row row) (rankings (history s')).
Proof.
  intros Hadd Hr Hevs Hev.
  destruct (add_assistant_message_history _ _ _ _ _ _ _ Hadd)
    as (message & rows2 & rest & Hid & Hrows2 & Hrank & _).
  destruct (mapM_In _ _ _ r Hrows2 Hr) as ([resp rows] & Hy & Hin).
  unfold stage2_rows in Hy.
  assert (Ht : truthy (s2_rubric r) = true).
  { destruct (s2_rubric r) as [| | | |t|items|fields]; try discriminate Hevs;
      apply (inj Some) in Hevs; subst evs.
    - destruct t; [destruct Hev | reflexivity].
    - destruct items; [destruct Hev | reflexivity].
    - destruct fields; [destruct Hev | reflexivity]. }
  rewrite Ht, Hevs in Hy.
  destruct (bind_text (s2_model r)); [|discriminate].
  destruct (bind_text (s2_ranking r)); [|discriminate]. cbn [mbind option_bind] in Hy.
  destruct (mapM _ evs) as [rows'|] eqn:Erows; [|discriminate].
  cbn [mbind option_bind] in Hy. apply (inj Some) in Hy. injection Hy as _ <-.
  destruct (mapM_In _ _ _ ev Erows Hev) as (row & Hrow & Hin').
  exists message, row. split; [exact Hid|]. split; [exact Hrow|].
  rewrite Hrank. apply in_app_iff. right. apply in_map.
  apply in_concat. exists rows'. split; [|exact Hin'].
  apply (in_map snd) in Hin. exact Hin.
Qed.

(** The row of an entry: the entry is a dictionary, and the row holds
    the subject and the position of its label. *)
Lemma rubric_row_inv (message : Z) (label_to_model : gmap text text) (evaluator : text)
    (parsed_ranking : list text) (ev : json) (row : stored_ranking) :
  rubric_row message label_to_model evaluator parsed_ranking ev = Some row ->
  exists fields,
    ev = JObject fields
    /\ let label_short :=
         py_format (default (JString []) (dict_get (str "response_label") fields)) in
       rk_row row
       = {| message_id := message;
            evaluator_model := evaluator;
            subject_model := default (UNKNOWN_ ++ label_short)
                               (label_to_model !! (RESPONSE_ ++ label_short));
            rank_position := match index_of (RESPONSE_ ++ label_short) parsed_ranking with
                             | Some i => (Z.of_nat i + 1)%Z
                             | None => 99%Z
                             end |}.
Proof.
  destruct ev as [| | | | |items|fields]; try discriminate.
  unfold rubric_row. cbn [py_get mbind option_bind]. cbv zeta.
  destruct (bind_text evaluator) as [e|] eqn:Ee; [|discriminate]. cbn [mbind option_bind].
  destruct (bind_text (default _ _)) as [sub|] eqn:Es; [|discriminate]. cbn [mbind option_bind].
  destruct (bind_score (str "accuracy") (JObject fields)); [|discriminate].
  cbn [mbind option_bind].
  destruct (bind_score (str "reasoning") (JObject fields)); [|discriminate].
  cbn [mbind option_bind].
  destruct (bind_score (str "completeness") (JObject fields)); [|discriminate].
  cbn [mbind option_bind].
  destruct (bind_score (str "clarity") (JObject fields)); [|discriminate].
  cbn [mbind option_bind].
  destruct (bind_score (str "confidence") (JObject fields)); [|discriminate].
  cbn [mbind option_bind].
  intros Heq. apply (inj Some) in Heq. subst row. exists fields. split; [reflexivity|].
  cbn [rk_row]. rewrite (bind_text_Some _ _ Ee), (bind_text_Some _ _ Es). reflexivity.
Qed.

End PersistedRankings.



(** X18.  When a round is persisted, every entry of a rubric without a
    single label, that Round 2 read from a reply, gets a row whose
    subject is [unknown_] and whose position is 99: the evaluation is in
    the table, and the rating computation reads none of it. *)
Theorem unlabelled_rubric_is_stored_unranked `{U : Unicode} `{J : JsonLib} `{P : Python}
    `{D : Sqlite} (created_at conversation_id : text)
    (stage1 : list stage1_result) (stage2 : list stage2_result)
    (stage3 : option final_result) (s s' : store)
    (model full_text : text) (r : stage2_result) (rubric : list json) (ev : json) :
  add_assistant_message created_at conversation_id stage1 stage2 stage3 s = Some s' ->
  In r stage2 ->
  evaluate_reply model full_text = Some r ->
  iterate (s2_rubric r) = Some rubric ->
  (forall ev fields, In ev rubric -> ev = JObject fields ->
                     dict_get (str "response_label") fields = None) ->
  In ev rubric ->
  exists row,
    In row (rankings (history s'))
    /\ next_rowid (messages_seq s) (map msg_id (messages_table s)) = Some (message_id row)
    /\ evaluator_model row = model
    /\ subject_model row = str "unknown_"
    /\ rank_position row = 99%Z
    /\ ~ In row (select_rankings (history s')).1.
Proof.
  intros Hadd Hr Heval Hrubric Hall Hev.
  destruct (add_assistant_message_rubric_rows _ _ _ _ _ _ _ _ _ _ Hadd Hr Hrubric Hev)
    as (message & row & Hid & Hrow & Hin).
  destruct (evaluate_reply_inv _ _ _ Heval) as (Hmodel & Hparsed).
  rewrite unlabelled_ranking_empty in Hparsed.
  2:{ intros evs ev' fields Hevs Hin' Heq. rewrite Hrubric in Hevs.
      apply (inj Some) in Hevs. subst evs. exact (Hall ev' fields Hin' Heq). }
  assert (Hno : ~ In (RESPONSE_ ++ []) (s2_parsed_ranking r)).
  { destruct (parse_ranking_from_text_tokens full_text) as (labs & Hlabs & Htok).
    rewrite Hparsed in Hlabs. apply (inj Some) in Hlabs. subst labs.
    intros Hin'. destruct (Htok _ Hin') as (c & _ & Hc).
    apply (f_equal (@length N)) in Hc. rewrite !length_app in Hc. cbn in Hc. lia. }
  apply rubric_row_inv in Hrow as (fields & -> & Hrow). cbv zeta in Hrow.
  rewrite (Hall _ fields Hev eq_refl) in Hrow.
  cbn [default from_option id py_format] in Hrow.
  rewrite (index_of_None _ _ Hno) in Hrow.
  change (RESPONSE_ ++ []) with RESPONSE_ in Hrow.
  rewrite make_label_to_model_bare in Hrow. cbn [default from_option id] in Hrow.
  exists (rk_row row). split; [exact Hin|]. rewrite Hrow.
  cbn [message_id evaluator_model subject_model rank_position].
  split; [exact Hid|]. split; [exact Hmodel|]. split; [reflexivity|].
  split; [reflexivity|].
  unfold select_rankings. cbn [fst]. intros Hsel.
  apply stable_sort_In, list_elem_of_In, list_elem_of_filter in Hsel as [Hne _].
  apply Hne. reflexivity.
Qed.

Lemma unlabelled_rubric_is_stored_unranked_witness :
  exists s' row,
    add_assistant_message (P := sample_python) (D := sample_sqlite)
      (str "2025-01-01T00:00:00") (str "c1") sample_stage1
      [unlabelled_evaluation] (Some sample_synthesis) empty_store = Some s'
    /\ In row (rankings (history s'))
    /\ subject_model row = str "unknown_"
    /\ rank_position row = 99%Z
    /\ ~ In row (select_rankings (history s')).1.
Proof.
  eexists.
  destruct (unlabelled_rubric_is_stored_unranked (U := ascii_tables) (J := sample_json)
              (P := sample_python) (D := sample_sqlite)
              (str "2025-01-01T00:00:00") (str "c1") sample_stage1
              [unlabelled_evaluation] (Some sample_synthesis) empty_store _
              (str "model_2") unlabelled_reply unlabelled_evaluation
              [unlabelled_entry] unlabelled_entry eq_refl)
    as (row & Hin & _ & _ & Hsubject & Hpos & Hout).
  - left. reflexivity.
  - vm_compute. reflexivity.
  - reflexivity.
  - intros ev fields [<-|[]] Heq. unfold unlabelled_entry in Heq. injection Heq as <-.
    reflexivity.
  - left. reflexivity.
  - exists row. split; [reflexivity|]. split; [exact Hin|]. split; [exact Hsubject|].
    split; [exact Hpos | exact Hout].
Defined.

(** The reply whose only entry has a label and a score that is a
    string, persisted: the sort raised on the string, the parsed ranking
    is empty, and the row of the entry has the position 99; the string
    is stored as the number it is the literal of. *)
Example string_score_is_stored_unranked :
  (add_assistant_message (P := sample_python) (D := sample_sqlite)
     (str "2025-01-01T00:00:00") (str "c1") sample_stage1
     [ {| s2_model := str "model_2"; s2_ranking := string_score_reply;
          s2_parsed_ranking := []; s2_rubric := JArray [string_score_entry] |} ]
     None empty_store ≫= fun s' => Some (rankings_table s'))
  = Some [ {| rk_row := {| message_id := 1; evaluator_model := str "model_2";
                           subject_model := str "model_1"; rank_position := 99 |};
              accuracy_score := SqlReal 8;
              reasoning_score := SqlNull;
              completeness_score := SqlNull;
              clarity_score := SqlNull;
              rk_confidence := SqlNull |} ].
Proof. vm_compute. reflexivity. Qed.


(** ** The evaluation prompt *)

(** X19.  The messages of Round 2 are built from the question and the
    texts of the Round-1 responses, in their order, and from nothing
    else: two lists of results with the same responses give the same
    messages, whatever the models that wrote them. *)
Theorem evaluation_prompt_hides_the_models (user_query : text)
    (stage1_results stage1_results' : list stage1_result) :
  map s1_response stage1_results = map s1_response stage1_results' ->
  stage2_messages user_query stage1_results = stage2_messages user_query stage1_results'.
Proof.
  intros Heq. unfold stage2_messages, ranking_prompt.
  assert (Hlen : length stage1_results = length stage1_results')
    by (rewrite <- (length_map s1_response stage1_results), Heq; apply length_map).
  rewrite Hlen.
  assert (Hzip : forall labs,
            map (fun lr : text * stage1_result =>
                   RESPONSE_ ++ lr.1 ++ str ":" ++ nl ++ s1_response lr.2)
                (zip labs stage1_results)
            = map (fun lr : text * stage1_result =>
                     RESPONSE_ ++ lr.1 ++ str ":" ++ nl ++ s1_response lr.2)
                  (zip labs stage1_results')).
  { clear Hlen. revert stage1_results' Heq.
    induction stage1_results as [|r rs IH]; intros [|r' rs'] Heq labs; try discriminate.
    - reflexivity.
    - injection Heq as Hr Hrs. destruct labs as [|lab labs]; [reflexivity|].
      cbn [zip zip_with map fst snd]. rewrite Hr, (IH rs' Hrs labs). reflexivity. }
  rewrite Hzip. reflexivity.
Qed.

Lemma evaluation_prompt_hides_the_models_witness :
  stage2_messages (str "Hello") sample_stage1
  = stage2_messages (str "Hello")
      [ {| s1_model := str "model_9"; s1_response := str "One" |};
        {| s1_model := str "model_1"; s1_response := str "Two" |} ].
Proof.
  apply (evaluation_prompt_hides_the_models (str "Hello") sample_stage1
           [ {| s1_model := str "model_9"; s1_response := str "One" |};
             {| s1_model := str "model_1"; s1_response := str "Two" |} ]).
  reflexivity.
Defined.


(** ** The consistency of the store *)

Lemma foldr_max_ge (seq : Z) (ids : list Z) :
  (seq <= foldr Z.max seq ids)%Z /\ forall i, In i ids -> (i <= foldr Z.max seq ids)%Z.
Proof.
  induction ids as [|x ids [IH1 IH2]]; cbn [foldr].
  - split; [lia | intros i []].
  - split; [lia|]. intros i [<-|Hi]; [lia|]. specialize (IH2 i Hi). lia.
Qed.

Lemma next_rowid_fresh (s : store) (message : Z) :
  store_ok s ->
  next_rowid (messages_seq s) (map msg_id (messages_table s)) = Some message ->
  ~ In message (map msg_id (messages_table s))
  /\ (messages_seq s < message)%Z
  /\ Forall (fun m => (msg_id m < message)%Z) (messages_table s).
Proof.
  intros (_ & Hseq & _) Hnext. unfold next_rowid in Hnext.
  destruct (foldr_max_ge (messages_seq s) (map msg_id (messages_table s))) as [H1 H2].
  destruct (_ =? _)%Z; [discriminate|]. apply (inj Some) in Hnext. subst message.
  split; [|split].
  - intros Hin. specialize (H2 _ Hin). lia.
  - lia.
  - apply List.Forall_forall. intros m Hm.
    specialize (H2 (msg_id m) (in_map msg_id _ _ Hm)). lia.
Qed.

(** The rows of a round, written out. *)
Lemma add_assistant_message_rows `{P : Python} `{D : Sqlite}
    (created_at conversation_id : text)
    (stage1 : list stage1_result) (stage2 : list stage2_result)
    (stage3 : option final_result) (s s' : store) :
  add_assistant_message created_at conversation_id stage1 stage2 stage3 s = Some s' ->
  exists message rows2,
    next_rowid (messages_seq s) (map msg_id (messages_table s)) = Some message
    /\ mapM (stage2_rows message (make_label_to_model stage1)) stage2 = Some rows2
    /\ conversations_table s' = conversations_table s
    /\ messages_table s'
       = messages_table s
         ++ [ {| msg_id := message; msg_conversation_id := conversation_id;
                 msg_role := str "assistant"; msg_content := [];
                 msg_created_at := created_at |} ]
    /\ messages_seq s' = message
    /\ responses_table s'
       = responses_table s
         ++ map (fun r => {| sr_row := {| mr_message_id := message; mr_model := s1_model r;
                                          mr_stage := 1 |};
                             sr_response := s1_response r |}) stage1
         ++ map (fun r => {| sr_row := {| mr_message_id := message; mr_model := s2_model r;
                                          mr_stage := 2 |};
                             sr_response := s2_ranking r |}) stage2
         ++ match stage3 with
            | Some f => [ {| sr_row := {| mr_message_id := message; mr_model := fr_model f;
                                          mr_stage := 3 |};
                             sr_response := fr_response f |} ]
            | None => []
            end
    /\ rankings_table s' = rankings_table s ++ concat (map snd rows2).
Proof.
  unfold add_assistant_message.
  destruct (bind_text conversation_id) as [conversation|] eqn:Ec; [|discriminate].
  apply bind_text_Some in Ec. subst conversation.
  destruct (next_rowid _ _) as [message|]; [|discriminate]. cbn [mbind option_bind].
  destruct (mapM (stage1_row message) stage1) as [rows1|] eqn:E1; [|discriminate].
  destruct (mapM (stage2_rows message (make_label_to_model stage1)) stage2)
    as [rows2|] eqn:E2; [|discriminate].
  destruct (stage3_rows message stage3) as [rows3|] eqn:E3; [|discriminate].
  cbn [mbind option_bind]. intros Heq. apply (inj Some) in Heq. subst s'.
  exists message, rows2. split; [reflexivity|]. split; [exact E2|].
  cbn [conversations_table messages_table messages_seq responses_table rankings_table].
  split; [reflexivity|]. split; [reflexivity|]. split; [reflexivity|]. split; [|reflexivity].
  assert (H1 : rows1 = map (fun r => {| sr_row := {| mr_message_id := message;
                                                     mr_model := s1_model r; mr_stage := 1 |};
                                        sr_response := s1_response r |}) stage1).
  { rewrite <- (map_id rows1). apply (mapM_map_eq (stage1_row message)); [|exact E1].
    intros r row. unfold stage1_row.
    destruct (bind_text (s1_model r)) as [m|] eqn:Em; [|discriminate].
    destruct (bind_text (s1_response r)) as [t|] eqn:Et; [|discriminate].
    cbn. intros Heq. apply (inj Some) in Heq. subst row.
    rewrite (bind_text_Some _ _ Em), (bind_text_Some _ _ Et). reflexivity. }
  assert (H2 : map fst rows2
               = map (fun r => {| sr_row := {| mr_message_id := message;
                                               mr_model := s2_model r; mr_stage := 2 |};
                                  sr_response := s2_ranking r |}) stage2).
  { apply (mapM_map_eq (stage2_rows message (make_label_to_model stage1))); [|exact E2].
    intros r y. unfold stage2_rows.
    destruct (bind_text (s2_model r)) as [m|] eqn:Em; [|discriminate].
    destruct (bind_text (s2_ranking r)) as [t|] eqn:Et; [|discriminate].
    cbn [mbind option_bind].
    destruct (if truthy (s2_rubric r) then _ else _); [|discriminate].
    cbn. intros Heq. apply (inj Some) in Heq. subst y. cbn.
    rewrite (bind_text_Some _ _ Em), (bind_text_Some _ _ Et). reflexivity. }
  assert (H3 : rows3 = match stage3 with
                       | Some f => [ {| sr_row := {| mr_message_id := message;
                                                     mr_model := fr_model f; mr_stage := 3 |};
                                        sr_response := fr_response f |} ]
                       | None => []
                       end).
  { unfold stage3_rows in E3. destruct stage3 as [f|].
    - destruct (bind_text (fr_model f)) as [m|] eqn:Em; [|discriminate].
      destruct (bind_text (fr_response f)) as [t|] eqn:Et; [|discriminate].
      cbn in E3. apply (inj Some) in E3. subst rows3.
      rewrite (bind_text_Some _ _ Em), (bind_text_Some _ _ Et). reflexivity.
    - apply (inj Some) in E3. symmetry. exact E3. }
  rewrite H1, H2, H3. reflexivity.
Qed.

Lemma ordinal_row_owner (message : Z) (label_to_model : gmap text text) (evaluator : text)
    (il : Z * text) (k : stored_ranking) :
  ordinal_row message label_to_model evaluator il = Some k ->
  message_id (rk_row k) = message /\ evaluator_model (rk_row k) = evaluator.
Proof.
  unfold ordinal_row. cbv zeta.
  destruct (bind_text evaluator) as [m|] eqn:Em; [|discriminate]. cbn [mbind option_bind].
  destruct (bind_text (default _ _)) as [subject|]; [|discriminate]. cbn [mbind option_bind].
  intros Heq. apply (inj Some) in Heq. subst k. cbn [rk_row message_id evaluator_model].
  split; [reflexivity | exact (bind_text_Some _ _ Em)].
Qed.

Lemma rubric_row_owner `{P : Python} `{D : Sqlite}
    (message : Z) (label_to_model : gmap text text) (evaluator : text)
    (parsed_ranking : list text) (ev : json) (k : stored_ranking) :
  rubric_row message label_to_model evaluator parsed_ranking ev = Some k ->
  message_id (rk_row k) = message /\ evaluator_model (rk_row k) = evaluator.
Proof.
  intros Hrow. apply rubric_row_inv in Hrow as (fields & _ & Hrow). cbv zeta in Hrow.
  rewrite Hrow. split; reflexivity.
Qed.

(** The rows of the ranking of one evaluation belong to the message and
    to the evaluator. *)
Lemma stage2_rows_owner `{P : Python} `{D : Sqlite}
    (message : Z) (label_to_model : gmap text text) (r : stage2_result)
    (y : stored_response * list stored_ranking) :
  stage2_rows message label_to_model r = Some y ->
  Forall (fun k => message_id (rk_row k) = message
                   /\ evaluator_model (rk_row k) = s2_model r) y.2.
Proof.
  unfold stage2_rows.
  destruct (bind_text (s2_model r)) as [m|]; [|discriminate].
  destruct (bind_text (s2_ranking r)) as [t|]; [|discriminate].
  cbn [mbind option_bind].
  destruct (if truthy (s2_rubric r) then _ else _) as [rows|] eqn:Erows; [|discriminate].
  cbn. intros Heq. apply (inj Some) in Heq. subst y. cbn [snd].
  destruct (truthy (s2_rubric r)).
  - destruct (iterate (s2_rubric r)) as [evs|]; [|discriminate].
    cbn [mbind option_bind] in Erows.
    exact (mapM_Forall_r _ _ _ _ (rubric_row_owner _ _ _ _) Erows).
  - exact (mapM_Forall_r _ _ _ _ (ordinal_row_owner _ _ _) Erows).
Qed.

Lemma Forall_concat {A : Type} (P : A -> Prop) (ls : list (list A)) :
  Forall (Forall P) ls -> Forall P (concat ls).
Proof.
  induction 1 as [|l ls Hl Hls IH]; [constructor|].
  cbn [concat]. apply List.Forall_app. split; assumption.
Qed.

(** The writes and the consistency of the store. *)
Lemma store_ok_writes `{P : Python} `{D : Sqlite}
    (s : store) :
  store_ok s ->
  (forall created_at conversation_id c s',
     create_conversation created_at conversation_id s = Some (c, s') -> store_ok s')
  /\ (forall conversation_id title s',
        update_conversation_title conversation_id title s = Some s' -> store_ok s')
  /\ (forall created_at conversation_id content s',
        add_user_message created_at conversation_id content s = Some s' -> store_ok s')
  /\ (forall created_at conversation_id stage1 stage2 stage3 s',
        add_assistant_message created_at conversation_id stage1 stage2 stage3 s = Some s' ->
        store_ok s'
        /\ ~ In (messages_seq s') (map msg_id (messages_table s))
        /\ In (messages_seq s') (map msg_id (messages_table s'))).
Proof.
  intros Hok.
  assert (Hgrow : forall message (m : message_row) (s' : store),
            next_rowid (messages_seq s) (map msg_id (messages_table s)) = Some message ->
            msg_id m = message ->
            messages_table s' = messages_table s ++ [m] ->
            messages_seq s' = message ->
            Forall (fun r => In (mr_message_id (sr_row r)) (map msg_id (messages_table s')))
              (responses_table s') ->
            Forall (fun k => In (message_id (rk_row k)) (map msg_id (messages_table s')))
              (rankings_table s') ->
            store_ok s').
  { intros message m s' Hnext Hm Htab Hseq Hresp Hrank.
    destruct (next_rowid_fresh s message Hok Hnext) as (Hfresh & _ & Hlt).
    destruct Hok as (Hnd & _).
    unfold store_ok. rewrite Htab, Hseq, map_app. cbn [map].
    split; [|split; [|split]].
    - apply List.NoDup_app; [exact Hnd | constructor; [intros [] | constructor] |].
      intros i Hi [<-|[]]. rewrite Hm in Hi. exact (Hfresh Hi).
    - apply List.Forall_app. split.
      + eapply List.Forall_impl; [|exact Hlt]. cbn. intros; lia.
      + repeat constructor. lia.
    - rewrite Htab, map_app in Hresp. exact Hresp.
    - rewrite Htab, map_app in Hrank. exact Hrank. }
  split; [|split; [|split]].
  - intros created_at conversation_id c s'. unfold create_conversation.
    destruct (bind_text conversation_id); [|discriminate]. cbn [mbind option_bind].
    destruct (existsb _ _); [discriminate|].
    intros Heq. apply (inj Some) in Heq. injection Heq as _ <-. exact Hok.
  - intros conversation_id title s'. unfold update_conversation_title.
    destruct (bind_text title); [|discriminate].
    destruct (bind_text conversation_id); [|discriminate]. cbn [mbind option_bind].
    intros Heq. apply (inj Some) in Heq. subst s'. exact Hok.
  - intros created_at conversation_id content s'. unfold add_user_message.
    destruct (bind_text conversation_id) as [cid|]; [|discriminate].
    destruct (bind_text content) as [t|]; [|discriminate].
    destruct (next_rowid _ _) as [message|] eqn:Hnext; [|discriminate].
    cbn [mbind option_bind]. intros Heq. apply (inj Some) in Heq. subst s'.
    destruct Hok as (Hnd & Hseq & Hresp & Hrank) eqn:Eok.
    eapply (Hgrow message); [reflexivity | | reflexivity | reflexivity | |];
      cbn [messages_table responses_table rankings_table msg_id]; [reflexivity | |].
    + eapply List.Forall_impl; [|exact Hresp]. cbn. intros r Hr.
      rewrite map_app. apply in_app_iff. left. exact Hr.
    + eapply List.Forall_impl; [|exact Hrank]. cbn. intros r Hr.
      rewrite map_app. apply in_app_iff. left. exact Hr.
  - intros created_at conversation_id stage1 stage2 stage3 s' Hadd.
    destruct (add_assistant_message_rows _ _ _ _ _ _ _ Hadd)
      as (message & rows2 & Hnext & Hrows2 & _ & Htab & Hseq & Hresp & Hrank).
    destruct (next_rowid_fresh s message Hok Hnext) as (Hfresh & _ & _).
    assert (Hnew : In message (map msg_id (messages_table s'))).
    { rewrite Htab, map_app. apply in_app_iff. right. left. reflexivity. }
    split; [|split; [rewrite Hseq; exact Hfresh | rewrite Hseq; exact Hnew]].
    destruct Hok as (Hnd & Hle & Hresp0 & Hrank0) eqn:Eok.
    eapply (Hgrow message); [exact Hnext | | exact Htab | exact Hseq | |]; [reflexivity | |].
    + rewrite Hresp. apply List.Forall_app. split.
      * eapply List.Forall_impl; [|exact Hresp0]. cbn. intros r Hr.
        rewrite Htab, map_app. apply in_app_iff. left. exact Hr.
      * apply List.Forall_app. split; [|apply List.Forall_app; split].
        -- apply List.Forall_forall. intros r Hr. apply in_map_iff in Hr as (x & <- & _).
           exact Hnew.
        -- apply List.Forall_forall. intros r Hr. apply in_map_iff in Hr as (x & <- & _).
           exact Hnew.
        -- destruct stage3; repeat constructor. exact Hnew.
    + rewrite Hrank. apply List.Forall_app. split.
      * eapply List.Forall_impl; [|exact Hrank0]. cbn. intros r Hr.
        rewrite Htab, map_app. apply in_app_iff. left. exact Hr.
      * apply Forall_concat. apply List.Forall_map.
        apply (mapM_Forall_r (stage2_rows message (make_label_to_model stage1)) _ stage2);
          [|exact Hrows2].
        intros r y Hy.
        eapply List.Forall_impl; [|exact (stage2_rows_owner _ _ _ _ Hy)].
        cbn. intros k [Hk _]. rewrite Hk. exact Hnew.
Qed.

(** X20.  Every write keeps the store consistent: the ids of the
    messages stay distinct and not above the sequence, and every row of
    a response or of a ranking belongs to a message of the table.  A
    round is written under a message id that no message had before. *)
Theorem writes_keep_the_store_consistent `{P : Python} `{D : Sqlite}
    (s : store) :
  store_ok s ->
  (forall created_at conversation_id c s',
     create_conversation created_at conversation_id s = Some (c, s') -> store_ok s')
  /\ (forall conversation_id title s',
        update_conversation_title conversation_id title s = Some s' -> store_ok s')
  /\ (forall created_at conversation_id content s',
        add_user_message created_at conversation_id content s = Some s' -> store_ok s')
  /\ (forall created_at conversation_id stage1 stage2 stage3 s',
        add_assistant_message created_at conversation_id stage1 stage2 stage3 s = Some s' ->
        store_ok s'
        /\ ~ In (messages_seq s') (map msg_id (messages_table s))
        /\ In (messages_seq s') (map msg_id (messages_table s'))).
Proof. exact (store_ok_writes s). Qed.

Lemma writes_keep_the_store_consistent_witness :
  exists s',
    add_assistant_message (P := sample_python) (D := sample_sqlite)
      (str "2025-01-01T00:00:00") (str "c1") sample_stage1
      [self_first_evaluation] (Some sample_synthesis) empty_store = Some s'
    /\ store_ok s'.
Proof.
  eexists. split; [vm_compute; reflexivity|].
  assert (Hok : store_ok empty_store).
  { split; [constructor|]. split; [constructor|]. split; constructor. }
  destruct (writes_keep_the_store_consistent (P := sample_python) (D := sample_sqlite)
              empty_store Hok) as (_ & _ & _ & Hadd).
  exact (proj1 (Hadd (str "2025-01-01T00:00:00") (str "c1") sample_stage1
                  [self_first_evaluation] (Some sample_synthesis) _ eq_refl)).
Defined.


(** ** Reading a round back *)

Lemma filter_none {A : Type} (P : A -> Prop) `{forall x, Decision (P x)} (l : list A) :
  Forall (fun x => ~ P x) l -> filter P l = [].
Proof.
  induction 1 as [|x l Hx Hl IH]; [reflexivity|].
  rewrite filter_cons. destruct (decide (P x)); [contradiction | exact IH].
Qed.

Lemma filter_all {A : Type} (P : A -> Prop) `{forall x, Decision (P x)} (l : list A) :
  Forall P l -> filter P l = l.
Proof.
  induction 1 as [|x l Hx Hl IH]; [reflexivity|].
  rewrite filter_cons. destruct (decide (P x)); [rewrite IH; reflexivity | contradiction].
Qed.

(** The rows of the new message, by stage. *)
Lemma new_round_of_stage (s s' : store) (message : Z) (stage1 : list stage1_result)
    (stage2 : list stage2_result) (stage3 : option final_result) :
  let of_stage (n : Z) :=
    filter (fun r => mr_message_id (sr_row r) = message /\ mr_stage (sr_row r) = n)
      (responses_table s') in
  let rows1 :=
    map (fun r => {| sr_row := {| mr_message_id := message; mr_model := s1_model r;
                                  mr_stage := 1 |};
                     sr_response := s1_response r |}) stage1 in
  let rows2 :=
    map (fun r => {| sr_row := {| mr_message_id := message; mr_model := s2_model r;
                                  mr_stage := 2 |};
                     sr_response := s2_ranking r |}) stage2 in
  let rows3 :=
    match stage3 with
    | Some f => [ {| sr_row := {| mr_message_id := message; mr_model := fr_model f;
                                  mr_stage := 3 |};
                     sr_response := fr_response f |} ]
    | None => []
    end in
  Forall (fun r => mr_message_id (sr_row r) <> message) (responses_table s) ->
  responses_table s' = responses_table s ++ rows1 ++ rows2 ++ rows3 ->
  of_stage 1%Z = rows1 /\ of_stage 2%Z = rows2 /\ of_stage 3%Z = rows3.
Proof.
  intros of_stage rows1 rows2 rows3 Hold Hresp.
  assert (H1 : Forall (fun r => mr_message_id (sr_row r) = message
                                /\ mr_stage (sr_row r) = 1%Z) rows1).
  { apply List.Forall_forall. intros r Hr. apply in_map_iff in Hr as (x & <- & _).
    split; reflexivity. }
  assert (H2 : Forall (fun r => mr_message_id (sr_row r) = message
                                /\ mr_stage (sr_row r) = 2%Z) rows2).
  { apply List.Forall_forall. intros r Hr. apply in_map_iff in Hr as (x & <- & _).
    split; reflexivity. }
  assert (H3 : Forall (fun r => mr_message_id (sr_row r) = message
                                /\ mr_stage (sr_row r) = 3%Z) rows3).
  { subst rows3. destruct stage3; repeat constructor. }
  assert (Hnone : forall (n k : Z) (rows : list stored_response),
            n <> k ->
            Forall (fun r => mr_message_id (sr_row r) = message
                             /\ mr_stage (sr_row r) = k) rows ->
            filter (fun r => mr_message_id (sr_row r) = message /\ mr_stage (sr_row r) = n)
              rows = []).
  { intros n k rows Hne Hrows. apply filter_none.
    eapply List.Forall_impl; [|exact Hrows]. cbn. intros r [_ Hk] [_ Hn]. congruence. }
  assert (Hold' : forall n,
            filter (fun r => mr_message_id (sr_row r) = message /\ mr_stage (sr_row r) = n)
              (responses_table s) = []).
  { intros n. apply filter_none.
    eapply List.Forall_impl; [|exact Hold]. cbn. tauto. }
  unfold of_stage. rewrite Hresp, !filter_app, !Hold'. cbn [app].
  split; [|split].
  - rewrite (filter_all _ rows1 H1), (Hnone 1%Z 2%Z rows2), (Hnone 1%Z 3%Z rows3);
      [apply app_nil_r | discriminate | exact H3 | discriminate | exact H2].
  - rewrite (Hnone 2%Z 1%Z rows1), (filter_all _ rows2 H2), (Hnone 2%Z 3%Z rows3);
      [apply app_nil_r | discriminate | exact H3 | discriminate | exact H1].
  - rewrite (Hnone 3%Z 1%Z rows1), (Hnone 3%Z 2%Z rows2), (filter_all _ rows3 H3);
      [reflexivity | discriminate | exact H2 | discriminate | exact H1].
Qed.

(** The message of a round that was just written, read back. *)
Lemma read_message_new_round `{P : Python} `{D : Sqlite}
    (created_at conversation_id : text)
    (stage1 : list stage1_result) (stage2 : list stage2_result)
    (stage3 : option final_result) (s s' : store) (message : Z) :
  store_ok s ->
  add_assistant_message created_at conversation_id stage1 stage2 stage3 s = Some s' ->
  next_rowid (messages_seq s) (map msg_id (messages_table s)) = Some message ->
  read_message s' {| msg_id := message; msg_conversation_id := conversation_id;
                     msg_role := str "assistant"; msg_content := [];
                     msg_created_at := created_at |}
  = AssistantMessage stage1
      (map (fun r => read_evaluation s' message (make_model_to_label stage1)
                       {| sr_row := {| mr_message_id := message; mr_model := s2_model r;
                                       mr_stage := 2 |};
                          sr_response := s2_ranking r |}) stage2)
      (match stage3 with
       | Some f => Some {| v3_model := fr_model f; v3_response := fr_response f |}
       | None => None
       end).
Proof.
  intros Hok Hadd Hnext.
  destruct (add_assistant_message_rows _ _ _ _ _ _ _ Hadd)
    as (message' & rows2 & Hnext' & _ & _ & _ & _ & Hresp & _).
  rewrite Hnext in Hnext'. apply (inj Some) in Hnext'. subst message'.
  destruct (next_rowid_fresh s message Hok Hnext) as (Hfresh & _ & _).
  assert (Hold : Forall (fun r => mr_message_id (sr_row r) <> message) (responses_table s)).
  { destruct Hok as (_ & _ & Hrefs & _).
    eapply List.Forall_impl; [|exact Hrefs]. cbn. intros r Hr Heq. apply Hfresh.
    rewrite <- Heq. exact Hr. }
  unfold read_message. cbn [msg_role msg_id].
  destruct (decide (str "assistant" = str "user")) as [Habs|_];
    [vm_compute in Habs; discriminate|].
  destruct (new_round_of_stage s s' message stage1 stage2 stage3 Hold Hresp)
    as (E1 & E2 & E3).
  cbv zeta in E1, E2, E3. rewrite E1, E2, E3.
  assert (H1 : map (fun r : stored_response =>
                      {| s1_model := mr_model (sr_row r); s1_response := sr_response r |})
                 (map (fun r => {| sr_row := {| mr_message_id := message;
                                                mr_model := s1_model r; mr_stage := 1 |};
                                   sr_response := s1_response r |}) stage1)
               = stage1).
  { rewrite map_map. rewrite <- (map_id stage1) at 2. apply map_ext.
    intros [m t]. reflexivity. }
  rewrite H1, map_map. destruct stage3; reflexivity.
Qed.


Lemma read_evaluation_header (s : store) (message : Z) (model_to_label : gmap text text)
    (r : stored_response) :
  v2_model (read_evaluation s message model_to_label r) = mr_model (sr_row r)
  /\ v2_ranking (read_evaluation s message model_to_label r) = sr_response r.
Proof.
  unfold read_evaluation. destruct (fold_left _ _ _) as [parsed rubric]. split; reflexivity.
Qed.

Lemma add_assistant_message_binds `{P : Python} `{D : Sqlite}
    (created_at conversation_id : text)
    (stage1 : list stage1_result) (stage2 : list stage2_result)
    (stage3 : option final_result) (s s' : store) :
  add_assistant_message created_at conversation_id stage1 stage2 stage3 s = Some s' ->
  bind_text conversation_id = Some conversation_id.
Proof.
  unfold add_assistant_message.
  destruct (bind_text conversation_id) as [c|] eqn:E; [|discriminate].
  intros _. rewrite (bind_text_Some _ _ E). reflexivity.
Qed.

(** The conversation after a round was written. *)
Lemma get_conversation_after_round `{P : Python} `{D : Sqlite}
    (created_at conversation_id : text)
    (stage1 : list stage1_result) (stage2 : list stage2_result)
    (stage3 : option final_result) (s s' : store) (c : conversation_row) :
  store_ok s ->
  In c (conversations_table s) ->
  conv_id c = conversation_id ->
  add_assistant_message created_at conversation_id stage1 stage2 stage3 s = Some s' ->
  exists conv message,
    next_rowid (messages_seq s) (map msg_id (messages_table s)) = Some message
    /\ get_conversation conversation_id s' = Some (Some conv)
    /\ c_id conv = conversation_id
    /\ In (AssistantMessage stage1
             (map (fun r => read_evaluation s' message (make_model_to_label stage1)
                              {| sr_row := {| mr_message_id := message;
                                              mr_model := s2_model r; mr_stage := 2 |};
                                 sr_response := s2_ranking r |}) stage2)
             (match stage3 with
              | Some f => Some {| v3_model := fr_model f; v3_response := fr_response f |}
              | None => None
              end))
          (c_messages conv)
    /\ forall conv0,
         get_conversation conversation_id s = Some (Some conv0) ->
         length (c_messages conv) = S (length (c_messages conv0))
         /\ c_title conv = c_title conv0
         /\ c_created_at conv = c_created_at conv0.
Proof.
  intros Hok Hc Hcid Hadd.
  pose proof (add_assistant_message_binds _ _ _ _ _ _ _ Hadd) as Hbind.
  destruct (add_assistant_message_rows _ _ _ _ _ _ _ Hadd)
    as (message & rows2 & Hnext & _ & Hconv & Htab & _ & _ & _).
  pose proof (read_message_new_round _ _ _ _ _ _ _ _ Hok Hadd Hnext) as Hread.
  set (new := {| msg_id := message; msg_conversation_id := conversation_id;
                 msg_role := str "assistant"; msg_content := [];
                 msg_created_at := created_at |}) in *.
  destruct (List.find (fun c0 => bool_decide (conv_id c0 = conversation_id))
              (conversations_table s)) as [conv_row|] eqn:Efind.
  2:{ pose proof (List.find_none _ _ Efind c Hc) as Hfalse. cbn beta in Hfalse.
      rewrite bool_decide_eq_false in Hfalse. contradiction. }
  pose proof (List.find_some _ _ Efind) as [_ Hrow]. cbn beta in Hrow.
  apply bool_decide_eq_true in Hrow.
  set (rows := fun st : store =>
                 stable_sort (fun x y => message_ltb y x)
                   (filter (fun m => msg_conversation_id m = conversation_id)
                      (messages_table st))).
  assert (Hget : forall st,
            conversations_table st = conversations_table s ->
            get_conversation conversation_id st
            = Some (Some {| c_id := conv_id conv_row;
                            c_created_at := conv_created_at conv_row;
                            c_title := conv_title conv_row;
                            c_messages := map (read_message st) (rows st) |})).
  { intros st Hst. unfold get_conversation. rewrite Hbind. cbn [mbind option_bind].
    rewrite Hst, Efind. reflexivity. }
  eexists _, message. split; [exact Hnext|]. split; [apply (Hget s' Hconv)|].
  cbn [c_id c_messages c_title c_created_at].
  split; [exact Hrow|]. split.
  - rewrite <- Hread. apply in_map. unfold rows. apply stable_sort_In.
    apply list_elem_of_In, list_elem_of_filter. split; [reflexivity|].
    apply list_elem_of_In. rewrite Htab. apply in_app_iff. right. left. reflexivity.
  - intros conv0 Hget0. rewrite (Hget s eq_refl) in Hget0.
    apply (inj Some) in Hget0. apply (inj Some) in Hget0. subst conv0.
    cbn [c_messages c_title c_created_at]. split; [|split; reflexivity].
    rewrite !length_map. unfold rows.
    rewrite !(Permutation_length (stable_sort_perm _ _)).
    rewrite Htab, filter_app, length_app, filter_cons, filter_nil.
    destruct (decide (msg_conversation_id new = conversation_id)) as [_|Hne];
      [cbn [length]; lia | destruct Hne; reflexivity].
Qed.

(** X21.  A round that was persisted in a consistent store is read
    back: [get_conversation] finds the conversation, which has one more
    message than before, under the same title and date, and among its
    messages is an assistant message with the Round-1 results as they
    were given, one evaluation for each Round-2 output, in order and
    with its model and its raw reply, and the model and the response of
    the synthesis. *)
Theorem persisted_round_is_read_back `{P : Python} `{D : Sqlite}
    (created_at conversation_id : text)
    (stage1 : list stage1_result) (stage2 : list stage2_result)
    (stage3 : option final_result) (s s' : store) (c : conversation_row) :
  store_ok s ->
  In c (conversations_table s) ->
  conv_id c = conversation_id ->
  add_assistant_message created_at conversation_id stage1 stage2 stage3 s = Some s' ->
  exists conv stage2',
    get_conversation conversation_id s' = Some (Some conv)
    /\ c_id conv = conversation_id
    /\ In (AssistantMessage stage1 stage2'
             (match stage3 with
              | Some f => Some {| v3_model := fr_model f; v3_response := fr_response f |}
              | None => None
              end))
          (c_messages conv)
    /\ map v2_model stage2' = map s2_model stage2
    /\ map v2_ranking stage2' = map s2_ranking stage2
    /\ forall conv0,
         get_conversation conversation_id s = Some (Some conv0) ->
         length (c_messages conv) = S (length (c_messages conv0))
         /\ c_title conv = c_title conv0
         /\ c_created_at conv = c_created_at conv0.
Proof.
  intros Hok Hc Hcid Hadd.
  destruct (get_conversation_after_round _ _ _ _ _ _ _ _ Hok Hc Hcid Hadd)
    as (conv & message & _ & Hget & Hid & Hin & Hbefore).
  eexists conv, _. split; [exact Hget|]. split; [exact Hid|]. split; [exact Hin|].
  split; [|split; [|exact Hbefore]].
  - rewrite map_map. apply map_ext. intros r. apply read_evaluation_header.
  - rewrite map_map. apply map_ext. intros r. apply read_evaluation_header.
Qed.

Lemma persisted_round_is_read_back_witness :
  exists s0 s1 conv,
    create_conversation (str "2025-01-01T00:00:00") (str "c1") empty_store
    = Some ({| c_id := str "c1"; c_created_at := str "2025-01-01T00:00:00";
               c_title := str "New Conversation"; c_messages := [] |}, s0)
    /\ add_assistant_message (P := sample_python) (D := sample_sqlite)
         (str "2025-01-01T00:00:01") (str "c1") sample_stage1
         [self_first_evaluation] (Some sample_synthesis) s0 = Some s1
    /\ get_conversation (str "c1") s1 = Some (Some conv)
    /\ exists stage2',
         In (AssistantMessage sample_stage1 stage2'
               (Some {| v3_model := CHAIRMAN_MODEL; v3_response := str "Both" |}))
            (c_messages conv).
Proof.
  eexists. eexists.
  assert (Hok : store_ok
                  {| conversations_table :=
                       [ {| conv_id := str "c1"; conv_title := NEW_CONVERSATION;
                            conv_created_at := str "2025-01-01T00:00:00";
                            conv_query_type := GENERAL |} ];
                     messages_table := []; messages_seq := 0;
                     responses_table := []; rankings_table := [] |}).
  { split; [constructor|]. split; [constructor|]. split; constructor. }
  destruct (persisted_round_is_read_back (P := sample_python) (D := sample_sqlite)
              (str "2025-01-01T00:00:01") (str "c1") sample_stage1
              [self_first_evaluation] (Some sample_synthesis) _ _ _ Hok
              (or_introl eq_refl) eq_refl eq_refl)
    as (conv & stage2' & Hget & _ & Hin & _).
  exists conv. split; [reflexivity|]. split; [reflexivity|]. split; [exact Hget|].
  exists stage2'. exact Hin.
Defined.


(** ** Reading an ordinal ranking back *)

Lemma make_model_to_label_snoc (stage1 : list stage1_result) (r : stage1_result) :
  make_model_to_label (stage1 ++ [r])
  = <[s1_model r := RESPONSE_ ++ [N.of_nat (65 + length stage1)]]>
      (make_model_to_label stage1).
Proof.
  unfold make_model_to_label.
  rewrite length_app. cbn [length]. rewrite Nat.add_1_r, labels_snoc.
  rewrite zip_with_app by (rewrite labels_length; reflexivity).
  cbn [zip_with]. rewrite fold_left_app. reflexivity.
Qed.

(** When no model answers twice, the label of a model is the label of
    its result. *)
Lemma make_model_to_label_lookup (stage1 : list stage1_result) (i : nat) (r : stage1_result) :
  List.NoDup (map s1_model stage1) ->
  stage1 !! i = Some r ->
  make_model_to_label stage1 !! s1_model r = Some (RESPONSE_ ++ [N.of_nat (65 + i)]).
Proof.
  revert i r. induction stage1 as [|x rs IH] using rev_ind; intros i r Hnd Hi;
    [discriminate|].
  rewrite make_model_to_label_snoc.
  rewrite map_app in Hnd. cbn [map] in Hnd.
  pose proof (List.NoDup_app_remove_r _ _ Hnd) as Hnd'.
  destruct (decide (i < length rs)) as [Hlt|Hge].
  - rewrite lookup_app_l in Hi by exact Hlt.
    assert (Hne : s1_model x <> s1_model r).
    { intros Heq. apply List.NoDup_remove_2 in Hnd. apply Hnd.
      rewrite app_nil_r, Heq. apply in_map. apply list_elem_of_In.
      apply (list_elem_of_lookup_2 _ _ _ Hi). }
    rewrite lookup_insert_ne by exact Hne. apply IH; assumption.
  - assert (Hlen : i = length rs).
    { apply lookup_lt_Some in Hi. rewrite length_app in Hi. cbn in Hi. lia. }
    subst i. rewrite list_lookup_middle in Hi by reflexivity.
    apply (inj Some) in Hi. subst x. rewrite lookup_insert_eq. reflexivity.
Qed.

(** A label of the map is read back from the model it names. *)
Lemma label_read_back (stage1 : list stage1_result) (lab m : text) :
  List.NoDup (map s1_model stage1) ->
  make_label_to_model stage1 !! lab = Some m ->
  make_model_to_label stage1 !! m = Some lab.
Proof.
  intros Hnd Hl.
  destruct (make_label_to_model_keys _ _ _ Hl) as (i & Hi & ->).
  rewrite make_label_to_model_lookup in Hl.
  destruct (stage1 !! i) as [r|] eqn:Er; [|discriminate].
  cbn in Hl. apply (inj Some) in Hl. subst m.
  apply make_model_to_label_lookup; assumption.
Qed.

Lemma stable_sort_sorted_id {A : Type} (pass : A -> A -> bool) (l : list A) :
  StronglySorted (fun x y => pass x y = false) l -> stable_sort pass l = l.
Proof.
  induction 1 as [|x l Hl IH Hx]; [reflexivity|].
  cbn [stable_sort foldr]. fold (stable_sort pass l). rewrite IH.
  destruct Hx as [|y l' Hy _]; [reflexivity|]. cbn [insert_sorted]. rewrite Hy. reflexivity.
Qed.

Lemma ordinal_rows_written `{P : Python} `{D : Sqlite}
    (message : Z) (label_to_model : gmap text text)
    (r : stage2_result) (y : stored_response * list stored_ranking) :
  truthy (s2_rubric r) = false ->
  stage2_rows message label_to_model r = Some y ->
  y.2 = map (ordinal_row_of message label_to_model (s2_model r))
            (enumerate_from 0 (s2_parsed_ranking r)).
Proof.
  intros Hrubric. unfold stage2_rows.
  destruct (bind_text (s2_model r)) as [m|] eqn:Em; [|discriminate].
  destruct (bind_text (s2_ranking r)) as [t|]; [|discriminate].
  cbn [mbind option_bind].
  assert (Hrows : forall rows,
            mapM (ordinal_row message label_to_model (s2_model r))
              (enumerate_from 0 (s2_parsed_ranking r)) = Some rows ->
            rows = map (ordinal_row_of message label_to_model (s2_model r))
                       (enumerate_from 0 (s2_parsed_ranking r))).
  { intros rows Hm. rewrite <- (map_id rows).
    apply (mapM_map_eq (ordinal_row message label_to_model (s2_model r))); [|exact Hm].
    intros il k. unfold ordinal_row. cbv zeta. rewrite Em. cbn [mbind option_bind].
    destruct (bind_text (default _ _)) as [subject|] eqn:Es; [|discriminate].
    cbn [mbind option_bind]. intros Heq. apply (inj Some) in Heq. subst k.
    unfold ordinal_row_of.
    rewrite (bind_text_Some _ _ Em), (bind_text_Some _ _ Es). reflexivity. }
  rewrite Hrubric.
  destruct (mapM _ _) as [rows|] eqn:Erows; [|discriminate].
  cbn [mbind option_bind]. intros Heq. apply (inj Some) in Heq. subst y. cbn [snd].
  apply Hrows. reflexivity.
Qed.

(** The rows of one evaluator among the rows of the round. *)
Lemma rows_of_one_evaluator `{P : Python} `{D : Sqlite}
    (message : Z) (label_to_model : gmap text text)
    (stage2 : list stage2_result) (rows2 : list (stored_response * list stored_ranking))
    (r : stage2_result) (y : stored_response * list stored_ranking) :
  mapM (stage2_rows message label_to_model) stage2 = Some rows2 ->
  List.NoDup (map s2_model stage2) ->
  In r stage2 ->
  stage2_rows message label_to_model r = Some y ->
  filter (fun k => message_id (rk_row k) = message
                   /\ evaluator_model (rk_row k) = s2_model r)
    (concat (map snd rows2))
  = y.2.
Proof.
  intros Hm. apply mapM_Some_1 in Hm.
  assert (Hother : forall (l : list stage2_result) k,
            List.Forall2 (fun r0 y0 => stage2_rows message label_to_model r0 = Some y0) l k ->
            ~ In (s2_model r) (map s2_model l) ->
            filter (fun k0 => message_id (rk_row k0) = message
                              /\ evaluator_model (rk_row k0) = s2_model r)
              (concat (map snd k)) = []).
  { intros l k Hall. induction Hall as [|r0 y0 l k H0 Hall IH]; intros Hnin; [reflexivity|].
    cbn [map concat]. rewrite filter_app, IH by (intros Hin; apply Hnin; right; exact Hin).
    rewrite app_nil_r. apply filter_none.
    eapply List.Forall_impl; [|exact (stage2_rows_owner _ _ _ _ H0)].
    cbn. intros k0 [_ He] [_ He']. apply Hnin. left. congruence. }
  induction Hm as [|r0 y0 l k H0 Hall IH]; intros Hnd Hin Hy; [destruct Hin|].
  cbn [map] in Hnd. apply List.NoDup_cons_iff in Hnd as [Hnin Hnd].
  cbn [map concat]. rewrite filter_app.
  destruct Hin as [->|Hin].
  - rewrite H0 in Hy. apply (inj Some) in Hy. subst y0.
    rewrite (Hother l k Hall Hnin), app_nil_r.
    apply filter_all, (stage2_rows_owner _ _ _ _ H0).
  - rewrite (IH Hnd Hin Hy).
    rewrite filter_none; [reflexivity|].
    eapply List.Forall_impl; [|exact (stage2_rows_owner _ _ _ _ H0)].
    cbn. intros k0 [_ He] [_ He']. apply Hnin. rewrite <- He, He'.
    apply in_map. exact Hin.
Qed.

(** Ordinal rows come back in their order, with their labels. *)
Lemma read_ordinal_rows (message : Z) (stage1 : list stage1_result) (evaluator : text)
    (labs : list text) :
  List.NoDup (map s1_model stage1) ->
  (forall lab, In lab labs -> is_Some (make_label_to_model stage1 !! lab)) ->
  forall (start : Z) (acc : list text),
    (0 <= start)%Z -> (start + Z.of_nat (length labs) < 99)%Z ->
    let rows := map (ordinal_row_of message (make_label_to_model stage1) evaluator)
                    (enumerate_from start labs) in
    stable_sort (fun x y => (rank_position (rk_row y) <? rank_position (rk_row x))%Z) rows
    = rows
    /\ Forall (fun k => (start < rank_position (rk_row k))%Z) rows
    /\ fold_left (read_rank (make_model_to_label stage1)) rows (acc, [])
       = (acc ++ labs, []).
Proof.
  intros Hnd. induction labs as [|lab labs IH]; intros Hknown start acc Hstart Hlen; cbn zeta.
  - cbn. rewrite app_nil_r. split; [reflexivity|]. split; [constructor | reflexivity].
  - cbn [enumerate_from map length] in *.
    destruct (IH (fun l Hl => Hknown l (or_intror Hl)) (start + 1)%Z (acc ++ [lab]))
      as (Hsort & Hpos & Hfold); [lia | lia |].
    cbn zeta in Hsort, Hpos, Hfold.
    split; [|split].
    + apply stable_sort_sorted_id. constructor.
      * rewrite <- Hsort. apply (stable_sort_sorted _ (fun _ => True)).
        -- intros x y _ _ Hxy. apply Z.ltb_lt in Hxy. apply Z.ltb_ge. lia.
        -- intros x y z _ _ _ H1 H2. apply Z.ltb_ge in H1, H2. apply Z.ltb_ge. lia.
        -- apply List.Forall_forall. auto.
      * eapply List.Forall_impl; [|exact Hpos]. cbn. intros k Hk. apply Z.ltb_ge. lia.
    + constructor; [cbn; lia|].
      eapply List.Forall_impl; [|exact Hpos]. cbn. intros k Hk. lia.
    + cbn [fold_left]. unfold read_rank at 2. cbn [ordinal_row_of rk_row subject_model
        rank_position accuracy_score fst snd].
      destruct (decide ((start + 1)%Z = 99%Z)) as [Habs|_]; [lia|].
      destruct (Hknown lab (or_introl eq_refl)) as [m Hm]. rewrite Hm.
      cbn [default from_option id].
      rewrite (label_read_back stage1 lab m Hnd Hm). cbn [default from_option id].
      rewrite Hfold, <- app_assoc. reflexivity.
Qed.

(** An evaluation without a rubric, read back after the round. *)
Lemma read_evaluation_ordinal `{P : Python} `{D : Sqlite}
    (created_at conversation_id : text)
    (stage1 : list stage1_result) (stage2 : list stage2_result)
    (stage3 : option final_result) (s s' : store) (message : Z) (r : stage2_result) :
  store_ok s ->
  add_assistant_message created_at conversation_id stage1 stage2 stage3 s = Some s' ->
  next_rowid (messages_seq s) (map msg_id (messages_table s)) = Some message ->
  List.NoDup (map s1_model stage1) ->
  List.NoDup (map s2_model stage2) ->
  In r stage2 ->
  truthy (s2_rubric r) = false ->
  (forall lab, In lab (s2_parsed_ranking r) -> is_Some (make_label_to_model stage1 !! lab)) ->
  length (s2_parsed_ranking r) < 99 ->
  read_evaluation s' message (make_model_to_label stage1)
    {| sr_row := {| mr_message_id := message; mr_model := s2_model r; mr_stage := 2 |};
       sr_response := s2_ranking r |}
  = {| v2_model := s2_model r;
       v2_ranking := s2_ranking r;
       v2_parsed_ranking := match s2_parsed_ranking r with
                            | [] => None
                            | _ :: _ => Some (s2_parsed_ranking r)
                            end;
       v2_rubric := None |}.
Proof.
  intros Hok Hadd Hnext Hnd1 Hnd2 Hr Hrubric Hknown Hlen.
  destruct (add_assistant_message_rows _ _ _ _ _ _ _ Hadd)
    as (message' & rows2 & Hnext' & Hrows2 & _ & _ & _ & _ & Hrank).
  rewrite Hnext in Hnext'. apply (inj Some) in Hnext'. subst message'.
  destruct (next_rowid_fresh s message Hok Hnext) as (Hfresh & _ & _).
  destruct (mapM_In _ _ _ r Hrows2 Hr) as (y & Hy & _).
  unfold read_evaluation. cbn [sr_row mr_model sr_response].
  rewrite Hrank, filter_app.
  rewrite (filter_none _ (rankings_table s)).
  2:{ destruct Hok as (_ & _ & _ & Hrefs).
      eapply List.Forall_impl; [|exact Hrefs]. cbn. intros k Hk [Heq _]. apply Hfresh.
      rewrite <- Heq. exact Hk. }
  cbn [app].
  rewrite (rows_of_one_evaluator _ _ _ _ _ _ Hrows2 Hnd2 Hr Hy).
  rewrite (ordinal_rows_written _ _ _ _ Hrubric Hy).
  destruct (read_ordinal_rows message stage1 (s2_model r) (s2_parsed_ranking r)
              Hnd1 Hknown 0%Z []) as (Hsort & _ & Hfold); [lia | lia |].
  cbn zeta in Hsort, Hfold. rewrite Hsort, Hfold. cbn [app]. reflexivity.
Qed.


(** X22.  An ordinal ranking is read back as it was persisted.  When no
    model answered twice in Round 1 and no model evaluated twice in
    Round 2, an evaluation without a rubric (its rubric is [None], or
    another value that is false as a condition) whose ranking names
    known labels only, fewer than 99 of them, is, in the assistant message
    that [get_conversation] returns, an evaluation of the same model
    with the same raw reply, the same parsed ranking (the key is missing
    when it is empty) and no rubric. *)
Theorem ordinal_ranking_is_read_back `{P : Python} `{D : Sqlite}
    (created_at conversation_id : text)
    (stage1 : list stage1_result) (stage2 : list stage2_result)
    (stage3 : option final_result) (s s' : store) (c : conversation_row)
    (r : stage2_result) :
  store_ok s ->
  In c (conversations_table s) ->
  conv_id c = conversation_id ->
  add_assistant_message created_at conversation_id stage1 stage2 stage3 s = Some s' ->
  List.NoDup (map s1_model stage1) ->
  List.NoDup (map s2_model stage2) ->
  In r stage2 ->
  truthy (s2_rubric r) = false ->
  (forall label, In label (s2_parsed_ranking r) ->
     is_Some (make_label_to_model stage1 !! label)) ->
  length (s2_parsed_ranking r) < 99 ->
  exists conv stage2' stage3',
    get_conversation conversation_id s' = Some (Some conv)
    /\ In (AssistantMessage stage1 stage2' stage3') (c_messages conv)
    /\ In {| v2_model := s2_model r;
             v2_ranking := s2_ranking r;
             v2_parsed_ranking := match s2_parsed_ranking r with
                                  | [] => None
                                  | _ :: _ => Some (s2_parsed_ranking r)
                                  end;
             v2_rubric := None |} stage2'.
Proof.
  intros Hok Hc Hcid Hadd Hnd1 Hnd2 Hr Hrubric Hknown Hlen.
  destruct (get_conversation_after_round _ _ _ _ _ _ _ _ Hok Hc Hcid Hadd)
    as (conv & message & Hnext & Hget & _ & Hin & _).
  eexists conv, _, _. split; [exact Hget|]. split; [exact Hin|].
  rewrite <- (read_evaluation_ordinal _ _ _ _ _ _ _ message r Hok Hadd Hnext Hnd1 Hnd2 Hr
                Hrubric Hknown Hlen).
  apply (in_map (fun r0 => read_evaluation s' message (make_model_to_label stage1)
                             {| sr_row := {| mr_message_id := message;
                                             mr_model := s2_model r0; mr_stage := 2 |};
                                sr_response := s2_ranking r0 |})).
  exact Hr.
Qed.

Lemma ordinal_ranking_is_read_back_witness :
  exists s0 s1 conv stage2' stage3',
    create_conversation (str "2025-01-01T00:00:00") (str "c1") empty_store
    = Some ({| c_id := str "c1"; c_created_at := str "2025-01-01T00:00:00";
               c_title := str "New Conversation"; c_messages := [] |}, s0)
    /\ add_assistant_message (P := sample_python) (D := sample_sqlite)
         (str "2025-01-01T00:00:01") (str "c1") sample_stage1
         [self_first_evaluation] (Some sample_synthesis) s0 = Some s1
    /\ get_conversation (str "c1") s1 = Some (Some conv)
    /\ In (AssistantMessage sample_stage1 stage2' stage3') (c_messages conv)
    /\ In {| v2_model := str "model_1";
             v2_ranking := s2_ranking self_first_evaluation;
             v2_parsed_ranking := Some [str "Response A"; str "Response B"];
             v2_rubric := None |} stage2'.
Proof.
  eexists. eexists.
  assert (Hok : store_ok
                  {| conversations_table :=
                       [ {| conv_id := str "c1"; conv_title := NEW_CONVERSATION;
                            conv_created_at := str "2025-01-01T00:00:00";
                            conv_query_type := GENERAL |} ];
                     messages_table := []; messages_seq := 0;
                     responses_table := []; rankings_table := [] |}).
  { split; [constructor|]. split; [constructor|]. split; constructor. }
  destruct (ordinal_ranking_is_read_back (P := sample_python) (D := sample_sqlite)
              (str "2025-01-01T00:00:01") (str "c1") sample_stage1
              [self_first_evaluation] (Some sample_synthesis) _ _ _ self_first_evaluation Hok
              (or_introl eq_refl) eq_refl eq_refl)
    as (conv & stage2' & stage3' & Hget & Hin & Hview).
  - repeat constructor; [intros [H|[]]; vm_compute in H; discriminate | intros []].
  - repeat constructor. intros [].
  - left. reflexivity.
  - reflexivity.
  - intros label [<-|[<-|[]]]; vm_compute; eauto.
  - cbn. lia.
  - exists conv, stage2', stage3'. split; [reflexivity|]. split; [reflexivity|].
    split; [exact Hget|]. split; [exact Hin | exact Hview].
Defined.


(** ** The endpoint *)

Lemma get_conversation_found (conversation_id : text) (s : store) (c : conversation_row) :
  bind_text conversation_id = Some conversation_id ->
  In c (conversations_table s) ->
  conv_id c = conversation_id ->
  exists conv_row,
    List.find (fun c0 => bool_decide (conv_id c0 = conversation_id)) (conversations_table s)
    = Some conv_row
    /\ conv_id conv_row = conversation_id
    /\ get_conversation conversation_id s
       = Some (Some {| c_id := conv_id conv_row;
                       c_created_at := conv_created_at conv_row;
                       c_title := conv_title conv_row;
                       c_messages :=
                         map (read_message s)
                             (stable_sort (fun x y => message_ltb y x)
                                (filter (fun m => msg_conversation_id m = conversation_id)
                                   (messages_table s))) |}).
Proof.
  intros Hbind Hc Hcid.
  destruct (List.find (fun c0 => bool_decide (conv_id c0 = conversation_id))
              (conversations_table s)) as [conv_row|] eqn:Efind.
  2:{ pose proof (List.find_none _ _ Efind c Hc) as Hfalse. cbn beta in Hfalse.
      rewrite bool_decide_eq_false in Hfalse. contradiction. }
  pose proof (List.find_some _ _ Efind) as [_ Hrow]. cbn beta in Hrow.
  apply bool_decide_eq_true in Hrow.
  exists conv_row. split; [reflexivity|]. split; [exact Hrow|].
  unfold get_conversation. rewrite Hbind. cbn [mbind option_bind]. rewrite Efind. reflexivity.
Qed.

Lemma get_conversation_Some (conversation_id : text) (s : store) (conv : conversation) :
  get_conversation conversation_id s = Some (Some conv) ->
  bind_text conversation_id = Some conversation_id
  /\ exists c, In c (conversations_table s) /\ conv_id c = conversation_id.
Proof.
  unfold get_conversation.
  destruct (bind_text conversation_id) as [cid|] eqn:Eb; [|discriminate].
  apply bind_text_Some in Eb. subst cid. cbn [mbind option_bind].
  destruct (List.find _ _) as [conv_row|] eqn:Efind; [|discriminate].
  intros _. split; [reflexivity|].
  pose proof (List.find_some _ _ Efind) as [Hin Hrow]. cbn beta in Hrow.
  apply bool_decide_eq_true in Hrow. eauto.
Qed.

Lemma add_user_message_rows (created_at conversation_id content : text) (s s1 : store) :
  add_user_message created_at conversation_id content s = Some s1 ->
  exists message,
    next_rowid (messages_seq s) (map msg_id (messages_table s)) = Some message
    /\ conversations_table s1 = conversations_table s
    /\ messages_table s1
       = messages_table s
         ++ [ {| msg_id := message; msg_conversation_id := conversation_id;
                 msg_role := str "user"; msg_content := content;
                 msg_created_at := created_at |} ]
    /\ responses_table s1 = responses_table s
    /\ rankings_table s1 = rankings_table s.
Proof.
  unfold add_user_message.
  destruct (bind_text conversation_id) as [cid|] eqn:Ec; [|discriminate].
  destruct (bind_text content) as [t|] eqn:Et; [|discriminate].
  destruct (next_rowid _ _) as [message|]; [|discriminate].
  cbn [mbind option_bind]. intros Heq. apply (inj Some) in Heq. subst s1.
  rewrite (bind_text_Some _ _ Ec), (bind_text_Some _ _ Et).
  exists message. repeat split.
Qed.

Lemma update_conversation_title_rows (conversation_id title : text) (s s1 : store) :
  update_conversation_title conversation_id title s = Some s1 ->
  messages_table s1 = messages_table s
  /\ responses_table s1 = responses_table s
  /\ rankings_table s1 = rankings_table s
  /\ forall conv_row,
       List.find (fun c0 => bool_decide (conv_id c0 = conversation_id)) (conversations_table s)
       = Some conv_row ->
       List.find (fun c0 => bool_decide (conv_id c0 = conversation_id)) (conversations_table s1)
       = Some {| conv_id := conv_id conv_row; conv_title := title;
                 conv_created_at := conv_created_at conv_row;
                 conv_query_type := conv_query_type conv_row |}.
Proof.
  unfold update_conversation_title.
  destruct (bind_text title) as [t|] eqn:Et; [|discriminate].
  destruct (bind_text conversation_id) as [cid|] eqn:Ec; [|discriminate].
  cbn [mbind option_bind]. intros Heq. apply (inj Some) in Heq. subst s1.
  apply bind_text_Some in Et, Ec. subst t cid.
  cbn [messages_table responses_table rankings_table conversations_table].
  split; [reflexivity|]. split; [reflexivity|]. split; [reflexivity|].
  induction (conversations_table s) as [|c0 l IH]; intros conv_row; [discriminate|].
  cbn [List.find map].
  destruct (decide (conv_id c0 = conversation_id)) as [Heq|Hne].
  - cbn [conv_id]. rewrite !bool_decide_eq_true_2 by exact Heq.
    intros H. apply (inj Some) in H. subst c0. reflexivity.
  - rewrite !bool_decide_eq_false_2 by exact Hne. apply IH.
Qed.


Lemma get_conversation_missing (conversation_id : text) (s : store) :
  bind_text conversation_id = Some conversation_id ->
  Forall (fun c => conv_id c <> conversation_id) (conversations_table s) ->
  get_conversation conversation_id s = Some None.
Proof.
  intros Hbind Hall. unfold get_conversation. rewrite Hbind. cbn [mbind option_bind].
  induction Hall as [|c l Hc Hall IH]; [reflexivity|].
  cbn [List.find]. rewrite bool_decide_eq_false_2 by exact Hc. exact IH.
Qed.

(** X23.  A message sent to a conversation that does not exist is
    answered with the error 404: no model is called and nothing is
    written.  A message sent to a conversation that exists is written
    to the store before any model is called, and it stays there however
    the request ends: with the answer, or with an exception of the
    title, of the council or of the last write. *)
Theorem user_message_is_persisted_first `{U : Unicode} `{J : JsonLib} `{P : Python}
    `{D : Sqlite} {W : Type}
    `{O : OpenRouter W} (user_time assistant_time conversation_id content : text)
    (council_models : option (list text)) (s : store) (w : world W) :
  (bind_text conversation_id = Some conversation_id ->
   Forall (fun c => conv_id c <> conversation_id) (conversations_table s) ->
   send_message user_time assistant_time conversation_id content council_models s w
   = (Some (HttpError 404 (str "Conversation not found"), w), s))
  /\ (forall c s1,
        In c (conversations_table s) ->
        conv_id c = conversation_id ->
        add_user_message user_time conversation_id content s = Some s1 ->
        exists message rest,
          next_rowid (messages_seq s) (map msg_id (messages_table s)) = Some message
          /\ messages_table
               (send_message user_time assistant_time conversation_id content
                  council_models s w).2
             = messages_table s
               ++ {| msg_id := message; msg_conversation_id := conversation_id;
                     msg_role := str "user"; msg_content := content;
                     msg_created_at := user_time |} :: rest).
Proof.
  split.
  - intros Hbind Hall. unfold send_message.
    rewrite (get_conversation_missing _ _ Hbind Hall). reflexivity.
  - intros c s1 Hc Hcid Huser.
    destruct (add_user_message_rows _ _ _ _ _ Huser)
      as (message & Hnext & _ & Htab1 & _ & _).
    assert (Hbind : bind_text conversation_id = Some conversation_id).
    { unfold add_user_message in Huser.
      destruct (bind_text conversation_id) as [cid|] eqn:E; [|discriminate].
      rewrite (bind_text_Some _ _ E). reflexivity. }
    destruct (get_conversation_found _ _ _ Hbind Hc Hcid) as (conv_row & _ & _ & Hget).
    exists message. unfold send_message. rewrite Hget, Huser.
    set (first := (length _ =? 0)%nat).
    assert (Htitle : forall (b : bool) w1 s2,
              (if b then title_first_message conversation_id content s1 w
               else (Some w, s1)) = (w1, s2) ->
              messages_table s2 = messages_table s1).
    { intros b w1 s2. destruct b; [|intros [= _ <-]; reflexivity].
      unfold title_first_message.
      destruct (generate_conversation_title content w) as [[title w0]|];
        [|intros [= _ <-]; reflexivity].
      destruct (update_conversation_title conversation_id title s1) as [s1'|] eqn:Eup;
        [|intros [= _ <-]; reflexivity].
      intros [= _ <-]. apply (update_conversation_title_rows _ _ _ _ Eup). }
    remember (if first then title_first_message conversation_id content s1 w
              else (Some w, s1)) as titled eqn:Et.
    symmetry in Et. destruct titled as [[w1|] s2];
      pose proof (Htitle _ _ _ Et) as Htab2.
    + destruct (run_full_council content council_models w1)
        as [[[[[stage1 stage2] stage3] md] w2]|].
      * destruct (add_assistant_message assistant_time conversation_id stage1 stage2 stage3 s2)
          as [s3|] eqn:Eadd.
        -- destruct (add_assistant_message_rows _ _ _ _ _ _ _ Eadd)
             as (message' & rows2 & _ & _ & _ & Htab3 & _).
           eexists. split; [exact Hnext|]. cbn [snd].
           rewrite Htab3, Htab2, Htab1, <- app_assoc. reflexivity.
        -- exists []. split; [exact Hnext|]. cbn [snd]. rewrite Htab2, Htab1. reflexivity.
      * exists []. split; [exact Hnext|]. cbn [snd]. rewrite Htab2, Htab1. reflexivity.
    + exists []. split; [exact Hnext|]. cbn [snd]. rewrite Htab2, Htab1. reflexivity.
Qed.

Lemma user_message_is_persisted_first_witness :
  send_message (U := ascii_tables) (J := sample_json) (P := sample_python)
    (D := sample_sqlite) (O := dead_network)
    (str "2025-01-01T00:00:01") (str "2025-01-01T00:00:02") (str "c1") (str "Hello")
    (Some three_models) empty_store {| net := tt; calls := [] |}
  = (Some (HttpError 404 (str "Conversation not found"), {| net := tt; calls := [] |}),
     empty_store).
Proof.
  apply (proj1 (user_message_is_persisted_first (U := ascii_tables) (J := sample_json)
                  (P := sample_python) (D := sample_sqlite) (O := dead_network)
                  (str "2025-01-01T00:00:01") (str "2025-01-01T00:00:02") (str "c1")
                  (str "Hello") (Some three_models) empty_store
                  {| net := tt; calls := [] |})).
  - reflexivity.
  - constructor.
Defined.


Lemma get_conversation_inv (conversation_id : text) (s : store) (conv : conversation) :
  get_conversation conversation_id s = Some (Some conv) ->
  bind_text conversation_id = Some conversation_id
  /\ exists conv_row,
       List.find (fun c0 => bool_decide (conv_id c0 = conversation_id)) (conversations_table s)
       = Some conv_row
       /\ In conv_row (conversations_table s)
       /\ conv_id conv_row = conversation_id
       /\ conv = {| c_id := conv_id conv_row;
                    c_created_at := conv_created_at conv_row;
                    c_title := conv_title conv_row;
                    c_messages :=
                      map (read_message s)
                          (stable_sort (fun x y => message_ltb y x)
                             (filter (fun m => msg_conversation_id m = conversation_id)
                                (messages_table s))) |}.
Proof.
  unfold get_conversation.
  destruct (bind_text conversation_id) as [cid|] eqn:Eb; [|discriminate].
  apply bind_text_Some in Eb. subst cid. cbn [mbind option_bind].
  destruct (List.find _ _) as [conv_row|] eqn:Efind; [|discriminate].
  intros Heq. apply (inj Some) in Heq. apply (inj Some) in Heq.
  split; [reflexivity|]. exists conv_row.
  pose proof (List.find_some _ _ Efind) as [Hin Hrow]. cbn beta in Hrow.
  apply bool_decide_eq_true in Hrow.
  split; [reflexivity|]. split; [exact Hin|]. split; [exact Hrow | symmetry; exact Heq].
Qed.

Lemma get_conversation_intro (conversation_id : text) (s : store) (conv_row : conversation_row) :
  bind_text conversation_id = Some conversation_id ->
  List.find (fun c0 => bool_decide (conv_id c0 = conversation_id)) (conversations_table s)
  = Some conv_row ->
  get_conversation conversation_id s
  = Some (Some {| c_id := conv_id conv_row;
                  c_created_at := conv_created_at conv_row;
                  c_title := conv_title conv_row;
                  c_messages :=
                    map (read_message s)
                        (stable_sort (fun x y => message_ltb y x)
                           (filter (fun m => msg_conversation_id m = conversation_id)
                              (messages_table s))) |}).
Proof.
  intros Hbind Hfind. unfold get_conversation. rewrite Hbind. cbn [mbind option_bind].
  rewrite Hfind. reflexivity.
Qed.

(** The conversation after the user message and the round were written
    under the conversation row [conv_row2]. *)
Lemma conversation_after_exchange `{P : Python} `{D : Sqlite}
    (user_time assistant_time : text)
    (conversation_id content : text)
    (stage1 : list stage1_result) (stage2 : list stage2_result)
    (stage3 : option final_result) (s s1 s2 s3 : store) (conv0 : conversation)
    (conv_row2 : conversation_row) :
  store_ok s ->
  get_conversation conversation_id s = Some (Some conv0) ->
  add_user_message user_time conversation_id content s = Some s1 ->
  messages_table s2 = messages_table s1 ->
  responses_table s2 = responses_table s1 ->
  rankings_table s2 = rankings_table s1 ->
  messages_seq s2 = messages_seq s1 ->
  List.find (fun c0 => bool_decide (conv_id c0 = conversation_id)) (conversations_table s2)
  = Some conv_row2 ->
  add_assistant_message assistant_time conversation_id stage1 stage2 stage3 s2 = Some s3 ->
  store_ok s3
  /\ exists conv stage2',
       get_conversation conversation_id s3 = Some (Some conv)
       /\ c_title conv = conv_title conv_row2
       /\ length (c_messages conv) = length (c_messages conv0) + 2
       /\ In (UserMessage content) (c_messages conv)
       /\ In (AssistantMessage stage1 stage2'
                (match stage3 with
                 | Some f => Some {| v3_model := fr_model f; v3_response := fr_response f |}
                 | None => None
                 end))
             (c_messages conv)
       /\ map v2_model stage2' = map s2_model stage2
       /\ map v2_ranking stage2' = map s2_ranking stage2.
Proof.
  intros Hok Hget0 Huser Hm2 Hr2 Hk2 Hq2 Hfind2 Hadd.
  destruct (get_conversation_inv _ _ _ Hget0) as (Hbind & conv_row0 & _ & _ & _ & ->).
  destruct (add_user_message_rows _ _ _ _ _ Huser) as (message & Hnext & _ & Htab1 & _ & _).
  destruct (store_ok_writes s Hok) as (_ & _ & Huser_ok & _).
  pose proof (Huser_ok _ _ _ _ Huser) as Hok1.
  assert (Hok2 : store_ok s2).
  { unfold store_ok. rewrite Hm2, Hr2, Hk2, Hq2. exact Hok1. }
  destruct (store_ok_writes s2 Hok2) as (_ & _ & _ & Hadd_ok).
  destruct (Hadd_ok _ _ _ _ _ _ Hadd) as (Hok3 & _).
  split; [exact Hok3|].
  pose proof (List.find_some _ _ Hfind2) as [Hin2 Hrow2]. cbn beta in Hrow2.
  apply bool_decide_eq_true in Hrow2.
  destruct (get_conversation_after_round _ _ _ _ _ _ _ _ Hok2 Hin2 Hrow2 Hadd)
    as (conv & message3 & _ & Hget3 & _ & Hin3 & Hbefore).
  destruct (Hbefore _ (get_conversation_intro _ _ _ Hbind Hfind2)) as (Hlen & Htitle & _).
  cbn [c_messages c_title] in Hlen, Htitle.
  exists conv. eexists. split; [exact Hget3|]. split; [exact Htitle|].
  split; [|split; [|split; [exact Hin3|split]]].
  - rewrite Hlen. cbn [c_messages]. rewrite !length_map.
    rewrite !(Permutation_length (stable_sort_perm _ _)).
    rewrite Hm2, Htab1, filter_app, length_app, filter_cons, filter_nil.
    cbn [msg_conversation_id].
    destruct (decide (conversation_id = conversation_id)) as [_|Hne];
      [cbn [length]; lia | destruct Hne; reflexivity].
  - destruct (get_conversation_inv _ _ _ Hget3) as (_ & conv_row3 & _ & _ & _ & ->).
    cbn [c_messages].
    destruct (add_assistant_message_rows _ _ _ _ _ _ _ Hadd)
      as (m3 & rows2 & _ & _ & _ & Htab3 & _).
    set (row := {| msg_id := message; msg_conversation_id := conversation_id;
                   msg_role := str "user"; msg_content := content;
                   msg_created_at := user_time |}) in *.
    assert (Hread : read_message s3 row = UserMessage content).
    { unfold read_message. cbn [msg_role row].
      destruct (decide (str "user" = str "user")) as [_|Hne]; [reflexivity|].
      destruct Hne. reflexivity. }
    rewrite <- Hread. apply in_map, stable_sort_In.
    apply list_elem_of_In, list_elem_of_filter. split; [reflexivity|].
    apply list_elem_of_In. rewrite Htab3, Hm2, Htab1, !in_app_iff.
    left. right. left. reflexivity.
  - rewrite map_map. apply map_ext. intros r. apply read_evaluation_header.
  - rewrite map_map. apply map_ext. intros r. apply read_evaluation_header.
Qed.


(** X24.  When the endpoint answers a message sent to a consistent
    store, the store is consistent afterwards and the exchange can be
    read back: the conversation has two more messages than before,
    among them the user's message and an assistant message with the
    Round-1 results, the evaluators and raw replies of Round 2 and the
    synthesis of the answer.  The answer is the result of the council
    run on the content.  On the first message of a conversation the
    title was generated before the council was run and is the title
    read back; later the title is the one the conversation had. *)
Theorem answered_message_is_read_back `{U : Unicode} `{J : JsonLib} `{P : Python}
    `{D : Sqlite} {W : Type}
    `{O : OpenRouter W} (user_time assistant_time conversation_id content : text)
    (council_models : option (list text)) (s s' : store) (w w' : world W)
    (r : send_message_response) :
  store_ok s ->
  send_message user_time assistant_time conversation_id content council_models s w
  = (Some (Answered r, w'), s') ->
  store_ok s'
  /\ exists conv0 conv stage2' w1,
       get_conversation conversation_id s = Some (Some conv0)
       /\ get_conversation conversation_id s' = Some (Some conv)
       /\ length (c_messages conv) = length (c_messages conv0) + 2
       /\ In (UserMessage content) (c_messages conv)
       /\ In (AssistantMessage (smr_stage1 r) stage2'
                (match smr_stage3 r with
                 | Some f => Some {| v3_model := fr_model f; v3_response := fr_response f |}
                 | None => None
                 end))
             (c_messages conv)
       /\ map v2_model stage2' = map s2_model (smr_stage2 r)
       /\ map v2_ranking stage2' = map s2_ranking (smr_stage2 r)
       /\ run_full_council content council_models w1
          = Some ((smr_stage1 r, smr_stage2 r, smr_stage3 r, smr_metadata r), w')
       /\ match c_messages conv0 with
          | [] => generate_conversation_title content w = Some (c_title conv, w1)
          | _ :: _ => w1 = w /\ c_title conv = c_title conv0
          end.
Proof.
  intros Hok. unfold send_message.
  destruct (get_conversation conversation_id s) as [[conv0|]|] eqn:Hget0;
    [|discriminate|discriminate].
  destruct (add_user_message user_time conversation_id content s) as [s1|] eqn:Huser;
    [|discriminate].
  destruct (get_conversation_inv _ _ _ Hget0) as (Hbind & conv_row0 & Hfind0 & _ & _ & Hconv0).
  destruct (add_user_message_rows _ _ _ _ _ Huser) as (message & _ & Hc1 & _ & _ & _).
  assert (Hstep : forall (w1 : world W) (s2 : store) (title : text),
            messages_table s2 = messages_table s1 ->
            responses_table s2 = responses_table s1 ->
            rankings_table s2 = rankings_table s1 ->
            messages_seq s2 = messages_seq s1 ->
            List.find (fun c0 => bool_decide (conv_id c0 = conversation_id))
              (conversations_table s2)
            = Some {| conv_id := conv_id conv_row0; conv_title := title;
                      conv_created_at := conv_created_at conv_row0;
                      conv_query_type := conv_query_type conv_row0 |} ->
            match run_full_council content council_models w1 with
            | Some (stage1_results, stage2_results, stage3_result, metadata, w2) =>
                match add_assistant_message assistant_time conversation_id
                        stage1_results stage2_results stage3_result s2 with
                | Some s3 =>
                    (Some (Answered {| smr_stage1 := stage1_results;
                                       smr_stage2 := stage2_results;
                                       smr_stage3 := stage3_result;
                                       smr_metadata := metadata |}, w2), s3)
                | None => (None, s2)
                end
            | None => (None, s2)
            end = (Some (Answered r, w'), s') ->
            store_ok s'
            /\ exists conv stage2',
                 get_conversation conversation_id s' = Some (Some conv)
                 /\ c_title conv = title
                 /\ length (c_messages conv) = length (c_messages conv0) + 2
                 /\ In (UserMessage content) (c_messages conv)
                 /\ In (AssistantMessage (smr_stage1 r) stage2'
                          (match smr_stage3 r with
                           | Some f => Some {| v3_model := fr_model f;
                                               v3_response := fr_response f |}
                           | None => None
                           end))
                       (c_messages conv)
                 /\ map v2_model stage2' = map s2_model (smr_stage2 r)
                 /\ map v2_ranking stage2' = map s2_ranking (smr_stage2 r)
                 /\ run_full_council content council_models w1
                    = Some ((smr_stage1 r, smr_stage2 r, smr_stage3 r, smr_metadata r), w')).
  { intros w1 s2 title Hm2 Hr2 Hk2 Hq2 Hfind2.
    destruct (run_full_council content council_models w1)
      as [[[[[stage1 stage2] stage3] md] w2]|] eqn:Erun; [|discriminate].
    destruct (add_assistant_message assistant_time conversation_id stage1 stage2 stage3 s2)
      as [s3|] eqn:Eadd; [|discriminate].
    intros Heq. injection Heq as <- <- <-. cbn [smr_stage1 smr_stage2 smr_stage3 smr_metadata].
    destruct (conversation_after_exchange _ _ _ _ _ _ _ _ _ _ _ _ _
                Hok Hget0 Huser Hm2 Hr2 Hk2 Hq2 Hfind2 Eadd)
      as (Hok3 & conv & stage2' & Hget3 & Htitle & Hlen & Huser3 & Hin3 & Hmod & Hrank).
    split; [exact Hok3|]. exists conv, stage2'.
    split; [exact Hget3|]. split; [exact Htitle|]. split; [exact Hlen|].
    split; [exact Huser3|]. split; [exact Hin3|]. split; [exact Hmod|].
    split; [exact Hrank | reflexivity]. }
  assert (Hrow0 : conv_row0 = {| conv_id := conv_id conv_row0;
                                 conv_title := conv_title conv_row0;
                                 conv_created_at := conv_created_at conv_row0;
                                 conv_query_type := conv_query_type conv_row0 |})
    by (destruct conv_row0; reflexivity).
  assert (Htitle0 : c_title conv0 = conv_title conv_row0) by (rewrite Hconv0; reflexivity).
  destruct (c_messages conv0) as [|m0 ms0] eqn:Emsgs; cbn [length Nat.eqb].
  - unfold title_first_message.
    destruct (generate_conversation_title content w) as [[title w1]|] eqn:Egen;
      [|discriminate].
    destruct (update_conversation_title conversation_id title s1) as [s2|] eqn:Eup;
      [|discriminate].
    destruct (update_conversation_title_rows _ _ _ _ Eup) as (Hm2 & Hr2 & Hk2 & Hfind).
    assert (Hq2 : messages_seq s2 = messages_seq s1).
    { unfold update_conversation_title in Eup.
      destruct (bind_text title); [|discriminate].
      destruct (bind_text conversation_id); [|discriminate].
      cbn in Eup. apply (inj Some) in Eup. subst s2. reflexivity. }
    rewrite Hc1 in Hfind. specialize (Hfind _ Hfind0).
    intros Hres.
    destruct (Hstep w1 s2 title Hm2 Hr2 Hk2 Hq2 Hfind Hres)
      as (Hok' & conv & stage2' & Hget' & Htitle & Hlen & Hu & Hin & Hmod & Hrank & Hrun).
    split; [exact Hok'|]. exists conv0, conv, stage2', w1.
    split; [reflexivity|]. split; [exact Hget'|].
    split; [rewrite Hlen, Emsgs; reflexivity|].
    split; [exact Hu|]. split; [exact Hin|]. split; [exact Hmod|]. split; [exact Hrank|].
    split; [exact Hrun|]. rewrite Emsgs, Htitle. reflexivity.
  - intros Hres.
    assert (Hfind1 : List.find (fun c0 => bool_decide (conv_id c0 = conversation_id))
                       (conversations_table s1)
                     = Some {| conv_id := conv_id conv_row0;
                               conv_title := conv_title conv_row0;
                               conv_created_at := conv_created_at conv_row0;
                               conv_query_type := conv_query_type conv_row0 |})
      by (rewrite Hc1, Hfind0, <- Hrow0; reflexivity).
    destruct (Hstep w s1 (conv_title conv_row0) eq_refl eq_refl eq_refl eq_refl Hfind1 Hres)
      as (Hok' & conv & stage2' & Hget' & Htitle & Hlen & Hu & Hin & Hmod & Hrank & Hrun).
    split; [exact Hok'|]. exists conv0, conv, stage2', w.
    split; [reflexivity|]. split; [exact Hget'|].
    split; [rewrite Hlen, Emsgs; reflexivity|].
    split; [exact Hu|]. split; [exact Hin|]. split; [exact Hmod|]. split; [exact Hrank|].
    split; [exact Hrun|]. rewrite Emsgs. split; [reflexivity|].
    rewrite Htitle, Htitle0. reflexivity.
Qed.


Lemma answered_message_is_read_back_witness :
  exists s0 r w' s' conv,
    create_conversation (str "2025-01-01T00:00:00") (str "c1") empty_store
    = Some ({| c_id := str "c1"; c_created_at := str "2025-01-01T00:00:00";
               c_title := str "New Conversation"; c_messages := [] |}, s0)
    /\ send_message (U := ascii_tables) (J := sample_json) (P := sample_python)
         (D := sample_sqlite) (O := live_network)
         (str "2025-01-01T00:00:01") (str "2025-01-01T00:00:02") (str "c1") (str "Hello")
         (Some three_models) s0 {| net := tt; calls := [] |}
       = (Some (Answered r, w'), s')
    /\ store_ok s'
    /\ get_conversation (str "c1") s' = Some (Some conv)
    /\ length (c_messages conv) = 2
    /\ c_title conv = str "MATH"
    /\ In (UserMessage (str "Hello")) (c_messages conv).
Proof.
  eexists. eexists. eexists. eexists.
  assert (Hok : store_ok
                  {| conversations_table :=
                       [ {| conv_id := str "c1"; conv_title := NEW_CONVERSATION;
                            conv_created_at := str "2025-01-01T00:00:00";
                            conv_query_type := GENERAL |} ];
                     messages_table := []; messages_seq := 0;
                     responses_table := []; rankings_table := [] |}).
  { split; [constructor|]. split; [constructor|]. split; constructor. }
  destruct (answered_message_is_read_back (U := ascii_tables) (J := sample_json)
              (P := sample_python) (D := sample_sqlite) (O := live_network)
              (str "2025-01-01T00:00:01") (str "2025-01-01T00:00:02") (str "c1") (str "Hello")
              (Some three_models) _ _ {| net := tt; calls := [] |} _ _ Hok
              ltac:(vm_compute; reflexivity))
    as (Hok' & conv0 & conv & stage2' & w1 & Hget0 & Hget & Hlen & Huser & _ & _ & _ & _
        & Htitle).
  exists conv. split; [reflexivity|]. split; [vm_compute; reflexivity|].
  split; [exact Hok'|]. split; [exact Hget|].
  vm_compute in Hget0. apply (inj Some) in Hget0. apply (inj Some) in Hget0. subst conv0.
  cbn [c_messages length] in Hlen, Htitle.
  split; [exact Hlen|]. split; [|exact Huser].
  vm_compute in Htitle. apply (inj Some) in Htitle. injection Htitle as Ht _.
  symmetry. exact Ht.
Defined.
